(** * srt.py: a shallow embedding of the SubRip subtitle tool

    The development follows [src/srt.py] (Python 2): the [Timecode] class,
    the [SubRip] document class (a list of subtitle entries) and the engine
    parts of the [SRT] command class ([merge], [sync]).  Python byte strings
    are [string]s, Python integers (int and long alike) are [Z], Python
    floats are IEEE-754 binary64 values in the representation of the
    Standard Library's [SpecFloat], and a raised exception is the [Err]
    branch of an error monad.  Methods that mutate a [SubRip] in place
    return the state of the object after the call together with the
    exception that interrupted them, if any. *)

From Stdlib Require Import ZArith List String Ascii Bool Lia.
From Stdlib Require Import SpecFloat DecimalString DecimalZ.
Import ListNotations.

Local Open Scope string_scope.
Local Open Scope Z_scope.

(** ** Exceptions and the error monad *)

(** The exception classes the program can raise: Python's built-in ones and
    the three classes [src/srt.py] declares itself. *)
Inductive exn : Type :=
| IndexError
| ValueError
| TypeError
| OverflowError
| ZeroDivisionError
| InvalidTimeException
| InvalidTimestringException
| Usage (msg : string).

(** The exception classes declared by the program (lines 105, 114, 465);
    the others are raised by the Python runtime. *)
Definition declared_by_program (e : exn) : bool :=
  match e with
  | InvalidTimeException | InvalidTimestringException | Usage _ => true
  | _ => false
  end.

Inductive result (A : Type) : Type :=
| OK (a : A)
| Err (e : exn).
Arguments OK {A} a.
Arguments Err {A} e.

Definition bind {A B : Type} (m : result A) (k : A -> result B) : result B :=
  match m with
  | OK a => k a
  | Err e => Err e
  end.

Notation "x <- m ;; k" := (bind m (fun x => k))
  (at level 61, m at next level, right associativity).
Notation "' p <- m ;; k" := (bind m (fun x => match x with p => k end))
  (at level 61, p pattern, m at next level, right associativity).

Fixpoint mapM {A B : Type} (f : A -> result B) (l : list A) : result (list B) :=
  match l with
  | [] => OK []
  | a :: l' => b <- f a ;; bs <- mapM f l' ;; OK (b :: bs)
  end.

(** ** Python values *)

(** A [Timecode] instance: its only attribute is [ms]. *)
Record Timecode : Type := mkTimecode { ms : Z }.

Definition float := spec_float.

(** The dynamically typed values that reach the program's arguments. *)
Inductive value : Type :=
| VNone
| VInt (z : Z)
| VFloat (f : float)
| VStr (s : string)
| VTimecode (t : Timecode).

(** ** Python string built-ins *)

Definition ascii_eqb (a b : ascii) : bool := Ascii.eqb a b.

Definition LF : ascii := ascii_of_nat 10.
Definition CR : ascii := ascii_of_nat 13.
Definition nl : string := String LF "".
Definition crnl : string := String CR (String LF "").
Definition nlnl : string := String LF (String LF "").

(** [s[0]]: raises IndexError on the empty string. *)
Definition str_get0 (s : string) : result ascii :=
  match s with
  | EmptyString => Err IndexError
  | String c _ => OK c
  end.

(** [s[1:]]. *)
Definition str_tail (s : string) : string :=
  match s with
  | EmptyString => EmptyString
  | String _ s' => s'
  end.

Definition cons_head (c : ascii) (l : list string) : list string :=
  match l with
  | [] => [String c ""]
  | w :: ws => String c w :: ws
  end.

(** [s.split(sep)] for a non-empty separator: a left-to-right scan for
    non-overlapping occurrences.  [skip] counts the characters of a matched
    separator that are still to be passed over. *)
Fixpoint split_go (sep : string) (skip : nat) (s : string) : list string :=
  match s with
  | EmptyString => [""]
  | String c s' =>
      match skip with
      | S k => split_go sep k s'
      | O =>
          if prefix sep s
          then "" :: split_go sep (Nat.pred (String.length sep)) s'
          else cons_head c (split_go sep O s')
      end
  end.

Definition split (sep s : string) : list string := split_go sep O s.

(** [s.replace(old, new)] for a non-empty [old]. *)
Fixpoint replace_go (old new : string) (skip : nat) (s : string) : string :=
  match s with
  | EmptyString => ""
  | String c s' =>
      match skip with
      | S k => replace_go old new k s'
      | O =>
          if prefix old s
          then new ++ replace_go old new (Nat.pred (String.length old)) s'
          else String c (replace_go old new O s')
      end
  end.

Definition replace (old new s : string) : string := replace_go old new O s.

(** [sep.join(l)]. *)
Definition join (sep : string) (l : list string) : string := String.concat sep l.

(** C [isspace] in the default locale, used by [str.strip] and [int]. *)
Definition is_space (c : ascii) : bool :=
  let n := nat_of_ascii c in
  (Nat.eqb n 32 || (Nat.leb 9 n && Nat.leb n 13))%bool.

Fixpoint lstrip (s : string) : string :=
  match s with
  | EmptyString => ""
  | String c s' => if is_space c then lstrip s' else s
  end.

Fixpoint rstrip (s : string) : string :=
  match s with
  | EmptyString => ""
  | String c s' =>
      match rstrip s' with
      | EmptyString => if is_space c then "" else String c ""
      | r => String c r
      end
  end.

(** [s.strip()]. *)
Definition strip (s : string) : string := rstrip (lstrip s).

(** Unpacking a list into two or three names: ValueError when the count is
    wrong. *)
Definition unpack2 {A : Type} (l : list A) : result (A * A) :=
  match l with
  | [a; b] => OK (a, b)
  | _ => Err ValueError
  end.

Definition unpack3 {A : Type} (l : list A) : result (A * A * A) :=
  match l with
  | [a; b; c] => OK (a, b, c)
  | _ => Err ValueError
  end.

(** *** [int(s, 10)] and [str(n)] *)

Definition digit_of_ascii (c : ascii) : option Z :=
  let n := nat_of_ascii c in
  if (Nat.leb 48 n && Nat.leb n 57)%bool then Some (Z.of_nat n - 48) else None.

(** Accumulating the decimal digits of [s] onto [acc], as [strtol] does;
    [None] when a character is not a digit. *)
Fixpoint digits_val (acc : Z) (s : string) : option Z :=
  match s with
  | EmptyString => Some acc
  | String c s' =>
      match digit_of_ascii c with
      | Some d => digits_val (10 * acc + d) s'
      | None => None
      end
  end.

(** [int(s, 10)]: optional surrounding whitespace, an optional sign, one or
    more decimal digits; anything else raises ValueError. *)
Definition py_int (s : string) : result Z :=
  let t := strip s in
  let '(negative, body) :=
    match t with
    | String c r =>
        if ascii_eqb c "-" then (true, r)
        else if ascii_eqb c "+" then (false, r)
        else (false, t)
    | EmptyString => (false, t)
    end in
  match body with
  | EmptyString => Err ValueError
  | _ =>
      match digits_val 0 body with
      | Some n => OK (if negative then - n else n)
      | None => Err ValueError
      end
  end.

(** [str(n)] for an integer: its decimal representation. *)
Definition str_of_int (n : Z) : string :=
  NilZero.string_of_int (Z.to_int n).

Fixpoint zeros (n : nat) : string :=
  match n with
  | O => ""
  | S k => String "0" (zeros k)
  end.

Definition zfill (width : nat) (s : string) : string :=
  zeros (width - String.length s) ++ s.

(** The conversion ["%0<width>d" % n]: the sign first, then zeros up to the
    width, then the digits. *)
Definition fmt_d (width : nat) (n : Z) : string :=
  if n <? 0
  then "-" ++ zfill (Nat.pred width) (str_of_int (- n))
  else zfill width (str_of_int n).

(** ** class Timecode *)

(** [Timecode.__init__] (lines 9-48). *)
Definition Timecode_init (time : value) : result Timecode :=
  match time with
  | VInt z => OK (mkTimecode z)
  | VStr time =>
      c <- str_get0 time ;;
      let '(time, sign) :=
        if ascii_eqb c "-" then (str_tail time, -1) else (time, 1) in
      let length := String.length time in
      '(hours, minutes, seconds) <-
        (if Nat.eqb length 12 then
           unpack3 (split ":" time)
         else if Nat.eqb length 9 then
           '(minutes, seconds) <- unpack2 (split ":" time) ;;
           OK ("0", minutes, seconds)
         else if Nat.eqb length 6 then
           OK ("0", "0", time)
         else if Nat.eqb length 5 then
           '(minutes, seconds) <- unpack2 (split ":" time) ;;
           OK ("0", minutes, seconds ++ ",000")
         else if (Nat.leb length 3 && Nat.ltb 0 length)%bool then
           OK ("0", "0", "0," ++ time)
         else Err InvalidTimestringException) ;;
      '(seconds, milliseconds) <- unpack2 (split "," seconds) ;;
      s <- py_int seconds ;;
      m <- py_int minutes ;;
      h <- py_int hours ;;
      x <- py_int milliseconds ;;
      OK (mkTimecode ((0 + s * 1000 + m * 1000 * 60 + h * 1000 * 60 * 60 + x) * sign))
  | _ => Err InvalidTimeException
  end.

(** [Timecode.stringify] (lines 50-70); [/] and [%] on Python 2 integers
    are floor division and its remainder. *)
Definition stringify (total : Z) : string :=
  let negative := total <? 0 in
  let total := if negative then - total else total in
  let milliseconds := total mod 1000 in
  let total := total / 1000 in
  let seconds := total mod 60 in
  let total := total / 60 in
  let minutes := total mod 60 in
  let total := total / 60 in
  let hours := total in
  let sign := if negative then "-" else "" in
  sign ++ fmt_d 2 hours ++ ":" ++ fmt_d 2 minutes ++ ":" ++ fmt_d 2 seconds
       ++ "," ++ fmt_d 3 milliseconds.

(** [Timecode.__str__] (line 72). *)
Definition Timecode_str (self : Timecode) : string := stringify (ms self).

(** The decorator [checktype] (lines 79-85): the wrapped method raises
    TypeError unless [other] is a Timecode. *)
Definition checktype (f : Timecode -> Timecode -> result Timecode)
  (self : Timecode) (other : value) : result Timecode :=
  match other with
  | VTimecode other => f self other
  | _ => Err TypeError
  end.

(** Python 2 [a / b] on integers. *)
Definition py_floordiv (a b : Z) : result Z :=
  if b =? 0 then Err ZeroDivisionError else OK (a / b).

(** Lines 87-97. *)
Definition Timecode_add : Timecode -> value -> result Timecode :=
  checktype (fun self other => Timecode_init (VInt (ms self + ms other))).

Definition Timecode_sub : Timecode -> value -> result Timecode :=
  checktype (fun self other => Timecode_init (VInt (ms self - ms other))).

Definition Timecode_mul : Timecode -> value -> result Timecode :=
  checktype (fun self other => Timecode_init (VInt (ms self * ms other))).

Definition Timecode_div : Timecode -> value -> result Timecode :=
  checktype (fun self other =>
    q <- py_floordiv (ms self) (ms other) ;; Timecode_init (VInt q)).

(** Lines 99-101. *)
Definition Timecode_pos (self : Timecode) : result Timecode :=
  Timecode_init (VInt (ms self)).
Definition Timecode_neg (self : Timecode) : result Timecode :=
  Timecode_init (VInt (- ms self)).
Definition Timecode_abs (self : Timecode) : result Timecode :=
  Timecode_init (VInt (Z.abs (ms self))).

(** ** Python floats *)

Definition float_prec : Z := 53.
Definition float_emax : Z := 1024.

(** [float(n)] and the implicit conversion of an integer operand: rounding
    to nearest even; OverflowError when the integer is out of range. *)
Definition float_of_int (n : Z) : result float :=
  match binary_normalize float_prec float_emax n 0 false with
  | S754_infinity _ => Err OverflowError
  | f => OK f
  end.

Definition float_mul (x y : float) : float := SFmul float_prec float_emax x y.

(** [x / y] on floats: ZeroDivisionError when the divisor is zero. *)
Definition float_div (x y : float) : result float :=
  match y with
  | S754_zero _ => Err ZeroDivisionError
  | _ => OK (SFdiv float_prec float_emax x y)
  end.

(** [int(f)]: truncation toward zero; ValueError on NaN, OverflowError on
    an infinity. *)
Definition int_of_float (f : float) : result Z :=
  match f with
  | S754_nan => Err ValueError
  | S754_infinity _ => Err OverflowError
  | S754_zero _ => OK 0
  | S754_finite s m e => OK (cond_Zopp s (Z.shiftl (Zpos m) e))
  end.

(** [int(n * factor)] for an integer [n] and a float [factor]. *)
Definition scale_ms (n : Z) (factor : float) : result Z :=
  x <- float_of_int n ;; int_of_float (float_mul x factor).

Definition is_finite (f : float) : bool :=
  match f with
  | S754_zero _ | S754_finite _ _ _ => true
  | _ => false
  end.

(** ** class SubRip *)

(** One subtitle: the dictionary with the keys "index", "start", "end" and
    "text" built at lines 129-134. *)
Record entry : Type := mkEntry {
  index : Z;
  start : Timecode;
  end_ : Timecode;
  text : string
}.

Definition set_index (i : Z) (e : entry) : entry :=
  mkEntry i (start e) (end_ e) (text e).
Definition set_start (t : Timecode) (e : entry) : entry :=
  mkEntry (index e) t (end_ e) (text e).
Definition set_end (t : Timecode) (e : entry) : entry :=
  mkEntry (index e) (start e) t (text e).

(** A [SubRip] is a list of subtitles. *)
Definition SubRip : Type := list entry.

(** [l[i]] for [0 <= i]: IndexError out of range. *)
Definition list_get {A : Type} (l : list A) (i : nat) : result A :=
  match nth_error l i with
  | Some a => OK a
  | None => Err IndexError
  end.

(** [l[-1]]. *)
Definition list_last {A : Type} (l : list A) : result A :=
  match l with
  | [] => Err IndexError
  | a :: l' => OK (last l' a)
  end.

(** The body of the loop of [SubRip.__init__] (lines 128-134) for one
    block; the entry is what line 136 appends. *)
Definition parse_block (each : string) : result entry :=
  let each := split nl each in
  first <- list_get each 0 ;;
  index <- py_int first ;;
  let text := join nl (skipn 2 each) in
  second <- list_get each 1 ;;
  codes <- mapM (fun p => Timecode_init (VStr (strip p))) (split "-->" second) ;;
  '(start, end_) <- unpack2 codes ;;
  OK (mkEntry index start end_ text).

(** The blocks line 127 iterates over. *)
Definition blocks (rawdata : string) : list string :=
  split nlnl (replace crnl nl (strip rawdata)).

(** [SubRip.__init__] (lines 126-136). *)
Definition SubRip_init (rawdata : string) : result SubRip :=
  mapM parse_block (blocks rawdata).

(** The format of line 140 applied to one subtitle. *)
Definition render (each : entry) : string :=
  str_of_int (index each) ++ nl ++ Timecode_str (start each) ++ " --> "
    ++ Timecode_str (end_ each) ++ nl ++ text each.

(** [SubRip.__str__] (lines 138-141). *)
Definition SubRip_str (self : SubRip) : string :=
  join nlnl (map render self).

(** A method that mutates the document in place: the document after the
    call, and the exception that interrupted the call, if any. *)
Definition effect : Type := SubRip * option exn.

(** [for each in self: body], where the body rewrites keys of [each]; an
    exception leaves the subtitles already visited rewritten. *)
Fixpoint for_each (body : entry -> entry * option exn) (self : SubRip) : effect :=
  match self with
  | [] => ([], None)
  | each :: rest =>
      match body each with
      | (each', Some e) => (each' :: rest, Some e)
      | (each', None) =>
          let '(rest', o) := for_each body rest in (each' :: rest', o)
      end
  end.

(** Running a second mutation after a first one that returned normally. *)
Definition and_then (m : effect) (k : SubRip -> effect) : effect :=
  match m with
  | (self, None) => k self
  | (self, Some e) => (self, Some e)
  end.

(** The loop body of [shift_time_by] (lines 146-147). *)
Definition shift_time_body (time : value) (each : entry) : entry * option exn :=
  match Timecode_add (start each) time with
  | Err e => (each, Some e)
  | OK s =>
      let each := set_start s each in
      match Timecode_add (end_ each) time with
      | Err e => (each, Some e)
      | OK t => (set_end t each, None)
      end
  end.

(** [SubRip.shift_time_by] (lines 143-147). *)
Definition shift_time_by (time : value) (self : SubRip) : effect :=
  for_each (shift_time_body time) self.

(** The loop body of [multiply_time_by] (lines 152-153). *)
Definition multiply_time_body (factor : float) (each : entry) : entry * option exn :=
  match (n <- scale_ms (ms (start each)) factor ;; Timecode_init (VInt n)) with
  | Err e => (each, Some e)
  | OK s =>
      let each := set_start s each in
      match (n <- scale_ms (ms (end_ each)) factor ;; Timecode_init (VInt n)) with
      | Err e => (each, Some e)
      | OK t => (set_end t each, None)
      end
  end.

(** [SubRip.multiply_time_by] (lines 149-153). *)
Definition multiply_time_by (factor : float) (self : SubRip) : effect :=
  for_each (multiply_time_body factor) self.

(** [SubRip.shift_index_by] (lines 155-158) for an integer [n]. *)
Definition shift_index_by (n : Z) (self : SubRip) : effect :=
  for_each (fun each => (set_index (index each + n) each, None)) self.

(** [SubRip.resize] (lines 160-164). *)
Definition resize (anchor : Timecode) (factor : float) (self : SubRip) : effect :=
  match Timecode_neg anchor with
  | Err e => (self, Some e)
  | OK minus_anchor =>
      and_then (shift_time_by (VTimecode minus_anchor) self) (fun self =>
      and_then (multiply_time_by factor self) (fun self =>
      shift_time_by (VTimecode anchor) self))
  end.

(** [self[i][key] = v]: the subtitle at position [i] is rewritten. *)
Fixpoint update_at (i : nat) (f : entry -> entry) (self : SubRip) {struct self}
  : SubRip :=
  match self, i with
  | [], _ => []
  | each :: rest, O => f each :: rest
  | each :: rest, S j => each :: update_at j f rest
  end.

(** [SubRip.reindex] (lines 166-169). *)
Definition reindex (self : SubRip) : effect :=
  (fold_left
     (fun self i => update_at i (set_index (Z.of_nat i + 1)) self)
     (seq 0 (List.length self)) self,
   None).

(** ** class SRT: the engine parts of the commands *)

(** The loop of [SRT.merge] (lines 307-310). *)
Fixpoint merge_loop (base : SubRip) (offset : Timecode) (subs : list SubRip)
  : result SubRip :=
  match subs with
  | [] => OK base
  | sub :: rest =>
      match shift_time_by (VTimecode offset) sub with
      | (_, Some e) => Err e
      | (sub, None) =>
          let base := (base ++ sub)%list in
          last_entry <- list_last sub ;;
          merge_loop base (end_ last_entry) rest
      end
  end.

(** [SRT.merge] from the parsed documents to the merged one
    (lines 304-311). *)
Definition merge (subs : list SubRip) : result SubRip :=
  base <- list_get subs 0 ;;
  let subs := skipn 1 subs in
  last_entry <- list_last base ;;
  base <- merge_loop base (end_ last_entry) subs ;;
  match reindex base with
  | (_, Some e) => Err e
  | (base, None) => OK base
  end.

(** [SRT.merge] from the contents of the files to the text printed
    (lines 295-313). *)
Definition SRT_merge (files : list string) : result string :=
  if Nat.ltb (List.length files) 2
  then Err (Usage "What good is there to merge, when there is naught but one item?")
  else
    subs <- mapM SubRip_init files ;;
    base <- merge subs ;;
    OK (SubRip_str base).

(** The factor of [SRT.sync] (lines 401-403), with the rebound [target] and
    [goal]. *)
Definition sync_factor (anchor target goal : Timecode)
  : result (Timecode * Timecode * float) :=
  target <- Timecode_sub target (VTimecode anchor) ;;
  goal <- Timecode_sub goal (VTimecode anchor) ;;
  g <- float_of_int (ms goal) ;;
  t <- float_of_int (ms target) ;;
  factor <- float_div g t ;;
  OK (target, goal, factor).

(** Lines 401-404 on one parsed document. *)
Definition sync (anchor target goal : Timecode) (subs : SubRip) : effect :=
  match sync_factor anchor target goal with
  | Err e => (subs, Some e)
  | OK (_, _, factor) => resize anchor factor subs
  end.

(** The loop of [SRT.sync] (lines 399-410) over the contents of the files:
    the contents after the command and the exception that ended it. *)
Fixpoint SRT_sync (anchor target goal : Timecode) (files : list string)
  : list string * option exn :=
  match files with
  | [] => ([], None)
  | file :: rest =>
      match SubRip_init file with
      | Err e => (file :: rest, Some e)
      | OK subs =>
          match sync_factor anchor target goal with
          | Err e => (file :: rest, Some e)
          | OK (target, goal, factor) =>
              match resize anchor factor subs with
              | (_, Some e) => (file :: rest, Some e)
              | (subs, None) =>
                  let '(rest', o) := SRT_sync anchor target goal rest in
                  (SubRip_str subs :: rest', o)
              end
          end
      end
  end.

(** * Vocabulary of the statements *)

Fixpoint string_forall (p : ascii -> bool) (s : string) : bool :=
  match s with
  | EmptyString => true
  | String c s' => (p c && string_forall p s')%bool
  end.

Definition is_digit (c : ascii) : bool :=
  match digit_of_ascii c with Some _ => true | None => false end.

Definition isnt (c : ascii) (a : ascii) : bool := negb (ascii_eqb a c).

Definition not_space (a : ascii) : bool := negb (is_space a).

(** The characters a rendered timecode is made of. *)
Definition is_time_char (a : ascii) : bool :=
  (is_digit a || ascii_eqb a ":" || ascii_eqb a "," || ascii_eqb a "-")%bool.

(** A rendered field of a timecode: [width] digits that read as [v]. *)
Definition field (width : nat) (v : Z) (s : string) : bool :=
  (Nat.eqb (String.length s) width && string_forall is_digit s
   && match digits_val 0 s with Some n => n =? v | None => false end)%bool.

(** The text of a millisecond count reads back as the same count. *)
Definition reparses (m : Z) : Prop :=
  Timecode_init (VStr (stringify m)) = OK (mkTimecode m).

(** One hundred hours, in milliseconds. *)
Definition hundred_hours : Z := 100 * 60 * 60 * 1000.

(** A timestring [t] whose digits denote [n], read as [n] whole seconds,
    with and without a sign. *)
Definition reads_as_seconds (t : string) (n : Z) : Prop :=
  Timecode_init (VStr t) = OK (mkTimecode (n * 1000)) /\
  Timecode_init (VStr (String "-" t)) = OK (mkTimecode (- (n * 1000))).

(** The timestring without its optional leading [-], as lines 14-15 take
    it. *)
Definition unsigned (time : string) : string :=
  match time with
  | String c r => if ascii_eqb c "-" then r else time
  | EmptyString => time
  end.

(** The lengths that match none of the accepted shapes. *)
Definition rejected_length (n : nat) : bool :=
  (Nat.eqb n 0 || Nat.eqb n 4 || Nat.eqb n 7 || Nat.eqb n 8 || Nat.eqb n 10
   || Nat.eqb n 11 || Nat.ltb 12 n)%bool.

Definition is_timecode (x : value) : bool :=
  match x with VTimecode _ => true | _ => false end.

(** *** Merge, in the specification's words *)

(** A subtitle with both timecodes moved by [offset] milliseconds. *)
Definition shifted_by (offset : Z) (each : entry) : entry :=
  mkEntry (index each) (mkTimecode (ms (start each) + offset))
    (mkTimecode (ms (end_ each) + offset)) (text each).

(** The end of the last subtitle of a document, in milliseconds. *)
Definition last_end (self : SubRip) : Z :=
  match self with
  | [] => 0
  | each :: rest => ms (end_ (last rest each))
  end.

(** The subtitles numbered [k], [k+1], ... in sequence order. *)
Fixpoint renumber (k : Z) (self : SubRip) : SubRip :=
  match self with
  | [] => []
  | each :: rest => set_index k each :: renumber (k + 1) rest
  end.

(** Each document shifted by the running offset and put after the previous
    one; the next offset is the end of its last subtitle after the shift. *)
Fixpoint chained (offset : Z) (subs : list SubRip) : SubRip :=
  match subs with
  | [] => []
  | sub :: rest =>
      let sub' := map (shifted_by offset) sub in
      (sub' ++ chained (last_end sub') rest)%list
  end.

(** The merged document as the specification describes it. *)
Definition merged (base : SubRip) (subs : list SubRip) : SubRip :=
  renumber 1 (base ++ chained (last_end base) subs)%list.

(** *** Resize *)

(** [int(n * factor)] is defined: neither conversion raises. *)
Definition scales (factor : float) (n : Z) : bool :=
  match scale_ms n factor with OK _ => true | Err _ => false end.

(** The float 1.5. *)
Definition one_and_a_half : float := S754_finite false 6755399441055744 (-52).

(** Both timecodes of [each] can be scaled about the anchor. *)
Definition scalable (anchor : Timecode) (factor : float) (each : entry) : Prop :=
  scales factor (ms (start each) - ms anchor) = true /\
  scales factor (ms (end_ each) - ms anchor) = true.

(** The timecodes of [each] that equal the anchor are those of [each']
    too. *)
Definition keeps_anchor (anchor : Timecode) (each each' : entry) : Prop :=
  (start each = anchor -> start each' = anchor) /\
  (end_ each = anchor -> end_ each' = anchor).

(** C8 as stated: after [resize], whatever the factor. *)
Definition anchor_fixed (anchor : Timecode) (factor : float) (self : SubRip) : Prop :=
  Forall2 (keeps_anchor anchor) self (fst (resize anchor factor self)).

(** *** Sync *)

(** C4 as stated: the call ends with an error class of the program's own. *)
Definition reports_own_error (m : effect) : Prop :=
  exists e, snd m = Some e /\ declared_by_program e = true.

(** *** Document parsing *)

(** The defects of a block that C6 names: fewer than two lines, a first
    line that [int] rejects, or a part of the timestamp line that
    [Timecode] rejects. *)
Definition block_defect (each : string) : Prop :=
  let lines := split nl each in
  (List.length lines < 2)%nat \/
  (exists e, py_int (hd "" lines) = Err e) \/
  (exists p e, In p (split "-->" (nth 1 lines "")) /\
               Timecode_init (VStr (strip p)) = Err e).

(** The exceptions document parsing ends with. *)
Definition parse_error_class (e : exn) : Prop :=
  e = IndexError \/ e = ValueError \/ e = InvalidTimestringException.

(** C6 as stated: parsing ends with an error class of the program's own. *)
Definition reports_own_parse_error (rawdata : string) : Prop :=
  exists e, SubRip_init rawdata = Err e /\ declared_by_program e = true.

(** A computation raises only exceptions that satisfy [P]. *)
Definition raises_only {A : Type} (P : exn -> Prop) (m : result A) : Prop :=
  forall e, m = Err e -> P e.

(** *** The round trip of a document *)

(** [c] occurs neither twice in a row in [s] nor at its end. *)
Fixpoint no_double (c : ascii) (s : string) : bool :=
  match s with
  | EmptyString => true
  | String a s' =>
      ((if ascii_eqb a c
        then match s' with
             | EmptyString => false
             | String b _ => negb (ascii_eqb b c)
             end
        else true)
       && no_double c s')%bool
  end.

Definition starts_with (p : ascii -> bool) (s : string) : bool :=
  match s with
  | EmptyString => false
  | String a _ => p a
  end.

Fixpoint ends_with (p : ascii -> bool) (s : string) : bool :=
  match s with
  | EmptyString => false
  | String a EmptyString => p a
  | String _ s' => ends_with p s'
  end.

(** A text of one or more lines, none of them empty, without carriage
    returns. *)
Definition lines_ok (t : string) : bool :=
  (starts_with (isnt LF) t && no_double LF t && string_forall (isnt CR) t)%bool.

(** The text of the last subtitle: empty, or lines as above that do not end
    in whitespace. *)
Definition last_text_ok (t : string) : bool :=
  match t with
  | EmptyString => true
  | _ => (lines_ok t && ends_with not_space t)%bool
  end.

(** Both timecodes are within one hundred hours of zero. *)
Definition times_ok (each : entry) : bool :=
  ((- hundred_hours <? ms (start each)) && (ms (start each) <? hundred_hours)
   && (- hundred_hours <? ms (end_ each)) && (ms (end_ each) <? hundred_hours))%bool.

(** The documents that survive serialization followed by parsing. *)
Fixpoint roundtrips (d : SubRip) : bool :=
  match d with
  | [] => false
  | each :: rest =>
      match rest with
      | [] => (times_ok each && last_text_ok (text each))%bool
      | _ => (times_ok each && lines_ok (text each) && roundtrips rest)%bool
      end
  end.

(** The timestamp line of a subtitle. *)
Definition time_line (each : entry) : string :=
  Timecode_str (start each) ++ " --> " ++ Timecode_str (end_ each).

(** The block a subtitle is parsed from: [render] without the line break
    that an empty text leaves at the end. *)
Definition block_of (each : entry) : string :=
  str_of_int (index each) ++ nl ++ time_line each ++
    match text each with
    | EmptyString => ""
    | t => nl ++ t
    end.

(** C3 as stated, for one document. *)
Definition reparsed (d : SubRip) : Prop :=
  SubRip_init (SubRip_str d) = OK d.

(** * The commands of class SRT *)

(** What ends a command early: an exception of [exn], or Python's
    UnboundLocalError when a local name is read before it is assigned. *)
Inductive crash : Type :=
| Raised (e : exn)
| UnboundLocalError.

Definition set_text (t : string) (e : entry) : entry :=
  mkEntry (index e) (start e) (end_ e) t.

(** [s.replace("", new)]: [new] before every character and at the end. *)
Fixpoint interleave (new s : string) : string :=
  match s with
  | EmptyString => new
  | String c s' => new ++ String c (interleave new s')
  end.

(** [s.replace(old, new)] for any [old]. *)
Definition str_replace (old new s : string) : string :=
  match old with
  | EmptyString => interleave new s
  | _ => replace old new s
  end.

(** The loop that ends [shiftby], [shift], [stretch], [reindex] and
    [replace] (lines 236-244 and its copies): each file is parsed, changed
    by [op] and written back before the next one is read.  [files] holds the
    contents of the files, and the result is their contents after the
    command with the exception that ended it. *)
Fixpoint for_each_file (op : SubRip -> effect) (files : list string)
  : list string * option exn :=
  match files with
  | [] => ([], None)
  | file :: rest =>
      match SubRip_init file with
      | Err e => (file :: rest, Some e)
      | OK subs =>
          match op subs with
          | (_, Some e) => (file :: rest, Some e)
          | (subs, None) =>
              let '(rest', o) := for_each_file op rest in
              (SubRip_str subs :: rest', o)
          end
      end
  end.

(** The option loop of [SRT.shiftby] (lines 225-231) over the pairs that
    [getopt] returned. *)
Fixpoint shiftby_options (by_ : option Timecode) (opts : list (string * string))
  : result (option Timecode) :=
  match opts with
  | [] => OK by_
  | (option, value) :: rest =>
      if String.eqb option "--by" then
        match Timecode_init (VStr value) with
        | OK t => shiftby_options (Some t) rest
        | Err _ => Err (Usage "Invalid duration to shift by.")
        end
      else shiftby_options by_ rest
  end.

(** [SRT.shiftby] (lines 225-244) from the options and files of [getopt]. *)
Definition SRT_shiftby (opts : list (string * string)) (files : list string)
  : list string * option exn :=
  match shiftby_options None opts with
  | Err e => (files, Some e)
  | OK None => (files, Some (Usage "Duration to shift by must be specified."))
  | OK (Some by_) => for_each_file (shift_time_by (VTimecode by_)) files
  end.

(** The option loop of [SRT.shift] (lines 258-268); [None] is a name not
    yet assigned. *)
Fixpoint shift_options (target to : option Timecode) (opts : list (string * string))
  : result (option Timecode * option Timecode) :=
  match opts with
  | [] => OK (target, to)
  | (option, value) :: rest =>
      target <-
        (if String.eqb option "--target" then
           match Timecode_init (VStr value) with
           | OK t => OK (Some t)
           | Err _ => Err (Usage "Invalid target timecode.")
           end
         else OK target) ;;
      to <-
        (if String.eqb option "--to" then
           match Timecode_init (VStr value) with
           | OK t => OK (Some t)
           | Err _ =>
               Err (Usage "Invalid timecode to which the target is shifted.")
           end
         else OK to) ;;
      shift_options target to rest
  end.

Definition raised (r : list string * option exn) : list string * option crash :=
  (fst r, option_map Raised (snd r)).

(** [SRT.shift] (lines 258-285).  [target] and [to] are not initialized, so
    the tests of lines 270 and 272 read an unassigned name when the option
    was not given. *)
Definition SRT_shift (opts : list (string * string)) (files : list string)
  : list string * option crash :=
  match shift_options None None opts with
  | Err e => (files, Some (Raised e))
  | OK (None, _) => (files, Some UnboundLocalError)
  | OK (Some _, None) => (files, Some UnboundLocalError)
  | OK (Some target, Some to) =>
      match Timecode_sub to (VTimecode target) with
      | Err e => (files, Some (Raised e))
      | OK by_ => raised (for_each_file (shift_time_by (VTimecode by_)) files)
      end
  end.

(** The option loop of [SRT.stretch] (lines 331-342); [py_float] is the
    built-in [float] on strings. *)
Fixpoint stretch_options (py_float : string -> result float)
  (factor : option float) (anchor : option Timecode)
  (opts : list (string * string)) : result (option float * option Timecode) :=
  match opts with
  | [] => OK (factor, anchor)
  | (option, value) :: rest =>
      factor <-
        (if String.eqb option "--factor" then
           match py_float value with
           | OK f => OK (Some f)
           | Err _ => Err (Usage "Invalid factor to multiply by.")
           end
         else OK factor) ;;
      anchor <-
        (if String.eqb option "--anchor" then
           match Timecode_init (VStr value) with
           | OK t => OK (Some t)
           | Err _ => Err (Usage "Invalid anchor to base on.")
           end
         else OK anchor) ;;
      stretch_options py_float factor anchor rest
  end.

(** The default of lines 346-347 and 396-397. *)
Definition anchor_or_default (anchor : option Timecode) : result Timecode :=
  match anchor with
  | None => Timecode_init (VStr "00:00:00,000")
  | Some a => OK a
  end.

(** [SRT.stretch] (lines 331-357). *)
Definition SRT_stretch (py_float : string -> result float)
  (opts : list (string * string)) (files : list string)
  : list string * option exn :=
  match stretch_options py_float None None opts with
  | Err e => (files, Some e)
  | OK (None, _) => (files, Some (Usage "Factor to multiply by must be specified."))
  | OK (Some factor, anchor) =>
      match anchor_or_default anchor with
      | Err e => (files, Some e)
      | OK anchor => for_each_file (resize anchor factor) files
      end
  end.

(** [SRT.reindex] (lines 419-427). *)
Definition SRT_reindex (files : list string) : list string * option exn :=
  for_each_file reindex files.

(** The option loop of [SRT.replace] (lines 441-446). *)
Fixpoint replace_options (find replace_with : option string)
  (opts : list (string * string)) : option string * option string :=
  match opts with
  | [] => (find, replace_with)
  | (option, value) :: rest =>
      let find := if String.eqb option "--find" then Some value else find in
      let replace_with :=
        if String.eqb option "--replace-with" then Some value else replace_with in
      replace_options find replace_with rest
  end.

(** The loop of lines 453-454 on one document. *)
Definition replace_text (find replace_with : string) (self : SubRip) : effect :=
  for_each
    (fun sub => (set_text (str_replace find replace_with (text sub)) sub, None))
    self.

(** [SRT.replace] (lines 441-461). *)
Definition SRT_replace (opts : list (string * string)) (files : list string)
  : list string * option exn :=
  match replace_options None None opts with
  | (Some find, Some replace_with) =>
      for_each_file (replace_text find replace_with) files
  | _ =>
      (files,
       Some (Usage "Both the string to search for and the string to replace with must be specified."))
  end.

(** The keys of [SRT.aliases] (lines 176-186). *)
Definition alias_names : list string :=
  ["shift"; "shiftby"; "merge"; "reindex"; "stretch"; "squeeze"; "sync";
   "replace"; "version"; "help"; "h"; "?"].

(** One round of lines 484-485. *)
Definition strip_dash (subcommand : string) : result string :=
  c <- str_get0 subcommand ;;
  OK (if ascii_eqb c "-" then str_tail subcommand else subcommand).

Definition unrecognized : exn :=
  Usage ("Unrecognized subcommand. " ++ nl ++ "Type '#{name} help' for usage.").

(** The subcommand [main] dispatches on (lines 478-488). *)
Definition subcommand_of (argv : list string) : result string :=
  let argv := if Nat.ltb (List.length argv) 2 then (argv ++ ["help"])%list else argv in
  subcommand <- list_get argv 1 ;;
  subcommand <- strip_dash subcommand ;;
  subcommand <- strip_dash subcommand ;;
  if existsb (String.eqb subcommand) alias_names
  then OK subcommand
  else Err unrecognized.

(** * Vocabulary of the further statements *)

(** [s] with every line break turned into carriage return and line
    break. *)
Fixpoint to_crlf (s : string) : string :=
  match s with
  | EmptyString => ""
  | String c s' =>
      if ascii_eqb c LF then String CR (String LF (to_crlf s'))
      else String c (to_crlf s')
  end.

(** Whitespace that does not break a line. *)
Definition is_pad (a : ascii) : bool := (is_space a && isnt LF a)%bool.

(** The float [2^j], for [j] in the range of normal numbers. *)
Definition pow2_float (j : Z) : float :=
  S754_finite false 4503599627370496 (j - 52).

(** [n] times [2^j], truncated toward zero. *)
Definition times_pow2 (j n : Z) : Z :=
  if 0 <=? j then n * 2 ^ j else Z.quot n (2 ^ (- j)).

(** A subtitle whose timecodes [t] have become [g (t - anchor) + anchor]. *)
Definition rescaled (anchor : Z) (g : Z -> Z) (each : entry) : entry :=
  mkEntry (index each)
    (mkTimecode (g (ms (start each) - anchor) + anchor))
    (mkTimecode (g (ms (end_ each) - anchor) + anchor))
    (text each).

(** A subtitle with both timecodes scaled by [2^j] about [anchor]. *)
Definition scaled_about (anchor j : Z) (each : entry) : entry :=
  rescaled anchor (times_pow2 j) each.

(** Both timecodes are within [2^53] milliseconds of [anchor]. *)
Definition near (anchor : Z) (each : entry) : Prop :=
  Z.abs (ms (start each) - anchor) < 2 ^ 53 /\
  Z.abs (ms (end_ each) - anchor) < 2 ^ 53.

(** [Timecode.__init__] from line 20 on: the timestring without its sign,
    and the sign. *)
Definition Timecode_fields (time : string) (sign : Z) : result Timecode :=
  let length := String.length time in
  '(hours, minutes, seconds) <-
    (if Nat.eqb length 12 then
       unpack3 (split ":" time)
     else if Nat.eqb length 9 then
       '(minutes, seconds) <- unpack2 (split ":" time) ;;
       OK ("0", minutes, seconds)
     else if Nat.eqb length 6 then
       OK ("0", "0", time)
     else if Nat.eqb length 5 then
       '(minutes, seconds) <- unpack2 (split ":" time) ;;
       OK ("0", minutes, seconds ++ ",000")
     else if (Nat.leb length 3 && Nat.ltb 0 length)%bool then
       OK ("0", "0", "0," ++ time)
     else Err InvalidTimestringException) ;;
  '(seconds, milliseconds) <- unpack2 (split "," seconds) ;;
  s <- py_int seconds ;;
  m <- py_int minutes ;;
  h <- py_int hours ;;
  x <- py_int milliseconds ;;
  OK (mkTimecode ((0 + s * 1000 + m * 1000 * 60 + h * 1000 * 60 * 60 + x) * sign)).

(** The exceptions of the timecode parser on a non-empty string. *)
Definition value_or_timestring (e : exn) : Prop :=
  e = ValueError \/ e = InvalidTimestringException.

(** The values given for the option [name], in the order of the command
    line. *)
Definition option_values (name : string) (opts : list (string * string))
  : list string :=
  map snd (filter (fun p => String.eqb (fst p) name) opts).

(** The last of the values, or [default] when there is none. *)
Definition last_value {A : Type} (values : list A) (default : option A) : option A :=
  last (map Some values) default.

(** A file parses and [op] returns normally on it. *)
Definition file_ok (op : SubRip -> effect) (file : string) : Prop :=
  exists subs subs', SubRip_init file = OK subs /\ op subs = (subs', None).

(** A file does not parse, or [op] raises on it. *)
Definition file_fails (op : SubRip -> effect) (file : string) (e : exn) : Prop :=
  SubRip_init file = Err e \/
  exists subs subs', SubRip_init file = OK subs /\ op subs = (subs', Some e).

(** What the loop writes to a file it gets through. *)
Definition rewritten (op : SubRip -> effect) (file : string) : string :=
  match SubRip_init file with
  | OK subs => SubRip_str (fst (op subs))
  | Err _ => file
  end.

(** * Properties *)

(** ** Strings *)

Lemma append_nil_r (s : string) : s ++ "" = s.
Proof. induction s; simpl; congruence. Qed.

Lemma append_assoc (a b c : string) : (a ++ b) ++ c = a ++ (b ++ c).
Proof. induction a; simpl; congruence. Qed.

Lemma length_append (a b : string) :
  String.length (a ++ b) = (String.length a + String.length b)%nat.
Proof. induction a; simpl; congruence. Qed.

Lemma string_forall_app p a b :
  string_forall p (a ++ b) = (string_forall p a && string_forall p b)%bool.
Proof.
  induction a as [|c a IH]; simpl; [reflexivity|].
  now rewrite IH, andb_assoc.
Qed.

Lemma string_forall_impl (p q : ascii -> bool) s :
  (forall a, p a = true -> q a = true) ->
  string_forall p s = true -> string_forall q s = true.
Proof.
  intros Hpq. induction s as [|c s IH]; simpl; [reflexivity|].
  rewrite !andb_true_iff. intros [H1 H2]. auto.
Qed.

Lemma ascii_cases (P : ascii -> Prop) :
  (forall n, (n < 256)%nat -> P (ascii_of_nat n)) -> forall a, P a.
Proof.
  intros H a. rewrite <- (ascii_nat_embedding a). apply H, nat_ascii_bounded.
Qed.

(** A decidable property of characters holds of all of them when it holds
    of the 256 codes. *)
Lemma ascii_forall (f : ascii -> bool) :
  forallb (fun n => f (ascii_of_nat n)) (seq 0 256) = true ->
  forall a, f a = true.
Proof.
  intros H. apply ascii_cases. intros n Hn.
  rewrite forallb_forall in H. apply H, in_seq. lia.
Qed.

Lemma digit_isnt c :
  is_digit c = false -> forall a, is_digit a = true -> isnt c a = true.
Proof.
  intros Hc a Ha. unfold isnt, ascii_eqb.
  destruct (Ascii.eqb_spec a c) as [->|]; [congruence|reflexivity].
Qed.

Lemma digit_not_space a : is_digit a = true -> not_space a = true.
Proof.
  intros Hd.
  assert (H : implb (is_digit a) (not_space a) = true)
    by (clear Hd; revert a; apply ascii_forall; vm_compute; reflexivity).
  now rewrite Hd in H.
Qed.

Lemma time_char_not_space a : is_time_char a = true -> not_space a = true.
Proof.
  intros Hd.
  assert (H : implb (is_time_char a) (not_space a) = true)
    by (clear Hd; revert a; apply ascii_forall; vm_compute; reflexivity).
  now rewrite Hd in H.
Qed.

Lemma time_char_isnt c :
  is_time_char c = false -> forall a, is_time_char a = true -> isnt c a = true.
Proof.
  intros Hc a Ha. unfold isnt, ascii_eqb.
  destruct (Ascii.eqb_spec a c) as [->|]; [congruence|reflexivity].
Qed.

Lemma digit_time_char a : is_digit a = true -> is_time_char a = true.
Proof. intros H. unfold is_time_char. now rewrite H. Qed.

(** *** [split] on a one-character separator *)

Lemma split1_cons c a s :
  split (String c "") (String a s) =
  if ascii_eqb c a then "" :: split (String c "") s
  else cons_head a (split (String c "") s).
Proof.
  unfold split, ascii_eqb. simpl.
  destruct (Ascii.ascii_dec c a) as [->|Hne].
  - rewrite Ascii.eqb_refl. now destruct s.
  - apply Ascii.eqb_neq in Hne. now rewrite Hne.
Qed.

Lemma isnt_eqb c a : isnt c a = true -> ascii_eqb c a = false.
Proof.
  unfold isnt, ascii_eqb. rewrite negb_true_iff, Ascii.eqb_sym. auto.
Qed.

Lemma split1_none c s :
  string_forall (isnt c) s = true -> split (String c "") s = [s].
Proof.
  induction s as [|a s IH]; [reflexivity|].
  simpl. rewrite andb_true_iff. intros [Ha Hs].
  rewrite split1_cons, (isnt_eqb _ _ Ha), (IH Hs). reflexivity.
Qed.

Lemma split1_app c s1 s2 :
  string_forall (isnt c) s1 = true ->
  split (String c "") (s1 ++ String c s2) = s1 :: split (String c "") s2.
Proof.
  induction s1 as [|a s1 IH]; simpl.
  - intros _. rewrite split1_cons. unfold ascii_eqb. now rewrite Ascii.eqb_refl.
  - rewrite andb_true_iff. intros [Ha Hs].
    rewrite split1_cons, (isnt_eqb _ _ Ha), (IH Hs). reflexivity.
Qed.

Lemma split1_nonempty c s : split (String c "") s <> [].
Proof.
  induction s as [|a s IH]; [discriminate|].
  rewrite split1_cons. destruct (ascii_eqb c a); [discriminate|].
  destruct (split (String c "") s); [congruence|discriminate].
Qed.

(** Joining what [split] produced gives the string back. *)
Lemma join_split1 c s : join (String c "") (split (String c "") s) = s.
Proof.
  unfold join. induction s as [|a s IH]; [reflexivity|].
  rewrite split1_cons. pose proof (split1_nonempty c s) as Hne.
  destruct (split (String c "") s) as [|w ws]; [congruence|].
  destruct (ascii_eqb c a) eqn:E.
  - apply Ascii.eqb_eq in E. subst a.
    change (concat (String c "") ("" :: w :: ws))
      with (String c (concat (String c "") (w :: ws))).
    now rewrite IH.
  - destruct ws as [|w' ws]; cbn [cons_head concat append] in *; now rewrite <- IH.
Qed.

(** *** [strip] *)

Lemma lstrip_id c s : not_space c = true -> lstrip (String c s) = String c s.
Proof. unfold not_space. rewrite negb_true_iff. simpl. now intros ->. Qed.

Lemma rstrip_app a b :
  rstrip b <> "" -> rstrip (a ++ b) = a ++ rstrip b.
Proof.
  intros Hb. induction a as [|c a IH]; simpl; [reflexivity|].
  rewrite IH. destruct (a ++ rstrip b) eqn:E; [|reflexivity].
  destruct a; simpl in E; [contradiction|discriminate].
Qed.

Lemma rstrip_id s : string_forall not_space s = true -> rstrip s = s.
Proof.
  induction s as [|c s IH]; simpl; [reflexivity|].
  rewrite andb_true_iff. unfold not_space at 1. rewrite negb_true_iff.
  intros [Hc Hs]. rewrite (IH Hs), Hc. now destruct s.
Qed.

Lemma rstrip_spaces s : string_forall is_space s = true -> rstrip s = "".
Proof.
  induction s as [|c s IH]; simpl; [reflexivity|].
  rewrite andb_true_iff. intros [Hc Hs]. now rewrite (IH Hs), Hc.
Qed.

Lemma strip_id s : string_forall not_space s = true -> strip s = s.
Proof.
  intros H. unfold strip. destruct s as [|c s]; [reflexivity|].
  simpl in H. pose proof H as H'. apply andb_true_iff in H' as [Hc _].
  rewrite (lstrip_id _ _ Hc). now apply rstrip_id.
Qed.

(** *** [replace] *)

Lemma replace_absent c old' new s :
  string_forall (isnt c) s = true -> replace (String c old') new s = s.
Proof.
  unfold replace. induction s as [|a s IH]; [reflexivity|].
  simpl. rewrite andb_true_iff. intros [Ha Hs].
  apply isnt_eqb in Ha. unfold ascii_eqb in Ha.
  destruct (Ascii.ascii_dec c a) as [->|Hne].
  - now rewrite Ascii.eqb_refl in Ha.
  - now rewrite (IH Hs).
Qed.

(** ** Integers and their decimal text *)

Lemma digits_val_digits s : forall acc n,
  digits_val acc s = Some n -> string_forall is_digit s = true.
Proof.
  induction s as [|c s IH]; simpl; [reflexivity|].
  intros acc n. unfold is_digit at 1.
  destruct (digit_of_ascii c); [|discriminate].
  intros H. now rewrite (IH _ _ H).
Qed.

Lemma digit_not_sign c :
  is_digit c = true -> ascii_eqb c "-" = false /\ ascii_eqb c "+" = false.
Proof.
  intros H. split.
  - apply negb_true_iff. now apply (digit_isnt "-").
  - apply negb_true_iff. now apply (digit_isnt "+").
Qed.

Lemma py_int_digits s n :
  s <> "" -> digits_val 0 s = Some n -> py_int s = OK n.
Proof.
  intros Hne Hv. pose proof (digits_val_digits _ _ _ Hv) as Hd.
  unfold py_int.
  rewrite strip_id by (eapply string_forall_impl; [apply digit_not_space|exact Hd]).
  destruct s as [|c r]; [contradiction|].
  simpl in Hd. apply andb_true_iff in Hd as [Hc _].
  destruct (digit_not_sign _ Hc) as [-> ->]. now rewrite Hv.
Qed.

Lemma py_int_minus_digits s n :
  s <> "" -> digits_val 0 s = Some n -> py_int (String "-" s) = OK (- n).
Proof.
  intros Hne Hv. pose proof (digits_val_digits _ _ _ Hv) as Hd.
  unfold py_int.
  rewrite strip_id.
  - change (ascii_eqb "-" "-") with true. cbv iota beta.
    destruct s; [contradiction|]. now rewrite Hv.
  - simpl. eapply string_forall_impl; [apply digit_not_space|exact Hd].
Qed.

Lemma digits_val_uint_acc u : forall acc,
  digits_val (Zpos acc) (NilEmpty.string_of_uint u) = Some (Zpos (Pos.of_uint_acc u acc)).
Proof.
  induction u; intros acc; cbn [NilEmpty.string_of_uint Pos.of_uint_acc digits_val];
    [reflexivity|..];
    (match goal with
     | |- context [digit_of_ascii ?c] =>
         let d := eval vm_compute in (digit_of_ascii c) in
         change (digit_of_ascii c) with d
     end; cbv iota beta; rewrite <- IHu; f_equal; lia).
Qed.

Lemma digits_val_uint u :
  digits_val 0 (NilEmpty.string_of_uint u) = Some (Z.of_uint u).
Proof.
  unfold Z.of_uint.
  induction u; cbn [NilEmpty.string_of_uint Pos.of_uint digits_val];
    [reflexivity|..];
    (match goal with
     | |- context [digit_of_ascii ?c] =>
         let d := eval vm_compute in (digit_of_ascii c) in
         change (digit_of_ascii c) with d
     end; cbv iota beta; first [exact IHu | apply (digits_val_uint_acc u)]).
Qed.

Lemma digits_val_uint_zero u :
  digits_val 0 (NilZero.string_of_uint u) = Some (Z.of_uint u) /\
  NilZero.string_of_uint u <> "".
Proof.
  destruct u; try (split; [apply (digits_val_uint (_ u)) | discriminate]).
  split; [reflexivity|discriminate].
Qed.

(** [int(str(n), 10) == n]. *)
Lemma py_int_str_of_int n : py_int (str_of_int n) = OK n.
Proof.
  unfold str_of_int. rewrite <- (DecimalZ.of_to n) at 2.
  destruct (Z.to_int n) as [u|u]; simpl NilZero.string_of_int; simpl Z.of_int.
  - destruct (digits_val_uint_zero u). now apply py_int_digits.
  - destruct (digits_val_uint_zero u). now apply py_int_minus_digits.
Qed.

Lemma str_of_int_chars n :
  string_forall is_time_char (str_of_int n) = true /\ str_of_int n <> "".
Proof.
  unfold str_of_int.
  destruct (Z.to_int n) as [u|u]; simpl NilZero.string_of_int;
    destruct (digits_val_uint_zero u) as [Hv Hne].
  - split; [|assumption].
    eapply string_forall_impl; [apply digit_time_char|].
    eapply digits_val_digits; eassumption.
  - split; [|discriminate]. simpl.
    eapply string_forall_impl; [apply digit_time_char|].
    eapply digits_val_digits; eassumption.
Qed.

(** ** Timecodes *)

Lemma below_forall (f : Z -> bool) (n : nat) :
  forallb (fun k => f (Z.of_nat k)) (seq 0 n) = true ->
  forall z, 0 <= z < Z.of_nat n -> f z = true.
Proof.
  intros H z Hz. rewrite forallb_forall in H.
  rewrite <- (Z2Nat.id z) by lia. apply H, in_seq. lia.
Qed.

Lemma fmt_d_2 z : 0 <= z < 100 -> field 2 z (fmt_d 2 z) = true.
Proof.
  apply (below_forall (fun z => field 2 z (fmt_d 2 z)) 100).
  vm_compute. reflexivity.
Qed.

Lemma fmt_d_3 z : 0 <= z < 1000 -> field 3 z (fmt_d 3 z) = true.
Proof.
  apply (below_forall (fun z => field 3 z (fmt_d 3 z)) 1000).
  vm_compute. reflexivity.
Qed.

Lemma field_spec width v s :
  field width v s = true ->
  String.length s = width /\ string_forall is_digit s = true /\
  digits_val 0 s = Some v.
Proof.
  unfold field. rewrite !andb_true_iff.
  intros [[Hl Hd] Hv]. apply Nat.eqb_eq in Hl.
  destruct (digits_val 0 s); [|discriminate].
  apply Z.eqb_eq in Hv. subst. auto.
Qed.

Lemma field_py_int width v s :
  field (S width) v s = true -> py_int s = OK v.
Proof.
  intros H. apply field_spec in H as (Hl & _ & Hv).
  apply py_int_digits; [|assumption]. now destruct s.
Qed.

Lemma field_isnt c width v s :
  is_digit c = false -> field width v s = true ->
  string_forall (isnt c) s = true.
Proof.
  intros Hc H. apply field_spec in H as (_ & Hd & _).
  eapply string_forall_impl; [apply (digit_isnt c Hc)|exact Hd].
Qed.

(** A twelve-character timestring [HH:MM:SS,mmm], with or without a sign,
    parses to the millisecond count its fields denote. *)
Lemma Timecode_init_fields H M S X h m s x :
  field 2 h H = true -> field 2 m M = true ->
  field 2 s S = true -> field 3 x X = true ->
  let body := H ++ ":" ++ M ++ ":" ++ S ++ "," ++ X in
  let total := ((h * 60 + m) * 60 + s) * 1000 + x in
  Timecode_init (VStr body) = OK (mkTimecode total) /\
  Timecode_init (VStr (String "-" body)) = OK (mkTimecode (- total)).
Proof.
  intros FH FM FS FX body total.
  assert (Hlen : String.length body = 12%nat).
  { unfold body. rewrite !length_append.
    apply field_spec in FH as (-> & _), FM as (-> & _), FS as (-> & _),
      FX as (-> & _). reflexivity. }
  assert (Hparts : split ":" body = [H; M; S ++ "," ++ X]).
  { unfold body. cbn [append].
    rewrite split1_app by (eapply field_isnt; [reflexivity|eassumption]).
    rewrite split1_app by (eapply field_isnt; [reflexivity|eassumption]).
    rewrite split1_none; [reflexivity|].
    rewrite string_forall_app. apply andb_true_iff. split.
    - eapply field_isnt; [reflexivity|eassumption].
    - cbn [string_forall]. rewrite andb_true_iff. split; [reflexivity|].
      eapply field_isnt; [reflexivity|eassumption]. }
  assert (Hsec : split "," (S ++ "," ++ X) = [S; X]).
  { cbn [append].
    rewrite split1_app by (eapply field_isnt; [reflexivity|eassumption]).
    rewrite split1_none; [reflexivity|].
    eapply field_isnt; [reflexivity|eassumption]. }
  assert (Hrest : forall sign,
    ('(hours, minutes, seconds) <- unpack3 (split ":" body) ;;
     '(seconds, milliseconds) <- unpack2 (split "," seconds) ;;
     s <- py_int seconds ;;
     m <- py_int minutes ;;
     h <- py_int hours ;;
     x <- py_int milliseconds ;;
     OK (mkTimecode ((0 + s * 1000 + m * 1000 * 60 + h * 1000 * 60 * 60 + x) * sign)))
    = OK (mkTimecode (total * sign))).
  { intros sign. rewrite Hparts. cbn [unpack3 bind]. rewrite Hsec. cbn [unpack2 bind].
    rewrite (field_py_int _ _ _ FS), (field_py_int _ _ _ FM),
      (field_py_int _ _ _ FH), (field_py_int _ _ _ FX).
    cbn [bind]. do 2 f_equal. unfold total. lia. }
  split.
  - unfold Timecode_init.
    destruct body as [|c r] eqn:Eb; [discriminate|].
    assert (Hc : ascii_eqb c "-" = false).
    { apply field_spec in FH as (Hl & Hd & _).
      destruct H as [|c' H']; [discriminate|].
      unfold body in Eb. simpl in Eb. injection Eb as -> _.
      simpl in Hd. apply andb_true_iff in Hd as [Hd _].
      now apply digit_not_sign. }
    cbn [str_get0 bind]. rewrite Hc. cbv iota beta zeta.
    rewrite Hlen. cbn [Nat.eqb]. rewrite Hrest. do 2 f_equal. lia.
  - unfold Timecode_init. cbn [str_get0 bind].
    change (ascii_eqb "-" "-") with true. cbv iota beta zeta. cbn [str_tail].
    rewrite Hlen. cbn [Nat.eqb]. rewrite Hrest. do 2 f_equal. lia.
Qed.

Lemma stringify_fields t :
  0 <= t < hundred_hours ->
  exists H M S X,
    field 2 (t / 1000 / 60 / 60) H = true /\
    field 2 ((t / 1000 / 60) mod 60) M = true /\
    field 2 ((t / 1000) mod 60) S = true /\
    field 3 (t mod 1000) X = true /\
    stringify t = H ++ ":" ++ M ++ ":" ++ S ++ "," ++ X /\
    (0 < t -> stringify (- t) = String "-" (H ++ ":" ++ M ++ ":" ++ S ++ "," ++ X)).
Proof.
  unfold hundred_hours. intros Ht.
  exists (fmt_d 2 (t / 1000 / 60 / 60)), (fmt_d 2 ((t / 1000 / 60) mod 60)),
    (fmt_d 2 ((t / 1000) mod 60)), (fmt_d 3 (t mod 1000)).
  repeat split.
  - apply fmt_d_2. Z.div_mod_to_equations. lia.
  - apply fmt_d_2. Z.div_mod_to_equations. lia.
  - apply fmt_d_2. Z.div_mod_to_equations. lia.
  - apply fmt_d_3. Z.div_mod_to_equations. lia.
  - unfold stringify. destruct (t <? 0) eqn:E; [lia|]. reflexivity.
  - intros Hpos. unfold stringify. destruct (- t <? 0) eqn:E; [|lia].
    rewrite Z.opp_involutive. reflexivity.
Qed.

(** Below one hundred hours, in either direction, the text of a timecode
    parses back to it. *)
Lemma Timecode_init_stringify m :
  - hundred_hours < m < hundred_hours -> reparses m.
Proof.
  intros Hm. unfold reparses.
  destruct (Z_lt_le_dec m 0) as [Hneg|Hpos].
  - destruct (stringify_fields (- m)) as (H & M & S & X & FH & FM & FS & FX & _ & E);
      [lia|].
    rewrite Z.opp_involutive in E. rewrite E by lia.
    destruct (Timecode_init_fields _ _ _ _ _ _ _ _ FH FM FS FX) as [_ ->].
    do 2 f_equal. Z.div_mod_to_equations. lia.
  - destruct (stringify_fields m) as (H & M & S & X & FH & FM & FS & FX & E & _);
      [lia|].
    rewrite E.
    destruct (Timecode_init_fields _ _ _ _ _ _ _ _ FH FM FS FX) as [-> _].
    do 2 f_equal. Z.div_mod_to_equations. lia.
Qed.

(** C2 (as amended): for every millisecond count [m] with
    [0 <= m < 360000000] (less than one hundred hours), [Timecode(m)] is
    built, and parsing its text [stringify(m)] succeeds and gives a Timecode
    with the same [ms]. *)
Theorem Timecode_roundtrip_below_hundred_hours (m : Z) :
  0 <= m < 360000000 ->
  Timecode_init (VInt m) = OK (mkTimecode m) /\
  Timecode_init (VStr (Timecode_str (mkTimecode m))) = OK (mkTimecode m).
Proof.
  intros Hm. split; [reflexivity|].
  apply Timecode_init_stringify. unfold hundred_hours. lia.
Qed.

Lemma Timecode_roundtrip_below_hundred_hours_witness :
  Timecode_init (VInt 3723004) = OK (mkTimecode 3723004) /\
  Timecode_init (VStr (Timecode_str (mkTimecode 3723004))) = OK (mkTimecode 3723004).
Proof. apply (Timecode_roundtrip_below_hundred_hours 3723004). lia. Defined.

(** C2 (as stated) fails at one hundred hours: [stringify(360000000)] is
    the thirteen-character text [100:00:00,000], which the parser rejects
    by its length. *)
Lemma Timecode_roundtrip_fails_at_hundred_hours :
  0 <= 360000000 /\
  stringify 360000000 = "100:00:00,000" /\
  Timecode_init (VStr (stringify 360000000)) = Err InvalidTimestringException /\
  ~ reparses 360000000.
Proof.
  split; [lia|]. split; [reflexivity|]. split; [reflexivity|].
  unfold reparses. vm_compute. discriminate.
Qed.

Lemma digit_of_ascii_range c d : digit_of_ascii c = Some d -> 0 <= d <= 9.
Proof.
  unfold digit_of_ascii.
  destruct (Nat.leb 48 (nat_of_ascii c)) eqn:E1; [|discriminate].
  destruct (Nat.leb (nat_of_ascii c) 57) eqn:E2; [|discriminate].
  apply Nat.leb_le in E1, E2. simpl. intros [= <-]. lia.
Qed.

Lemma digits_val_range s : forall acc n,
  digits_val acc s = Some n -> 0 <= acc ->
  acc * 10 ^ Z.of_nat (String.length s) <= n
    < (acc + 1) * 10 ^ Z.of_nat (String.length s).
Proof.
  induction s as [|c s IH]; intros acc n.
  - simpl. intros [= <-] _. lia.
  - cbn [digits_val String.length].
    destruct (digit_of_ascii c) as [d|] eqn:E; [|discriminate].
    apply digit_of_ascii_range in E. intros H Hacc.
    apply IH in H; [|lia].
    rewrite Nat2Z.inj_succ, Z.pow_succ_r by lia. nia.
Qed.

Lemma digits_val_total s : forall acc,
  string_forall is_digit s = true -> exists n, digits_val acc s = Some n.
Proof.
  induction s as [|c s IH]; intros acc; simpl.
  - eauto.
  - unfold is_digit at 1. destruct (digit_of_ascii c); [|discriminate].
    intros H. now apply IH.
Qed.

(** A timestring of one to three digits is taken as the milliseconds field
    (line 34 builds ["0," + time]). *)
Lemma Timecode_init_short t n :
  (1 <= String.length t <= 3)%nat -> digits_val 0 t = Some n ->
  Timecode_init (VStr t) = OK (mkTimecode n) /\
  Timecode_init (VStr (String "-" t)) = OK (mkTimecode (- n)).
Proof.
  intros Hlen Hv. pose proof (digits_val_digits _ _ _ Hv) as Hd.
  assert (Hne : t <> "") by (destruct t; [simpl in Hlen; lia|discriminate]).
  assert (Hsec : split "," ("0," ++ t) = ["0"; t]).
  { change ("0," ++ t) with ("0" ++ String "," t).
    rewrite split1_app by reflexivity.
    rewrite split1_none; [reflexivity|].
    eapply string_forall_impl; [apply (digit_isnt ","); reflexivity|exact Hd]. }
  assert (Hrest : forall sign,
    ('(hours, minutes, seconds) <-
        (if Nat.eqb (String.length t) 12 then
           unpack3 (split ":" t)
         else if Nat.eqb (String.length t) 9 then
           '(minutes, seconds) <- unpack2 (split ":" t) ;;
           OK ("0", minutes, seconds)
         else if Nat.eqb (String.length t) 6 then
           OK ("0", "0", t)
         else if Nat.eqb (String.length t) 5 then
           '(minutes, seconds) <- unpack2 (split ":" t) ;;
           OK ("0", minutes, seconds ++ ",000")
         else if (Nat.leb (String.length t) 3 && Nat.ltb 0 (String.length t))%bool then
           OK ("0", "0", "0," ++ t)
         else Err InvalidTimestringException) ;;
     '(seconds, milliseconds) <- unpack2 (split "," seconds) ;;
     s <- py_int seconds ;;
     m <- py_int minutes ;;
     h <- py_int hours ;;
     x <- py_int milliseconds ;;
     OK (mkTimecode ((0 + s * 1000 + m * 1000 * 60 + h * 1000 * 60 * 60 + x) * sign)))
    = OK (mkTimecode (n * sign))).
  { intros sign.
    destruct (String.length t) as [|[|[|[|k]]]]; try lia;
      cbn [Nat.eqb Nat.leb Nat.ltb andb bind]; rewrite Hsec; cbn [unpack2 bind];
      rewrite (py_int_digits t n Hne Hv);
      change (py_int "0") with (OK 0); cbn [bind]; do 2 f_equal; lia. }
  split.
  - unfold Timecode_init. destruct t as [|c r]; [contradiction|].
    assert (Hc : ascii_eqb c "-" = false).
    { simpl in Hd. apply andb_true_iff in Hd as [Hd _]. now apply digit_not_sign. }
    cbn [str_get0 bind]. rewrite Hc. cbv iota beta zeta.
    rewrite Hrest. do 2 f_equal. lia.
  - unfold Timecode_init. cbn [str_get0 bind].
    change (ascii_eqb "-" "-") with true. cbv iota beta zeta. cbn [str_tail].
    rewrite Hrest. do 2 f_equal. lia.
Qed.

(** C1 (as amended): a string of one, two or three digits, with or without
    a leading [-], parses to that number of MILLISECONDS, not seconds: its
    [ms] is the number the digits denote (negated under the sign), which is
    below 1000, so the seconds, minutes and hours are all 0. *)
Theorem Timecode_short_digits_are_milliseconds (t : string) :
  (1 <= String.length t <= 3)%nat ->
  string_forall is_digit t = true ->
  exists n,
    digits_val 0 t = Some n /\ 0 <= n < 1000 /\
    Timecode_init (VStr t) = OK (mkTimecode n) /\
    Timecode_init (VStr (String "-" t)) = OK (mkTimecode (- n)).
Proof.
  intros Hlen Hd.
  destruct (digits_val_total t 0 Hd) as [n Hv]. exists n.
  split; [assumption|]. split.
  - pose proof (digits_val_range _ _ _ Hv ltac:(lia)) as Hr.
    assert (10 ^ Z.of_nat (String.length t) <= 10 ^ 3)
      by (apply Z.pow_le_mono_r; lia).
    assert (0 < 10 ^ Z.of_nat (String.length t)) by (apply Z.pow_pos_nonneg; lia).
    lia.
  - now apply Timecode_init_short.
Qed.

Lemma Timecode_short_digits_are_milliseconds_witness :
  exists n,
    digits_val 0 "042" = Some n /\ 0 <= n < 1000 /\
    Timecode_init (VStr "042") = OK (mkTimecode n) /\
    Timecode_init (VStr "-042") = OK (mkTimecode (- n)).
Proof.
  apply (Timecode_short_digits_are_milliseconds "042"); [simpl; lia|reflexivity].
Defined.

(** C1 (as stated) fails: ["5"] is a one-digit string denoting 5, and
    [Timecode("5").ms] is 5, not 5000. *)
Lemma Timecode_short_digits_not_seconds :
  (1 <= String.length "5" <= 3)%nat /\ digits_val 0 "5" = Some 5 /\
  Timecode_init (VStr "5") = OK (mkTimecode 5) /\
  ~ reads_as_seconds "5" 5.
Proof.
  split; [simpl; lia|]. split; [reflexivity|]. split; [reflexivity|].
  intros [H _]. vm_compute in H. discriminate.
Qed.

(** Every non-empty timestring of a rejected length raises
    InvalidTimestringException. *)
Lemma Timecode_init_rejected_lengths (time : string) :
  time <> "" ->
  rejected_length (String.length (unsigned time)) = true ->
  Timecode_init (VStr time) = Err InvalidTimestringException.
Proof.
  intros Hne. destruct time as [|c r]; [contradiction|].
  unfold Timecode_init, unsigned. cbn [str_get0 bind].
  destruct (ascii_eqb c "-"); cbv iota beta zeta; cbn [str_tail];
    match goal with |- context [Nat.eqb ?n 12] => generalize n end;
    intros n Hn; unfold rejected_length in Hn;
    repeat (apply orb_true_iff in Hn as [Hn|Hn]);
    repeat match goal with
    | H : Nat.eqb _ _ = true |- _ => apply Nat.eqb_eq in H; subst n
    end; try reflexivity;
    apply Nat.ltb_lt in Hn;
    do 13 (destruct n as [|n]; [lia|]); reflexivity.
Qed.

(** C5: the empty timestring.  Line 14 reads [time[0]] before any length is
    looked at, so [Timecode("")] raises IndexError, not
    InvalidTimestringException, although zero is one of the rejected
    lengths. *)
Theorem Timecode_init_empty_string :
  rejected_length (String.length (unsigned "")) = true /\
  Timecode_init (VStr "") = Err IndexError /\
  Timecode_init (VStr "") <> Err InvalidTimestringException.
Proof. repeat split. discriminate. Qed.

(** ** Timecode arithmetic *)

(** C10: with an operand that is not a Timecode, [+], [-], [*] and [/] on a
    Timecode raise TypeError; between two Timecodes, [+] and [-] return a
    new Timecode whose [ms] is the exact sum or difference.  The embedded
    methods return a fresh value and have no access to their operands'
    attributes, as the source methods assign to none. *)
Theorem Timecode_arithmetic_checktype (t : Timecode) :
  (forall x : value, is_timecode x = false ->
     Timecode_add t x = Err TypeError /\ Timecode_sub t x = Err TypeError /\
     Timecode_mul t x = Err TypeError /\ Timecode_div t x = Err TypeError) /\
  (forall u : Timecode,
     Timecode_add t (VTimecode u) = OK (mkTimecode (ms t + ms u)) /\
     Timecode_sub t (VTimecode u) = OK (mkTimecode (ms t - ms u))).
Proof.
  split.
  - intros x Hx. destruct x; try discriminate; repeat split.
  - intros u. split; reflexivity.
Qed.

Lemma Timecode_arithmetic_checktype_witness :
  (Timecode_add (mkTimecode 1500) (VInt 2) = Err TypeError /\
   Timecode_sub (mkTimecode 1500) (VInt 2) = Err TypeError /\
   Timecode_mul (mkTimecode 1500) (VInt 2) = Err TypeError /\
   Timecode_div (mkTimecode 1500) (VInt 2) = Err TypeError) /\
  Timecode_add (mkTimecode 1500) (VTimecode (mkTimecode 700)) = OK (mkTimecode 2200).
Proof.
  destruct (Timecode_arithmetic_checktype (mkTimecode 1500)) as [H1 H2].
  split.
  - apply (H1 (VInt 2)). reflexivity.
  - apply (H2 (mkTimecode 700)).
Defined.

(** ** The engine's frame *)

Lemma for_each_frame {A : Type} (proj : entry -> A) body :
  (forall each, proj (fst (body each)) = proj each) ->
  forall self, map proj (fst (for_each body self)) = map proj self.
Proof.
  intros Hbody. induction self as [|each rest IH]; [reflexivity|].
  cbn [for_each]. specialize (Hbody each).
  destruct (body each) as [each' [e|]]; cbn [fst] in *.
  - cbn [map]. now rewrite Hbody.
  - destruct (for_each body rest) as [rest' o]. cbn [fst map] in *. congruence.
Qed.

Lemma and_then_frame {A : Type} (proj : entry -> A) (m : effect) k self :
  map proj (fst m) = map proj self ->
  (forall s, map proj (fst (k s)) = map proj s) ->
  map proj (fst (and_then m k)) = map proj self.
Proof.
  intros Hm Hk. destruct m as [s [e|]]; cbn [and_then fst] in *; [assumption|].
  now rewrite Hk.
Qed.

Lemma shift_time_body_frame time each :
  index (fst (shift_time_body time each)) = index each /\
  text (fst (shift_time_body time each)) = text each.
Proof.
  unfold shift_time_body.
  destruct (Timecode_add (start each) time); [|split; reflexivity].
  destruct (Timecode_add (end_ (set_start a each)) time); split; reflexivity.
Qed.

Lemma multiply_time_body_frame factor each :
  index (fst (multiply_time_body factor each)) = index each /\
  text (fst (multiply_time_body factor each)) = text each.
Proof.
  unfold multiply_time_body.
  destruct (n <- scale_ms (ms (start each)) factor ;; Timecode_init (VInt n));
    [|split; reflexivity].
  destruct (n <- scale_ms (ms (end_ (set_start a each))) factor ;; Timecode_init (VInt n));
    split; reflexivity.
Qed.

Lemma shift_time_by_frame time self :
  map index (fst (shift_time_by time self)) = map index self /\
  map text (fst (shift_time_by time self)) = map text self.
Proof.
  split; apply for_each_frame; intros each; apply shift_time_body_frame.
Qed.

Lemma multiply_time_by_frame factor self :
  map index (fst (multiply_time_by factor self)) = map index self /\
  map text (fst (multiply_time_by factor self)) = map text self.
Proof.
  split; apply for_each_frame; intros each; apply multiply_time_body_frame.
Qed.

Lemma resize_frame anchor factor self :
  map index (fst (resize anchor factor self)) = map index self /\
  map text (fst (resize anchor factor self)) = map text self.
Proof.
  unfold resize. cbn [Timecode_neg Timecode_init].
  split; (apply and_then_frame; [apply shift_time_by_frame|]; intros s;
          apply and_then_frame; [apply multiply_time_by_frame|]; intros s';
          apply shift_time_by_frame).
Qed.

Lemma update_at_frame {A : Type} (proj : entry -> A) f :
  (forall each, proj (f each) = proj each) ->
  forall self i, map proj (update_at i f self) = map proj self.
Proof.
  intros Hf. induction self as [|each rest IH]; intros i; [reflexivity|].
  destruct i; cbn [update_at map]; [now rewrite Hf|now rewrite IH].
Qed.

Lemma reindex_frame {A : Type} (proj : entry -> A) :
  (forall i each, proj (set_index i each) = proj each) ->
  forall self, map proj (fst (reindex self)) = map proj self.
Proof.
  intros Hp self. unfold reindex. cbn [fst].
  generalize (seq 0 (List.length self)). intros l. revert self.
  induction l as [|i l IH]; intros self; [reflexivity|].
  cbn [fold_left]. rewrite IH. apply update_at_frame. intros each. apply Hp.
Qed.

(** C9: the frame of the engine operations.  Whatever the arguments, and
    also when the call is interrupted by an exception, the document after
    [shift_time_by], [multiply_time_by] and [resize] has the same index and
    the same text at every position, and the document after
    [shift_index_by] and [reindex] has the same start, end and text at every
    position; in particular no operation adds, removes or reorders
    subtitles. *)
Theorem engine_operations_frame (self : SubRip) :
  (forall time,
     map index (fst (shift_time_by time self)) = map index self /\
     map text (fst (shift_time_by time self)) = map text self /\
     List.length (fst (shift_time_by time self)) = List.length self) /\
  (forall factor,
     map index (fst (multiply_time_by factor self)) = map index self /\
     map text (fst (multiply_time_by factor self)) = map text self /\
     List.length (fst (multiply_time_by factor self)) = List.length self) /\
  (forall anchor factor,
     map index (fst (resize anchor factor self)) = map index self /\
     map text (fst (resize anchor factor self)) = map text self /\
     List.length (fst (resize anchor factor self)) = List.length self) /\
  (forall n,
     map start (fst (shift_index_by n self)) = map start self /\
     map end_ (fst (shift_index_by n self)) = map end_ self /\
     map text (fst (shift_index_by n self)) = map text self /\
     List.length (fst (shift_index_by n self)) = List.length self) /\
  (map start (fst (reindex self)) = map start self /\
   map end_ (fst (reindex self)) = map end_ self /\
   map text (fst (reindex self)) = map text self /\
   List.length (fst (reindex self)) = List.length self).
Proof.
  assert (Hlen : forall (a b : SubRip), map text a = map text b ->
                                        List.length a = List.length b).
  { intros a b H. now rewrite <- (length_map text a), H, length_map. }
  split; [|split; [|split; [|split]]].
  - intros time. destruct (shift_time_by_frame time self). auto.
  - intros factor. destruct (multiply_time_by_frame factor self). auto.
  - intros anchor factor. destruct (resize_frame anchor factor self). auto.
  - intros n. unfold shift_index_by.
    repeat split; try apply Hlen; now apply for_each_frame.
  - repeat split; try apply Hlen; now apply reindex_frame.
Qed.

(** ** Merge *)

Lemma shift_time_by_Timecode t self :
  shift_time_by (VTimecode t) self = (map (shifted_by (ms t)) self, None).
Proof.
  unfold shift_time_by. induction self as [|each rest IH]; [reflexivity|].
  cbn [for_each map]. rewrite IH. reflexivity.
Qed.

Lemma update_at_app pre f each rest :
  update_at (List.length pre) f (pre ++ each :: rest)%list
  = (pre ++ f each :: rest)%list.
Proof. induction pre as [|a pre IH]; cbn; [reflexivity|now rewrite IH]. Qed.

Lemma reindex_from pre : forall self,
  fold_left (fun self i => update_at i (set_index (Z.of_nat i + 1)) self)
    (seq (List.length pre) (List.length self)) (pre ++ self)%list
  = (pre ++ renumber (Z.of_nat (List.length pre) + 1) self)%list.
Proof.
  intros self. revert pre.
  induction self as [|each rest IH]; intros pre; [reflexivity|].
  cbn [List.length seq fold_left renumber]. rewrite update_at_app.
  specialize (IH (pre ++ [set_index (Z.of_nat (List.length pre) + 1) each])%list).
  rewrite length_app, <- app_assoc in IH. cbn [List.length app] in IH.
  rewrite Nat.add_1_r in IH. rewrite IH, <- app_assoc. cbn [app].
  do 3 f_equal. lia.
Qed.

Lemma reindex_renumber self : reindex self = (renumber 1 self, None).
Proof. unfold reindex. f_equal. apply (reindex_from []). Qed.

Lemma list_last_nonempty (self : SubRip) :
  self <> [] -> exists each, list_last self = OK each /\ ms (end_ each) = last_end self.
Proof. destruct self; [contradiction|]. intros _. eexists. split; reflexivity. Qed.

Lemma merge_loop_chained subs : forall base offset,
  Forall (fun sub => sub <> []) subs ->
  merge_loop base offset subs = OK (base ++ chained (ms offset) subs)%list.
Proof.
  induction subs as [|sub rest IH]; intros base offset Hne.
  - cbn. now rewrite app_nil_r.
  - inversion Hne as [|? ? Hsub Hrest]; subst.
    cbn [merge_loop chained]. rewrite shift_time_by_Timecode.
    destruct (list_last_nonempty (map (shifted_by (ms offset)) sub)) as (each & -> & E).
    { destruct sub; [contradiction|discriminate]. }
    cbn [bind]. rewrite IH by assumption. now rewrite <- app_assoc, E.
Qed.

Lemma renumber_indices self : forall a,
  map index (renumber (Z.of_nat a) self) = map Z.of_nat (seq a (List.length self)).
Proof.
  induction self as [|each rest IH]; intros a; [reflexivity|].
  cbn [renumber map List.length seq index set_index]. f_equal.
  rewrite <- IH. do 2 f_equal. lia.
Qed.

Lemma renumber_length self : forall k,
  List.length (renumber k self) = List.length self.
Proof. induction self; intros k; cbn; [reflexivity|now rewrite IHself]. Qed.

(** C7: merge of two or more non-empty documents is the first document
    followed by each later one shifted by the running offset (first the end
    of the base's last subtitle, then the shifted end of the last subtitle of
    the document just appended), renumbered 1..n in sequence order.  The
    second part is the example: a document ending at 00:00:05,000 merged
    with a one-subtitle document spanning 00:00:01,000-00:00:03,000. *)
Theorem merge_chains_documents :
  (forall (base sub : SubRip) (subs : list SubRip),
     base <> [] -> Forall (fun d : SubRip => d <> []) (sub :: subs) ->
     merge (base :: sub :: subs) = OK (merged base (sub :: subs)) /\
     map index (merged base (sub :: subs)) =
       map Z.of_nat (seq 1 (List.length (merged base (sub :: subs))))) /\
  (forall a b : entry,
     ms (end_ a) = 5000 -> ms (start b) = 1000 -> ms (end_ b) = 3000 ->
     merge [[a]; [b]] =
       OK [set_index 1 a; mkEntry 2 (mkTimecode 6000) (mkTimecode 8000) (text b)]).
Proof.
  split.
  - intros base sub subs Hbase Hsubs. split.
    + unfold merge. cbn [list_get nth_error bind skipn].
      destruct (list_last_nonempty base Hbase) as (each & -> & E).
      cbn [bind]. rewrite merge_loop_chained by assumption.
      cbn [bind]. rewrite reindex_renumber, E. reflexivity.
    + unfold merged. rewrite renumber_length. apply (renumber_indices _ 1%nat).
  - intros [ia [sa] [ea] ta] [ib [sb] [eb] tb] Ha Hs He. cbn in *. subst.
    reflexivity.
Qed.

Lemma merge_chains_documents_witness :
  merge [[mkEntry 7 (mkTimecode 0) (mkTimecode 5000) "A"];
         [mkEntry 7 (mkTimecode 1000) (mkTimecode 3000) "B"];
         [mkEntry 1 (mkTimecode 500) (mkTimecode 900) "C"]]
  = OK [mkEntry 1 (mkTimecode 0) (mkTimecode 5000) "A";
        mkEntry 2 (mkTimecode 6000) (mkTimecode 8000) "B";
        mkEntry 3 (mkTimecode 8500) (mkTimecode 8900) "C"] /\
  merge [[mkEntry 4 (mkTimecode 0) (mkTimecode 5000) "A"];
         [mkEntry 4 (mkTimecode 1000) (mkTimecode 3000) "B"]]
  = OK [mkEntry 1 (mkTimecode 0) (mkTimecode 5000) "A";
        mkEntry 2 (mkTimecode 6000) (mkTimecode 8000) "B"].
Proof.
  destruct merge_chains_documents as [H1 H2]. split.
  - refine (proj1 (H1 [mkEntry 7 (mkTimecode 0) (mkTimecode 5000) "A"]
                      [mkEntry 7 (mkTimecode 1000) (mkTimecode 3000) "B"]
                      [[mkEntry 1 (mkTimecode 500) (mkTimecode 900) "C"]] _ _)).
    + discriminate.
    + repeat constructor; discriminate.
  - apply (H2 (mkEntry 4 (mkTimecode 0) (mkTimecode 5000) "A")
              (mkEntry 4 (mkTimecode 1000) (mkTimecode 3000) "B")); reflexivity.
Defined.

(** ** Resize *)

Lemma scale_ms_zero factor z : scale_ms 0 factor = OK z -> z = 0.
Proof.
  unfold scale_ms. change (float_of_int 0) with (OK (S754_zero false)).
  cbn [bind]. destruct factor; cbn; congruence.
Qed.

Lemma scales_zero factor : scales factor 0 = is_finite factor.
Proof. destruct factor; reflexivity. Qed.

Lemma scales_defined factor n :
  scales factor n = true -> exists z, scale_ms n factor = OK z.
Proof. unfold scales. destruct (scale_ms n factor); [eauto|discriminate]. Qed.

Lemma resize_steps anchor factor self :
  Forall (scalable anchor factor) self ->
  exists self',
    multiply_time_by factor (map (shifted_by (- ms anchor)) self) = (self', None) /\
    Forall2 (keeps_anchor anchor) self (map (shifted_by (ms anchor)) self').
Proof.
  unfold multiply_time_by.
  induction 1 as [|each rest [Hs He] _ (rest' & IH & Hrest)].
  - exists []. split; [reflexivity|constructor].
  - apply scales_defined in Hs as [zs Hs], He as [ze He].
    cbn [map for_each]. unfold multiply_time_body at 1.
    change (ms (start (shifted_by (- ms anchor) each)))
      with (ms (start each) + - ms anchor).
    rewrite Z.add_opp_r, Hs. cbn [bind Timecode_init set_start end_].
    change (ms (end_ (shifted_by (- ms anchor) each)))
      with (ms (end_ each) + - ms anchor).
    rewrite Z.add_opp_r, He.
    cbn [bind Timecode_init]. rewrite IH.
    eexists. split; [reflexivity|].
    cbn [map]. constructor; [|exact Hrest].
    destruct anchor as [a]. destruct each as [i [s] [e] t].
    unfold keeps_anchor. cbn in *. split; intros [= ->].
    + rewrite Z.sub_diag in Hs. apply scale_ms_zero in Hs. now subst.
    + rewrite Z.sub_diag in He. apply scale_ms_zero in He. now subst.
Qed.

Lemma multiply_time_by_returns factor self :
  snd (multiply_time_by factor self) = None ->
  Forall (fun each => scales factor (ms (start each)) = true /\
                      scales factor (ms (end_ each)) = true) self.
Proof.
  unfold multiply_time_by. induction self as [|each rest IH]; [constructor|].
  cbn [for_each]. unfold multiply_time_body at 1.
  destruct (scale_ms (ms (start each)) factor) as [zs|e] eqn:Es;
    cbn [bind Timecode_init]; [|discriminate].
  cbn [set_start end_].
  destruct (scale_ms (ms (end_ each)) factor) as [ze|e] eqn:Ee;
    cbn [bind Timecode_init]; [|discriminate].
  destruct (for_each (multiply_time_body factor) rest) as [rest' o].
  cbn [snd] in *. intros H. constructor; [|auto].
  unfold scales. now rewrite Es, Ee.
Qed.

(** [resize] returns normally exactly when every timecode can be scaled
    about the anchor. *)
Lemma resize_returns_iff anchor factor self :
  snd (resize anchor factor self) = None <-> Forall (scalable anchor factor) self.
Proof.
  split.
  - unfold resize. cbn [Timecode_neg Timecode_init].
    rewrite shift_time_by_Timecode. cbn [and_then ms].
    destruct (multiply_time_by factor (map (shifted_by (- ms anchor)) self))
      as [self' [e|]] eqn:Em; cbn [and_then snd]; [discriminate|].
    intros _. pose proof (multiply_time_by_returns factor _ (f_equal snd Em)) as H.
    rewrite Forall_map in H. eapply Forall_impl; [|exact H].
    intros each. unfold scalable, shifted_by. cbn [start end_ ms].
    now rewrite !Z.add_opp_r.
  - intros H. destruct (resize_steps anchor factor self H) as (self' & Hm & _).
    unfold resize. cbn [Timecode_neg Timecode_init].
    rewrite shift_time_by_Timecode. cbn [and_then ms]. rewrite Hm. cbn [and_then].
    now rewrite shift_time_by_Timecode.
Qed.

(** C8 (as amended): when every timecode of the document can be scaled
    about the anchor, that is [int((t - anchor) * factor)] raises for none
    of them (which takes a finite factor as soon as one timecode equals the
    anchor), [resize] returns normally and every start or end timecode equal
    to the anchor is exactly the anchor afterwards. *)
Theorem resize_fixes_anchor (anchor : Timecode) (factor : float) (self : SubRip) :
  Forall (scalable anchor factor) self ->
  exists self',
    resize anchor factor self = (self', None) /\
    Forall2 (keeps_anchor anchor) self self'.
Proof.
  intros H. destruct (resize_steps anchor factor self H) as (self' & Hm & Hk).
  exists (map (shifted_by (ms anchor)) self'). split; [|assumption].
  unfold resize. cbn [Timecode_neg Timecode_init].
  rewrite shift_time_by_Timecode. cbn [and_then ms]. rewrite Hm. cbn [and_then].
  apply shift_time_by_Timecode.
Qed.

Lemma resize_fixes_anchor_witness :
  exists self',
    resize (mkTimecode 1000) one_and_a_half
      [mkEntry 1 (mkTimecode 1000) (mkTimecode 5001) "Hello";
       mkEntry 2 (mkTimecode 7000) (mkTimecode 1000) "World"]
    = (self', None) /\
    Forall2 (keeps_anchor (mkTimecode 1000))
      [mkEntry 1 (mkTimecode 1000) (mkTimecode 5001) "Hello";
       mkEntry 2 (mkTimecode 7000) (mkTimecode 1000) "World"] self'.
Proof.
  apply resize_fixes_anchor.
  repeat constructor.
Defined.

(** C8 (as stated) fails for the factor NaN (and likewise for an infinite
    one): the first shift has moved the subtitle at the anchor to zero when
    [int(0 * factor)] raises ValueError, and the document is left there. *)
Lemma resize_nan_moves_anchor :
  resize (mkTimecode 1000) S754_nan
    [mkEntry 1 (mkTimecode 1000) (mkTimecode 1000) "Hello"]
  = ([mkEntry 1 (mkTimecode 0) (mkTimecode 0) "Hello"], Some ValueError) /\
  ~ anchor_fixed (mkTimecode 1000) S754_nan
      [mkEntry 1 (mkTimecode 1000) (mkTimecode 1000) "Hello"].
Proof.
  split; [reflexivity|].
  unfold anchor_fixed. intros H. inversion H as [|? ? ? ? [Hs _] _]; subst.
  specialize (Hs eq_refl). discriminate.
Qed.

(** ** Sync *)

Lemma float_of_int_error n e : float_of_int n = Err e -> e = OverflowError.
Proof.
  unfold float_of_int.
  destruct (binary_normalize float_prec float_emax n 0 false); congruence.
Qed.

(** Integers below 2^53 in magnitude convert to a float. *)
Lemma digits2_pos_lower p : 2 ^ (Zpos (digits2_pos p) - 1) <= Zpos p.
Proof.
  induction p as [p IH|p IH|]; cbn [digits2_pos]; [| |reflexivity];
    rewrite Pos2Z.inj_succ;
    replace (Z.succ (Zpos (digits2_pos p)) - 1) with (Z.succ (Zpos (digits2_pos p) - 1)) by lia;
    rewrite Z.pow_succ_r by lia; lia.
Qed.

Lemma digits2_pos_iter p k :
  digits2_pos (Pos.iter xO p k) = (digits2_pos p + k)%positive.
Proof.
  induction k as [|k IH] using Pos.peano_ind.
  - cbn. lia.
  - rewrite Pos.iter_succ. cbn [digits2_pos]. rewrite IH. lia.
Qed.

Lemma binary_round_aux_exact sx m e :
  Zpos (digits2_pos m) = 53 -> -1074 <= e <= 971 ->
  binary_round_aux float_prec float_emax sx (Zpos m) e loc_Exact = S754_finite sx m e.
Proof.
  intros Hd He.
  assert (Hs : shr_fexp float_prec float_emax (Zpos m) e loc_Exact
               = ({| shr_m := Zpos m; shr_r := false; shr_s := false |}, e)).
  { unfold shr_fexp. cbn [Zdigits2]. rewrite Hd.
    replace (fexp float_prec float_emax (53 + e) - e) with 0
      by (unfold fexp, emin, float_prec, float_emax; lia).
    reflexivity. }
  unfold binary_round_aux. rewrite Hs. cbn [shr_m loc_of_shr_record round_nearest_even].
  rewrite Hs. cbn [shr_m].
  replace (e <=? float_emax - float_prec) with true; [reflexivity|].
  symmetry. apply Z.leb_le. unfold float_emax, float_prec. lia.
Qed.

Lemma float_of_int_small n :
  Z.abs n < 2 ^ 53 -> exists f, float_of_int n = OK f /\ is_finite f = true.
Proof.
  intros Hn. unfold float_of_int, binary_normalize.
  destruct n as [|p|p]; [eexists; split; reflexivity| |].
  all: unfold binary_round.
  all: pose proof (digits2_pos_lower p) as Hd.
  all: assert (Hd53 : Zpos (digits2_pos p) <= 53)
         by (destruct (Z_le_gt_dec (Zpos (digits2_pos p)) 53) as [|Hgt]; [assumption|];
             assert (2 ^ 53 <= 2 ^ (Zpos (digits2_pos p) - 1))
               by (apply Z.pow_le_mono_r; lia); lia).
  all: assert (Hf : fexp float_prec float_emax (Zpos (digits2_pos p) + 0)
                    = Zpos (digits2_pos p) - 53)
         by (unfold fexp, emin, float_prec, float_emax; lia).
  all: rewrite Hf; unfold shl_align.
  all: destruct (Zpos (digits2_pos p) - 53 - 0) as [|k|k] eqn:Ek; try lia.
  all: rewrite binary_round_aux_exact;
         [eexists; split; reflexivity
         |rewrite ?digits2_pos_iter; lia
         |lia].
Qed.

Lemma sync_factor_degenerate anchor target goal :
  ms target = ms anchor ->
  sync_factor anchor target goal =
  Err match float_of_int (ms goal - ms anchor) with
      | OK _ => ZeroDivisionError
      | Err e => e
      end.
Proof.
  intros E. unfold sync_factor. cbn [Timecode_sub checktype Timecode_init bind ms].
  rewrite E, Z.sub_diag.
  destruct (float_of_int (ms goal - ms anchor)); reflexivity.
Qed.

(** C4 (as amended): with [target] equal to [anchor] the float division of
    line 403 raises Python's ZeroDivisionError (OverflowError instead when
    [goal - anchor] is too large for a float, which takes more than 2^53
    milliseconds), which is not an error class of the program; it is raised
    before [resize] is called, so the document is unchanged and, in the
    command, no file is rewritten: no NaN or infinity reaches the output. *)
Theorem sync_target_at_anchor (anchor target goal : Timecode) :
  ms target = ms anchor ->
  exists e,
    e = match float_of_int (ms goal - ms anchor) with
        | OK _ => ZeroDivisionError
        | Err e => e
        end /\
    (e = ZeroDivisionError \/ e = OverflowError) /\
    (Z.abs (ms goal - ms anchor) < 2 ^ 53 -> e = ZeroDivisionError) /\
    declared_by_program e = false /\
    (forall subs, sync anchor target goal subs = (subs, Some e)) /\
    (forall file rest subs, SubRip_init file = OK subs ->
       SRT_sync anchor target goal (file :: rest) = (file :: rest, Some e)).
Proof.
  intros E. eexists. split; [reflexivity|].
  pose proof (sync_factor_degenerate anchor target goal E) as Hf.
  split; [|split; [|split; [|split]]].
  - destruct (float_of_int (ms goal - ms anchor)) eqn:Eg; [now left|right].
    now apply float_of_int_error in Eg.
  - intros Hsmall. destruct (float_of_int_small _ Hsmall) as (f & -> & _).
    reflexivity.
  - destruct (float_of_int (ms goal - ms anchor)) eqn:Eg; [reflexivity|].
    apply float_of_int_error in Eg. now subst.
  - intros subs. unfold sync. now rewrite Hf.
  - intros file rest subs Hp. cbn [SRT_sync]. now rewrite Hp, Hf.
Qed.

Lemma sync_target_at_anchor_witness :
  exists e,
    e = ZeroDivisionError /\
    (e = ZeroDivisionError \/ e = OverflowError) /\
    (Z.abs (ms (mkTimecode 20000) - ms (mkTimecode 1000)) < 2 ^ 53 ->
     e = ZeroDivisionError) /\
    declared_by_program e = false /\
    (forall subs,
       sync (mkTimecode 1000) (mkTimecode 1000) (mkTimecode 20000) subs
       = (subs, Some e)) /\
    (forall file rest subs, SubRip_init file = OK subs ->
       SRT_sync (mkTimecode 1000) (mkTimecode 1000) (mkTimecode 20000) (file :: rest)
       = (file :: rest, Some e)).
Proof.
  apply (sync_target_at_anchor (mkTimecode 1000) (mkTimecode 1000) (mkTimecode 20000)).
  reflexivity.
Defined.

(** C4 (as stated) fails: with target and anchor both at 00:00:01,000 the
    call ends with ZeroDivisionError, which no class of the program
    represents. *)
Lemma sync_degenerate_not_own_error :
  ms (mkTimecode 1000) = ms (mkTimecode 1000) /\
  sync (mkTimecode 1000) (mkTimecode 1000) (mkTimecode 20000)
    [mkEntry 1 (mkTimecode 1000) (mkTimecode 5000) "Hello"]
  = ([mkEntry 1 (mkTimecode 1000) (mkTimecode 5000) "Hello"], Some ZeroDivisionError) /\
  ~ reports_own_error
      (sync (mkTimecode 1000) (mkTimecode 1000) (mkTimecode 20000)
         [mkEntry 1 (mkTimecode 1000) (mkTimecode 5000) "Hello"]).
Proof.
  split; [reflexivity|]. split; [reflexivity|].
  intros (e & He & Hd). cbn in He. injection He as <-. discriminate.
Qed.

(** ** Rejection by the document parser *)

Lemma raises_OK {A : Type} (P : exn -> Prop) (a : A) : raises_only P (OK a).
Proof. intros e. discriminate. Qed.

Lemma raises_Err {A : Type} (P : exn -> Prop) e : P e -> raises_only P (@Err A e).
Proof. intros H e' [= <-]. exact H. Qed.

Lemma raises_bind {A B : Type} (P : exn -> Prop) (m : result A) (k : A -> result B) :
  raises_only P m -> (forall a, raises_only P (k a)) -> raises_only P (bind m k).
Proof.
  intros Hm Hk e. destruct m as [a|e']; cbn [bind].
  - apply Hk.
  - intros [= <-]. now apply Hm.
Qed.

Lemma raises_unpack2 {A : Type} (l : list A) :
  raises_only parse_error_class (unpack2 l).
Proof.
  destruct l as [|a [|b [|c l]]]; cbn;
    first [apply raises_OK | apply raises_Err; right; now left].
Qed.

Lemma raises_unpack3 {A : Type} (l : list A) :
  raises_only parse_error_class (unpack3 l).
Proof.
  destruct l as [|a [|b [|c [|d l]]]]; cbn;
    first [apply raises_OK | apply raises_Err; right; now left].
Qed.

Lemma py_int_raises s e : py_int s = Err e -> e = ValueError.
Proof.
  unfold py_int.
  destruct (match strip s with
            | String c r =>
                if ascii_eqb c "-" then (true, r)
                else if ascii_eqb c "+" then (false, r) else (false, strip s)
            | EmptyString => (false, strip s)
            end) as [negative body].
  destruct body; [congruence|].
  destruct (digits_val 0 (String a body)); congruence.
Qed.

Lemma raises_py_int s : raises_only parse_error_class (py_int s).
Proof. intros e H. apply py_int_raises in H. right. now left. Qed.

Lemma raises_list_get {A : Type} (l : list A) i :
  raises_only parse_error_class (list_get l i).
Proof.
  unfold list_get. destruct (nth_error l i);
    [apply raises_OK | apply raises_Err; now left].
Qed.

Ltac raises :=
  repeat first
    [ apply raises_OK
    | apply raises_py_int
    | apply raises_unpack2
    | apply raises_unpack3
    | apply raises_list_get
    | apply raises_Err; unfold parse_error_class; tauto
    | apply raises_bind; [|intros ?]
    | match goal with
      | |- raises_only _ (if ?b then _ else _) => destruct b
      | |- raises_only _ (match ?x with (_, _) => _ end) => destruct x
      end ].

Lemma raises_Timecode_init s :
  raises_only parse_error_class (Timecode_init (VStr s)).
Proof.
  unfold Timecode_init. apply raises_bind.
  - destruct s; cbn; raises.
  - intros c. destruct (ascii_eqb c "-"); cbv iota beta zeta; raises.
Qed.

Lemma raises_mapM {A B : Type} (P : exn -> Prop) (f : A -> result B) l :
  (forall a, raises_only P (f a)) -> raises_only P (mapM f l).
Proof.
  intros Hf. induction l as [|a l IH]; cbn [mapM].
  - apply raises_OK.
  - apply raises_bind; [apply Hf|]. intros b.
    apply raises_bind; [apply IH|]. intros bs. apply raises_OK.
Qed.

Lemma raises_parse_block each : raises_only parse_error_class (parse_block each).
Proof.
  unfold parse_block. raises.
  apply raises_mapM. intros p. apply raises_Timecode_init.
Qed.

Lemma mapM_fails {A B : Type} (f : A -> result B) l :
  Exists (fun a => exists e, f a = Err e) l -> exists e, mapM f l = Err e.
Proof.
  induction 1 as [a l [e He]|a l _ [e IH]]; cbn [mapM].
  - rewrite He. cbn [bind]. eauto.
  - destruct (f a); cbn [bind]; [|eauto]. rewrite IH. cbn [bind]. eauto.
Qed.

Lemma mapM_succeeds {A B : Type} (f : A -> result B) l :
  Forall (fun a => exists b, f a = OK b) l ->
  exists bs, mapM f l = OK bs /\ List.length bs = List.length l.
Proof.
  induction 1 as [|a l [b Hb] _ (bs & IH & Hlen)]; cbn [mapM].
  - exists []. split; reflexivity.
  - rewrite Hb, IH. exists (b :: bs). split; [reflexivity|]. cbn. now rewrite Hlen.
Qed.

Lemma parse_block_one_line each first :
  split nl each = [first] ->
  parse_block each =
  Err match py_int first with OK _ => IndexError | Err _ => ValueError end.
Proof.
  intros E. unfold parse_block. rewrite E. cbn [list_get nth_error bind].
  destruct (py_int first) eqn:Ei; cbn [bind]; [reflexivity|].
  now rewrite (py_int_raises _ _ Ei).
Qed.

Lemma parse_block_bad_index each e :
  py_int (hd "" (split nl each)) = Err e -> parse_block each = Err ValueError.
Proof.
  intros Ei. unfold parse_block. unfold split at 1 2 3.
  pose proof (split1_nonempty LF each) as Hne. unfold nl in *.
  unfold split in *.
  destruct (split_go (String LF "") 0 each) as [|first lines]; [congruence|].
  cbn [list_get nth_error bind hd] in *. rewrite Ei. cbn [bind].
  now rewrite (py_int_raises _ _ Ei).
Qed.

Lemma parse_block_defect each :
  block_defect each -> exists e, parse_block each = Err e.
Proof.
  unfold block_defect. pose proof (split1_nonempty LF each) as Hne.
  fold nl in Hne. intros H.
  destruct (py_int (hd "" (split nl each))) as [i|e] eqn:Ei;
    [|erewrite parse_block_bad_index; eauto].
  destruct (split nl each) as [|first [|second lines]] eqn:E; [congruence| |].
  - erewrite parse_block_one_line by eassumption. eexists. reflexivity.
  - destruct H as [H|[[e H]|(p & e & Hin & Hp)]];
      [cbn in H; lia | cbn [hd] in *; congruence |].
    unfold parse_block. rewrite E. cbn [list_get nth_error bind hd nth] in *.
    rewrite Ei. cbn [bind].
    destruct (mapM_fails (fun p => Timecode_init (VStr (strip p)))
                (split "-->" second)) as [e' ->]; [|cbn [bind]; eauto].
    apply Exists_exists. eauto.
Qed.

Lemma parse_block_two_lines each first second i p q s t :
  split nl each = [first; second] ->
  py_int first = OK i ->
  split "-->" second = [p; q] ->
  Timecode_init (VStr (strip p)) = OK s ->
  Timecode_init (VStr (strip q)) = OK t ->
  parse_block each = OK (mkEntry i s t "").
Proof.
  intros E Ei Es Hp Hq. unfold parse_block.
  rewrite E. cbn [list_get nth_error bind skipn]. rewrite Ei. cbn [bind].
  rewrite Es. cbn [mapM]. rewrite Hp, Hq. reflexivity.
Qed.

(** C6 (as amended): document parsing fails, with one of Python's IndexError
    and ValueError or with the parser's InvalidTimestringException (there is
    no error class for the document grammar), whenever a block has fewer
    than two lines, a first line that is not a base-10 integer, or a
    timecode on its second line that fails to parse: a one-line block ends
    in IndexError when its line is an integer, and a bad index in
    ValueError.  A block of exactly two lines with a good index and two good
    timecodes is accepted with an empty text, and the document is accepted
    when every block is. *)
Theorem SubRip_init_rejection :
  (forall rawdata,
     Exists block_defect (blocks rawdata) ->
     exists e, SubRip_init rawdata = Err e /\ parse_error_class e) /\
  (forall each first,
     split nl each = [first] ->
     parse_block each =
     Err match py_int first with OK _ => IndexError | Err _ => ValueError end) /\
  (forall each e,
     py_int (hd "" (split nl each)) = Err e -> parse_block each = Err ValueError) /\
  (forall each first second i p q s t,
     split nl each = [first; second] ->
     py_int first = OK i ->
     split "-->" second = [p; q] ->
     Timecode_init (VStr (strip p)) = OK s ->
     Timecode_init (VStr (strip q)) = OK t ->
     parse_block each = OK (mkEntry i s t "")) /\
  (forall rawdata,
     Forall (fun each => exists e, parse_block each = OK e) (blocks rawdata) ->
     exists subs, SubRip_init rawdata = OK subs /\
                  List.length subs = List.length (blocks rawdata)).
Proof.
  split; [|split; [|split; [|split]]].
  - intros rawdata H. unfold SubRip_init.
    destruct (mapM_fails parse_block (blocks rawdata)) as [e He].
    + eapply Exists_impl; [|exact H]. intros each. apply parse_block_defect.
    + exists e. split; [assumption|].
      eapply raises_mapM; [|exact He]. apply raises_parse_block.
  - apply parse_block_one_line.
  - apply parse_block_bad_index.
  - apply parse_block_two_lines.
  - intros rawdata. apply mapM_succeeds.
Qed.

(** ** The round trip of a document *)

(** *** [split] on a separator that starts with a doubled character *)

Lemma prefix_nil s : prefix "" s = true.
Proof. now destruct s. Qed.

Lemma prefix_app s r : prefix s (s ++ r) = true.
Proof.
  induction s as [|a s IH]; cbn [append]; [apply prefix_nil|].
  cbn [prefix]. destruct (ascii_dec a a); [exact IH|congruence].
Qed.

Lemma prefix_double_cons c sep' a s :
  no_double c (String a s) = true ->
  forall r, prefix (String c (String c sep')) (String a (s ++ String c r)) = false.
Proof.
  cbn [no_double]. rewrite andb_true_iff. intros [H _] r.
  cbn [prefix]. destruct (ascii_dec c a) as [<-|]; [|reflexivity].
  unfold ascii_eqb in H. rewrite Ascii.eqb_refl in H.
  destruct s as [|b s]; [discriminate|]. cbn [append prefix].
  destruct (ascii_dec c b) as [<-|]; [|reflexivity].
  now rewrite Ascii.eqb_refl in H.
Qed.

Lemma prefix_double_end c sep' a s :
  no_double c (String a s) = true ->
  prefix (String c (String c sep')) (String a s) = false.
Proof.
  cbn [no_double]. rewrite andb_true_iff. intros [H _].
  cbn [prefix]. destruct (ascii_dec c a) as [<-|]; [|reflexivity].
  unfold ascii_eqb in H. rewrite Ascii.eqb_refl in H.
  destruct s as [|b s]; [discriminate|]. cbn [prefix].
  destruct (ascii_dec c b) as [<-|]; [|reflexivity].
  now rewrite Ascii.eqb_refl in H.
Qed.

Lemma no_double_tail c a s : no_double c (String a s) = true -> no_double c s = true.
Proof. cbn [no_double]. rewrite andb_true_iff. tauto. Qed.

Lemma split_go_skip sep x : forall rest,
  split_go sep (String.length x) (x ++ rest) = split_go sep 0 rest.
Proof. induction x as [|a x IH]; intros rest; [reflexivity|apply IH]. Qed.

Lemma split_double_none c sep' b :
  no_double c b = true -> split (String c (String c sep')) b = [b].
Proof.
  unfold split. induction b as [|a b IH]; [reflexivity|]. intros H.
  cbn [split_go]. rewrite (prefix_double_end _ _ _ _ H).
  now rewrite (IH (no_double_tail _ _ _ H)).
Qed.

Lemma split_double_app c sep' b rest :
  no_double c b = true ->
  split (String c (String c sep')) (b ++ String c (String c sep') ++ rest)
  = b :: split (String c (String c sep')) rest.
Proof.
  unfold split. induction b as [|a b IH]; intros H.
  - cbn [append]. cbn [split_go].
    change (String c (String c (sep' ++ rest)))
      with (String c (String c sep') ++ rest).
    rewrite prefix_app. cbn [String.length Nat.pred append].
    cbn [split_go]. now rewrite split_go_skip.
  - cbn [append split_go].
    change (String c (String c sep') ++ rest)
      with (String c (String c (sep' ++ rest))).
    rewrite (prefix_double_cons _ _ _ _ H).
    change (String c (String c (sep' ++ rest)))
      with (String c (String c sep') ++ rest).
    now rewrite (IH (no_double_tail _ _ _ H)).
Qed.

Lemma no_double_absent c s : string_forall (isnt c) s = true -> no_double c s = true.
Proof.
  induction s as [|a s IH]; [reflexivity|].
  cbn [string_forall no_double]. rewrite andb_true_iff. intros [Ha Hs].
  unfold isnt in Ha. apply negb_true_iff in Ha. now rewrite Ha, (IH Hs).
Qed.

Lemma no_double_app_absent c a b :
  string_forall (isnt c) a = true -> no_double c (a ++ b) = no_double c b.
Proof.
  induction a as [|x a IH]; [reflexivity|].
  cbn [string_forall append no_double]. rewrite andb_true_iff. intros [Hx Ha].
  unfold isnt in Hx. apply negb_true_iff in Hx. now rewrite Hx, (IH Ha).
Qed.

Lemma no_double_cons_same c s :
  no_double c (String c s) = (starts_with (isnt c) s && no_double c s)%bool.
Proof.
  cbn [no_double]. unfold ascii_eqb at 1. rewrite Ascii.eqb_refl.
  now destruct s.
Qed.

Lemma starts_with_app p a b : a <> "" -> starts_with p (a ++ b) = starts_with p a.
Proof. now destruct a. Qed.

Lemma starts_with_forall p s :
  s <> "" -> string_forall p s = true -> starts_with p s = true.
Proof.
  destruct s; [contradiction|]. cbn. rewrite andb_true_iff. tauto.
Qed.

Lemma rstrip_ends_with s :
  ends_with not_space s = true -> rstrip s = s /\ s <> "".
Proof.
  induction s as [|a s IH]; [discriminate|].
  cbn [ends_with rstrip]. destruct s as [|b s].
  - unfold not_space. rewrite negb_true_iff. intros ->. split; [reflexivity|discriminate].
  - intros H. destruct (IH H) as [-> _]. split; [reflexivity|discriminate].
Qed.

Lemma rstrip_app_spaces_r a b :
  string_forall is_space b = true -> rstrip (a ++ b) = rstrip a.
Proof.
  intros Hb. induction a as [|c a IH]; cbn [append rstrip].
  - now apply rstrip_spaces.
  - now rewrite IH.
Qed.

Lemma strip_padded s :
  s <> "" -> string_forall not_space s = true ->
  strip (s ++ " ") = s /\ strip (" " ++ s) = s.
Proof.
  intros Hne Hs. unfold strip. split.
  - destruct s as [|c r]; [contradiction|].
    pose proof Hs as Hc. cbn [string_forall] in Hc. apply andb_true_iff in Hc as [Hc _].
    cbn [append]. rewrite (lstrip_id _ _ Hc).
    change (String c (r ++ " ")) with (String c r ++ " ").
    rewrite rstrip_app_spaces_r by reflexivity. now apply rstrip_id.
  - cbn [append lstrip]. change (is_space " ") with true. cbv iota.
    apply (strip_id _ Hs).
Qed.

(** *** The lines of a rendered subtitle *)

Lemma append_nonempty_r a b : b <> "" -> a ++ b <> "".
Proof. destruct a; [trivial|discriminate]. Qed.

Lemma ends_with_app p x y :
  y <> "" -> ends_with p y = true -> ends_with p (x ++ y) = true.
Proof.
  intros Hy He. induction x as [|c x IH]; [assumption|].
  cbn [append ends_with]. destruct (x ++ y) eqn:E; [|assumption].
  destruct x; [contradiction|discriminate].
Qed.

Lemma fields_forall (P : ascii -> bool) H M S X h m s x :
  (forall a, is_digit a = true -> P a = true) ->
  P ":"%char = true -> P ","%char = true ->
  field 2 h H = true -> field 2 m M = true ->
  field 2 s S = true -> field 3 x X = true ->
  string_forall P (H ++ ":" ++ M ++ ":" ++ S ++ "," ++ X) = true.
Proof.
  intros Hd Hc Hm FH FM FS FX.
  apply field_spec in FH as (_ & FH & _), FM as (_ & FM & _),
    FS as (_ & FS & _), FX as (_ & FX & _).
  rewrite !string_forall_app. cbn [string_forall]. rewrite Hc, Hm.
  rewrite (string_forall_impl _ _ _ Hd FH), (string_forall_impl _ _ _ Hd FM),
    (string_forall_impl _ _ _ Hd FS), (string_forall_impl _ _ _ Hd FX).
  reflexivity.
Qed.

(** The text of a timecode within one hundred hours of zero: an optional
    [-], then digits, colons and a comma. *)
Lemma stringify_shape m :
  - hundred_hours < m < hundred_hours ->
  exists body,
    string_forall (isnt "-") body = true /\
    string_forall is_time_char body = true /\
    body <> "" /\
    (stringify m = body \/ stringify m = String "-" body).
Proof.
  intros Hm.
  assert (Habs : 0 <= Z.abs m < hundred_hours) by lia.
  destruct (stringify_fields _ Habs) as (H & M & S & X & FH & FM & FS & FX & E & En).
  exists (H ++ ":" ++ M ++ ":" ++ S ++ "," ++ X). repeat split.
  - eapply fields_forall; eauto. apply (digit_isnt "-"). reflexivity.
  - eapply fields_forall; eauto. apply digit_time_char.
  - apply field_spec in FH as (Hl & _). destruct H; [discriminate|discriminate].
  - destruct (Z_lt_le_dec m 0) as [Hneg|Hpos].
    + right. rewrite <- En by lia. f_equal. lia.
    + left. rewrite <- E. f_equal. lia.
Qed.

Lemma time_char_forall c s :
  is_time_char c = false -> string_forall is_time_char s = true ->
  string_forall (isnt c) s = true.
Proof. intros Hc. apply string_forall_impl. now apply time_char_isnt. Qed.

Lemma stringify_chars m :
  - hundred_hours < m < hundred_hours ->
  string_forall is_time_char (stringify m) = true /\ stringify m <> "" /\
  no_double "-" (stringify m ++ " ") = true /\
  no_double "-" (" " ++ stringify m) = true.
Proof.
  intros Hm. destruct (stringify_shape m Hm) as (body & Hd & Ht & Hne & [-> | ->]).
  - repeat split; try assumption.
    + apply no_double_absent. rewrite string_forall_app, Hd. reflexivity.
    + apply no_double_absent. cbn [append string_forall]. now rewrite Hd.
  - assert (Hb : (starts_with (isnt "-") body && no_double "-" body)%bool = true).
    { now rewrite starts_with_forall, no_double_absent. }
    repeat split.
    + cbn [string_forall]. now rewrite Ht.
    + discriminate.
    + cbn [append]. rewrite no_double_cons_same, starts_with_app by assumption.
      rewrite no_double_absent by (rewrite string_forall_app, Hd; reflexivity).
      now rewrite starts_with_forall.
    + rewrite (no_double_app_absent "-" " " (String "-" body) eq_refl).
      now rewrite no_double_cons_same.
Qed.

Lemma times_ok_spec each :
  times_ok each = true ->
  - hundred_hours < ms (start each) < hundred_hours /\
  - hundred_hours < ms (end_ each) < hundred_hours.
Proof.
  unfold times_ok. rewrite !andb_true_iff, !Z.ltb_lt. tauto.
Qed.

Lemma time_line_split each :
  times_ok each = true ->
  split "-->" (time_line each)
  = [Timecode_str (start each) ++ " "; " " ++ Timecode_str (end_ each)].
Proof.
  intros H. apply times_ok_spec in H as [Hs He].
  destruct (stringify_chars _ Hs) as (_ & _ & Hs' & _).
  destruct (stringify_chars _ He) as (_ & _ & _ & He').
  unfold time_line, Timecode_str.
  replace (stringify (ms (start each)) ++ " --> " ++ stringify (ms (end_ each)))
    with ((stringify (ms (start each)) ++ " ") ++ "-->"
            ++ (" " ++ stringify (ms (end_ each))))
    by (now rewrite append_assoc).
  rewrite (split_double_app "-" ">" _ _ Hs').
  now rewrite (split_double_none "-" ">" _ He').
Qed.

Lemma Timecode_init_padded t :
  - hundred_hours < ms t < hundred_hours ->
  Timecode_init (VStr (strip (Timecode_str t ++ " "))) = OK t /\
  Timecode_init (VStr (strip (" " ++ Timecode_str t))) = OK t.
Proof.
  intros Ht. destruct (stringify_chars _ Ht) as (Hc & Hne & _).
  unfold Timecode_str.
  destruct (strip_padded (stringify (ms t)) Hne) as [-> ->].
  - eapply string_forall_impl; [apply time_char_not_space|exact Hc].
  - pose proof (Timecode_init_stringify _ Ht) as H. unfold reparses in H.
    destruct t. auto.
Qed.

Lemma time_line_chars each :
  times_ok each = true ->
  time_line each <> "" /\
  string_forall (isnt LF) (time_line each) = true /\
  string_forall (isnt CR) (time_line each) = true /\
  starts_with (isnt LF) (time_line each) = true /\
  ends_with not_space (time_line each) = true.
Proof.
  intros H. apply times_ok_spec in H as [Hs He].
  destruct (stringify_chars _ Hs) as (Hcs & Hns & _).
  destruct (stringify_chars _ He) as (Hce & Hne & _).
  unfold time_line, Timecode_str.
  assert (Hall : forall c, is_time_char c = false -> isnt c " " = true ->
            isnt c "-" = true -> isnt c ">" = true ->
            string_forall (isnt c)
              (stringify (ms (start each)) ++ " --> " ++ stringify (ms (end_ each)))
            = true).
  { intros c Hc H1 H2 H3. rewrite !string_forall_app.
    rewrite (time_char_forall c _ Hc Hcs), (time_char_forall c _ Hc Hce).
    cbn [string_forall]. now rewrite H1, H2, H3. }
  assert (Hne' : stringify (ms (start each)) ++ " --> " ++ stringify (ms (end_ each)) <> "").
  { destruct (stringify (ms (start each))); [contradiction|discriminate]. }
  repeat split.
  - assumption.
  - now apply Hall.
  - now apply Hall.
  - apply starts_with_forall; [assumption|]. now apply Hall.
  - assert (Hend : ends_with not_space (stringify (ms (end_ each))) = true).
    { revert Hne Hce. generalize (stringify (ms (end_ each))). intros b.
      induction b as [|c b IH]; [contradiction|]. intros _ Hb.
      cbn [string_forall] in Hb. apply andb_true_iff in Hb as [Hc Hb].
      cbn [ends_with]. destruct b; [now apply time_char_not_space|].
      apply IH; [discriminate|assumption]. }
    apply ends_with_app; [apply append_nonempty_r; assumption|].
    apply ends_with_app; assumption.
Qed.

(** A block built from a subtitle parses back to the subtitle. *)
Lemma parse_block_block_of each :
  times_ok each = true -> parse_block (block_of each) = OK each.
Proof.
  intros Ht. destruct (time_line_chars each Ht) as (_ & Hlf & _).
  destruct (str_of_int_chars (index each)) as [Hic _].
  pose proof (time_char_forall LF _ eq_refl Hic) as Hilf.
  assert (Hlines : split nl (block_of each)
                   = str_of_int (index each) :: time_line each ::
                     match text each with "" => [] | t => split nl t end).
  { unfold block_of, nl. cbn [append].
    rewrite split1_app by assumption.
    destruct (text each) as [|c t].
    - rewrite append_nil_r, split1_none by assumption. reflexivity.
    - cbn [append]. now rewrite split1_app by assumption. }
  assert (Htext : join nl match text each with "" => [] | t => split nl t end
                  = text each).
  { destruct (text each) as [|c t]; [reflexivity|apply join_split1]. }
  unfold parse_block. rewrite Hlines.
  cbn [list_get nth_error bind skipn]. rewrite py_int_str_of_int. cbn [bind].
  rewrite Htext, (time_line_split _ Ht). cbn [mapM].
  apply times_ok_spec in Ht as [Hs He].
  destruct (Timecode_init_padded _ Hs) as [-> _].
  destruct (Timecode_init_padded _ He) as [_ ->].
  cbn [bind unpack2]. now destruct each.
Qed.

(** *** From the blocks to the document *)

Lemma starts_with_nonempty p s : starts_with p s = true -> s <> "".
Proof. destruct s; [discriminate|discriminate]. Qed.

Lemma lines_ok_spec t :
  lines_ok t = true ->
  t <> "" /\ starts_with (isnt LF) t = true /\ no_double LF t = true /\
  string_forall (isnt CR) t = true.
Proof.
  unfold lines_ok. rewrite !andb_true_iff. intros [[H1 H2] H3].
  repeat split; try assumption. eapply starts_with_nonempty; eassumption.
Qed.

Lemma last_text_ok_spec t :
  last_text_ok t = true ->
  t = "" \/ (lines_ok t = true /\ ends_with not_space t = true).
Proof.
  destruct t; [now left|]. cbn [last_text_ok]. rewrite andb_true_iff. now right.
Qed.

Lemma render_block_of each : text each <> "" -> render each = block_of each.
Proof.
  unfold render, block_of, time_line. intros H.
  destruct (text each); [contradiction|]. now rewrite !append_assoc.
Qed.

Lemma render_empty_text each : text each = "" -> render each = block_of each ++ nl.
Proof.
  unfold render, block_of, time_line. intros ->.
  now rewrite !append_nil_r, !append_assoc.
Qed.

Lemma block_of_starts each :
  exists c r, is_time_char c = true /\ block_of each = String c r.
Proof.
  destruct (str_of_int_chars (index each)) as [Hc Hne].
  unfold block_of. destruct (str_of_int (index each)) as [|c r]; [contradiction|].
  cbn [string_forall] in Hc. apply andb_true_iff in Hc as [Hc _].
  exists c. eexists. split; [exact Hc|]. cbn [append]. reflexivity.
Qed.

Lemma block_of_shape each :
  times_ok each = true -> (text each = "" \/ lines_ok (text each) = true) ->
  no_double LF (block_of each) = true /\
  string_forall (isnt CR) (block_of each) = true.
Proof.
  intros Ht Htext.
  destruct (time_line_chars each Ht) as (Hne & Hlf & Hcr & Hst & _).
  destruct (str_of_int_chars (index each)) as [Hic _].
  unfold block_of. split.
  - rewrite no_double_app_absent by (now apply time_char_forall).
    change (nl ++ ?x) with (String LF x).
    unfold nl at 1. cbn [append].
    rewrite no_double_cons_same, starts_with_app, Hst by assumption.
    rewrite no_double_app_absent by assumption.
    destruct Htext as [-> | Hl]; [reflexivity|].
    apply lines_ok_spec in Hl as (Hn & Hs & Hd & _).
    destruct (text each) as [|c t]; [contradiction|].
    unfold nl. cbn [append]. now rewrite no_double_cons_same, Hs, Hd.
  - rewrite !string_forall_app, Hcr.
    rewrite (time_char_forall CR _ eq_refl Hic).
    destruct Htext as [-> | Hl]; [reflexivity|].
    apply lines_ok_spec in Hl as (Hn & _ & _ & Hc).
    destruct (text each) as [|c t]; [contradiction|].
    rewrite string_forall_app, Hc. reflexivity.
Qed.

Lemma roundtrips_each d :
  roundtrips d = true ->
  d <> [] /\
  Forall (fun each => times_ok each = true /\
                      (text each = "" \/ lines_ok (text each) = true)) d.
Proof.
  induction d as [|each rest IH]; [discriminate|].
  cbn [roundtrips]. destruct rest as [|each' rest].
  - rewrite andb_true_iff. intros [Ht Hl]. split; [discriminate|].
    constructor; [|constructor]. split; [assumption|].
    apply last_text_ok_spec in Hl. tauto.
  - rewrite !andb_true_iff. intros [[Ht Hl] Hr]. split; [discriminate|].
    constructor; [tauto|]. now apply IH.
Qed.

Lemma join_cons sep b b' bs :
  join sep (b :: b' :: bs) = b ++ sep ++ join sep (b' :: bs).
Proof. reflexivity. Qed.

Lemma join_blocks_nonempty each rest :
  join nlnl (map block_of (each :: rest)) <> "".
Proof.
  destruct (block_of_starts each) as (c & r & _ & H).
  cbn [map]. destruct rest as [|each' rest].
  - cbn [join concat]. rewrite H. discriminate.
  - cbn [map]. rewrite join_cons, H. discriminate.
Qed.

(** Stripping the serialized document at its end only removes the line
    break that an empty last text leaves. *)
Lemma rstrip_serialized d :
  roundtrips d = true ->
  rstrip (join nlnl (map render d)) = join nlnl (map block_of d).
Proof.
  induction d as [|each rest IH]; [discriminate|].
  cbn [roundtrips]. destruct rest as [|each' rest].
  - rewrite andb_true_iff. intros [Ht Hl].
    destruct (time_line_chars each Ht) as (Hne & _ & _ & _ & Hend).
    cbn [map join concat].
    apply last_text_ok_spec in Hl as [E | [Hl He]].
    + rewrite (render_empty_text each E).
      rewrite rstrip_app_spaces_r by reflexivity.
      apply rstrip_ends_with. unfold block_of. rewrite E, append_nil_r.
      apply ends_with_app; [discriminate|].
      now apply ends_with_app.
    + apply lines_ok_spec in Hl as (Hn & _).
      rewrite <- (render_block_of each Hn).
      apply rstrip_ends_with. unfold render.
      repeat (apply ends_with_app; [repeat apply append_nonempty_r; assumption|]).
      assumption.
  - rewrite !andb_true_iff. intros [[Ht Hl] Hr].
    apply lines_ok_spec in Hl as (Hn & _).
    change (map render (each :: each' :: rest))
      with (render each :: render each' :: map render rest).
    change (map block_of (each :: each' :: rest))
      with (block_of each :: block_of each' :: map block_of rest).
    rewrite !join_cons, <- (render_block_of each Hn).
    pose proof (join_blocks_nonempty each' rest) as Hne.
    specialize (IH Hr). cbn [map] in IH, Hne.
    assert (Hn' : rstrip (join nlnl (render each' :: map render rest)) <> "")
      by now rewrite IH.
    rewrite (rstrip_app (render each)).
    + now rewrite (rstrip_app nlnl), IH.
    + rewrite (rstrip_app nlnl) by assumption. discriminate.
Qed.

Lemma lstrip_serialized each rest :
  lstrip (join nlnl (map render (each :: rest))) = join nlnl (map render (each :: rest)).
Proof.
  destruct (str_of_int_chars (index each)) as [Hc Hne].
  assert (H : exists c r, not_space c = true /\
                join nlnl (map render (each :: rest)) = String c r).
  { cbn [map]. unfold render at 1.
    destruct (str_of_int (index each)) as [|c r]; [contradiction|].
    cbn [string_forall] in Hc. apply andb_true_iff in Hc as [Hc _].
    apply time_char_not_space in Hc.
    exists c. destruct rest as [|each' rest].
    - eexists. split; [exact Hc|]. cbn [join concat append]. reflexivity.
    - eexists. split; [exact Hc|]. cbn [map]. rewrite join_cons.
      cbn [append]. reflexivity. }
  destruct H as (c & r & Hs & ->). now apply lstrip_id.
Qed.

Lemma split_serialized d :
  Forall (fun each => times_ok each = true /\
                      (text each = "" \/ lines_ok (text each) = true)) d ->
  d <> [] ->
  string_forall (isnt CR) (join nlnl (map block_of d)) = true /\
  split nlnl (join nlnl (map block_of d)) = map block_of d.
Proof.
  induction 1 as [|each rest [Ht Hl] Hrest IH]; [contradiction|]. intros _.
  destruct (block_of_shape each Ht Hl) as [Hd Hc].
  destruct rest as [|each' rest].
  - cbn [map join concat]. split; [assumption|].
    now apply (split_double_none LF "").
  - destruct IH as [IHc IHs]; [discriminate|].
    change (map block_of (each :: each' :: rest))
      with (block_of each :: block_of each' :: map block_of rest).
    rewrite join_cons. cbn [map] in IHc, IHs. split.
    + rewrite !string_forall_app, Hc, IHc. reflexivity.
    + unfold nlnl at 1 2. rewrite (split_double_app LF "" _ _ Hd).
      fold nlnl. now rewrite IHs.
Qed.

Lemma mapM_parse_blocks d :
  Forall (fun each => times_ok each = true /\
                      (text each = "" \/ lines_ok (text each) = true)) d ->
  mapM parse_block (map block_of d) = OK d.
Proof.
  induction 1 as [|each rest [Ht _] _ IH]; [reflexivity|].
  cbn [map mapM]. now rewrite (parse_block_block_of _ Ht), IH.
Qed.

(** C3 (as amended): parsing the serialization of a document gives the
    document back (same subtitles, each with the same index, start, end and
    text) when the document is not empty, every start and end is within one
    hundred hours of zero, every text but the last is one or more non-empty
    lines without carriage returns, and the last text is either empty or
    such lines not ending in whitespace. *)
Theorem SubRip_roundtrip (d : SubRip) :
  roundtrips d = true -> SubRip_init (SubRip_str d) = OK d.
Proof.
  intros H. destruct (roundtrips_each d H) as [Hne Hall].
  destruct (split_serialized d Hall Hne) as [Hcr Hsplit].
  unfold SubRip_init, blocks, SubRip_str, strip.
  destruct d as [|each rest]; [contradiction|].
  rewrite lstrip_serialized, (rstrip_serialized _ H).
  unfold crnl. rewrite replace_absent by assumption.
  rewrite Hsplit. now apply mapM_parse_blocks.
Qed.

Lemma SubRip_roundtrip_witness :
  SubRip_init
    (SubRip_str
       [mkEntry 7 (mkTimecode 1000) (mkTimecode 5000) ("Hello," ++ nl ++ "world");
        mkEntry (-3) (mkTimecode (-250)) (mkTimecode 3723004) ""])
  = OK [mkEntry 7 (mkTimecode 1000) (mkTimecode 5000) ("Hello," ++ nl ++ "world");
        mkEntry (-3) (mkTimecode (-250)) (mkTimecode 3723004) ""].
Proof. apply SubRip_roundtrip. vm_compute. reflexivity. Defined.

(** C3 (as stated) fails for a document whose first subtitle has an empty
    text: its serialization has three line breaks in a row, the second block
    then starts with an empty line, and [int("")] raises ValueError. *)
Lemma SubRip_roundtrip_fails_on_empty_text :
  SubRip_init
    (SubRip_str [mkEntry 1 (mkTimecode 0) (mkTimecode 1000) "";
                 mkEntry 2 (mkTimecode 2000) (mkTimecode 3000) "Hi"])
  = Err ValueError /\
  ~ reparsed [mkEntry 1 (mkTimecode 0) (mkTimecode 1000) "";
              mkEntry 2 (mkTimecode 2000) (mkTimecode 3000) "Hi"].
Proof.
  split; [vm_compute; reflexivity|].
  unfold reparsed. vm_compute. discriminate.
Qed.

Lemma SubRip_init_rejection_witness :
  (exists e,
     SubRip_init ("1" ++ nl ++ "00:00:01,000 --> 00:00:02,000" ++ nl ++ "Hi"
                    ++ nlnl ++ "2") = Err e /\ parse_error_class e) /\
  parse_block "2" = Err IndexError /\
  parse_block "x" = Err ValueError /\
  parse_block ("1" ++ nl ++ "00:00:01,000 --> 00:00:02,000")
  = OK (mkEntry 1 (mkTimecode 1000) (mkTimecode 2000) "") /\
  (exists subs,
     SubRip_init ("1" ++ nl ++ "00:00:01,000 --> 00:00:02,000") = OK subs /\
     List.length subs = 1%nat).
Proof.
  destruct SubRip_init_rejection as (H1 & H2 & H3 & H4 & H5).
  split; [|split; [|split; [|split]]].
  - apply H1. apply Exists_cons_tl, Exists_cons_hd. left. vm_compute. lia.
  - exact (H2 "2" "2" eq_refl).
  - exact (H3 "x" ValueError eq_refl).
  - apply (H4 _ "1" "00:00:01,000 --> 00:00:02,000" 1
              "00:00:01,000 " " 00:00:02,000"); reflexivity.
  - apply (H5 ("1" ++ nl ++ "00:00:01,000 --> 00:00:02,000")).
    repeat constructor. eexists. vm_compute. reflexivity.
Defined.

(** C6 (as stated) fails: the document ["1"] is one block of one line, and
    parsing it ends with Python's IndexError (line 133 reads [each[1]]),
    which is not an error class of the program. *)
Lemma SubRip_init_one_line_not_own_error :
  blocks "1" = ["1"] /\ split nl "1" = ["1"] /\
  SubRip_init "1" = Err IndexError /\
  ~ reports_own_parse_error "1".
Proof.
  repeat split. intros (e & He & Hd). vm_compute in He. injection He as <-.
  discriminate.
Qed.

(** * Further properties *)

(** ** Timestrings *)

Lemma Timecode_init_unfold c r :
  Timecode_init (VStr (String c r)) =
  if ascii_eqb c "-" then Timecode_fields r (-1)
  else Timecode_fields (String c r) 1.
Proof. unfold Timecode_init. cbn [str_get0 bind]. now destruct (ascii_eqb c "-"). Qed.

Lemma field_starts_digit width v s :
  field (S width) v s = true ->
  exists c r, s = String c r /\ ascii_eqb c "-" = false.
Proof.
  intros H. apply field_spec in H as (Hl & Hd & _).
  destruct s as [|c r]; [discriminate|]. exists c, r. split; [reflexivity|].
  cbn [string_forall] in Hd. apply andb_true_iff in Hd as [Hd _].
  now apply digit_not_sign.
Qed.

Lemma Timecode_init_signed body total :
  (exists c r, body = String c r /\ ascii_eqb c "-" = false) ->
  (forall sign, Timecode_fields body sign = OK (mkTimecode (total * sign))) ->
  Timecode_init (VStr body) = OK (mkTimecode total) /\
  Timecode_init (VStr (String "-" body)) = OK (mkTimecode (- total)).
Proof.
  intros (c & r & -> & Hc) H. split.
  - rewrite Timecode_init_unfold, Hc, H. do 2 f_equal. lia.
  - rewrite Timecode_init_unfold. change (ascii_eqb "-" "-") with true.
    cbv iota. rewrite H. do 2 f_equal. lia.
Qed.

Lemma split_comma S X s x :
  field 2 s S = true -> field 3 x X = true -> split "," (S ++ "," ++ X) = [S; X].
Proof.
  intros FS FX. cbn [append].
  rewrite split1_app by (eapply field_isnt; [reflexivity|eassumption]).
  rewrite split1_none; [reflexivity|].
  eapply field_isnt; [reflexivity|eassumption].
Qed.

Lemma Timecode_fields_9 M S X m s x sign :
  field 2 m M = true -> field 2 s S = true -> field 3 x X = true ->
  Timecode_fields (M ++ ":" ++ S ++ "," ++ X) sign
  = OK (mkTimecode (((m * 60 + s) * 1000 + x) * sign)).
Proof.
  intros FM FS FX. unfold Timecode_fields.
  assert (Hlen : String.length (M ++ ":" ++ S ++ "," ++ X) = 9%nat).
  { rewrite !length_append.
    apply field_spec in FM as (-> & _), FS as (-> & _), FX as (-> & _).
    reflexivity. }
  rewrite Hlen. cbn [Nat.eqb]. cbn [append].
  rewrite split1_app by (eapply field_isnt; [reflexivity|eassumption]).
  rewrite split1_none.
  - cbn [unpack2 bind]. change (S ++ String "," X) with (S ++ "," ++ X).
    rewrite (split_comma _ _ _ _ FS FX). cbn [unpack2 bind].
    rewrite (field_py_int _ _ _ FS), (field_py_int _ _ _ FM), (field_py_int _ _ _ FX).
    change (py_int "0") with (OK 0). cbn [bind]. do 2 f_equal. lia.
  - rewrite string_forall_app. apply andb_true_iff. split.
    + eapply field_isnt; [reflexivity|eassumption].
    + cbn [string_forall]. rewrite andb_true_iff. split; [reflexivity|].
      eapply field_isnt; [reflexivity|eassumption].
Qed.

Lemma Timecode_fields_6 S X s x sign :
  field 2 s S = true -> field 3 x X = true ->
  Timecode_fields (S ++ "," ++ X) sign = OK (mkTimecode ((s * 1000 + x) * sign)).
Proof.
  intros FS FX. unfold Timecode_fields.
  assert (Hlen : String.length (S ++ "," ++ X) = 6%nat).
  { rewrite !length_append.
    apply field_spec in FS as (-> & _), FX as (-> & _). reflexivity. }
  rewrite Hlen. cbn [Nat.eqb bind].
  rewrite (split_comma _ _ _ _ FS FX). cbn [unpack2 bind].
  rewrite (field_py_int _ _ _ FS), (field_py_int _ _ _ FX).
  change (py_int "0") with (OK 0). cbn [bind]. do 2 f_equal. lia.
Qed.

Lemma Timecode_fields_5 M S m s sign :
  field 2 m M = true -> field 2 s S = true ->
  Timecode_fields (M ++ ":" ++ S) sign = OK (mkTimecode ((m * 60 + s) * 1000 * sign)).
Proof.
  intros FM FS. unfold Timecode_fields.
  assert (Hlen : String.length (M ++ ":" ++ S) = 5%nat).
  { rewrite !length_append.
    apply field_spec in FM as (-> & _), FS as (-> & _). reflexivity. }
  rewrite Hlen. cbn [Nat.eqb]. cbn [append].
  rewrite split1_app by (eapply field_isnt; [reflexivity|eassumption]).
  rewrite split1_none by (eapply field_isnt; [reflexivity|eassumption]).
  cbn [unpack2 bind]. change (S ++ ",000") with (S ++ "," ++ "000").
  rewrite (split_comma S "000" s 0 FS eq_refl). cbn [unpack2 bind].
  rewrite (field_py_int _ _ _ FS), (field_py_int _ _ _ FM).
  change (py_int "0") with (OK 0). change (py_int "000") with (OK 0).
  cbn [bind]. do 2 f_equal. lia.
Qed.

Lemma append_starts_digit a b :
  (exists c r, a = String c r /\ ascii_eqb c "-" = false) ->
  exists c r, a ++ b = String c r /\ ascii_eqb c "-" = false.
Proof. intros (c & r & -> & H). exists c, (r ++ b). now split. Qed.

(** X1: the shorter shapes of a timestring.  With two-digit minutes [M] and
    seconds [S] and three-digit milliseconds [X], the nine characters
    [M:S,X] parse to [(m*60+s)*1000+x] milliseconds, the six characters
    [S,X] to [s*1000+x], and the five characters [M:S] to [(m*60+s)*1000];
    a leading [-] negates each. *)
Theorem Timecode_init_shorter_shapes (M S X : string) (m s x : Z) :
  field 2 m M = true -> field 2 s S = true -> field 3 x X = true ->
  (Timecode_init (VStr (M ++ ":" ++ S ++ "," ++ X))
     = OK (mkTimecode ((m * 60 + s) * 1000 + x)) /\
   Timecode_init (VStr (String "-" (M ++ ":" ++ S ++ "," ++ X)))
     = OK (mkTimecode (- ((m * 60 + s) * 1000 + x)))) /\
  (Timecode_init (VStr (S ++ "," ++ X)) = OK (mkTimecode (s * 1000 + x)) /\
   Timecode_init (VStr (String "-" (S ++ "," ++ X)))
     = OK (mkTimecode (- (s * 1000 + x)))) /\
  (Timecode_init (VStr (M ++ ":" ++ S)) = OK (mkTimecode ((m * 60 + s) * 1000)) /\
   Timecode_init (VStr (String "-" (M ++ ":" ++ S)))
     = OK (mkTimecode (- ((m * 60 + s) * 1000)))).
Proof.
  intros FM FS FX.
  pose proof (field_starts_digit _ _ _ FM) as HM.
  pose proof (field_starts_digit _ _ _ FS) as HS.
  split; [|split]; apply Timecode_init_signed.
  - now apply append_starts_digit.
  - intros sign. now apply Timecode_fields_9.
  - now apply append_starts_digit.
  - intros sign. now apply Timecode_fields_6.
  - now apply append_starts_digit.
  - intros sign. now apply Timecode_fields_5.
Qed.

Lemma Timecode_init_shorter_shapes_witness :
  (Timecode_init (VStr "01:02,003") = OK (mkTimecode 62003) /\
   Timecode_init (VStr "-01:02,003") = OK (mkTimecode (-62003))) /\
  (Timecode_init (VStr "02,003") = OK (mkTimecode 2003) /\
   Timecode_init (VStr "-02,003") = OK (mkTimecode (-2003))) /\
  (Timecode_init (VStr "01:02") = OK (mkTimecode 62000) /\
   Timecode_init (VStr "-01:02") = OK (mkTimecode (-62000))).
Proof.
  apply (Timecode_init_shorter_shapes "01" "02" "003" 1 2 3); reflexivity.
Defined.

(** ** The exact domain of the timecode round trip *)

Lemma str_of_int_nonneg h :
  0 <= h -> digits_val 0 (str_of_int h) = Some h /\ str_of_int h <> "".
Proof.
  intros Hh. unfold str_of_int.
  pose proof (DecimalZ.of_to h) as E.
  destruct h as [|p|p]; [split; [reflexivity|discriminate]| |lia].
  cbn [Z.to_int NilZero.string_of_int Z.of_int] in *.
  destruct (digits_val_uint_zero (Pos.to_uint p)) as [Hv Hne].
  now rewrite E in Hv.
Qed.

Lemma fmt_d_wide h :
  100 <= h ->
  fmt_d 2 h = str_of_int h /\ (3 <= String.length (str_of_int h))%nat.
Proof.
  intros Hh. destruct (str_of_int_nonneg h ltac:(lia)) as [Hv _].
  assert (Hlen : (3 <= String.length (str_of_int h))%nat).
  { pose proof (digits_val_range _ _ _ Hv ltac:(lia)) as Hr.
    destruct (le_lt_dec 3 (String.length (str_of_int h))) as [|Hlt]; [assumption|].
    assert (10 ^ Z.of_nat (String.length (str_of_int h)) <= 10 ^ 2)
      by (apply Z.pow_le_mono_r; lia).
    lia. }
  split; [|assumption]. unfold fmt_d, zfill.
  destruct (h <? 0) eqn:E; [lia|].
  replace (2 - String.length (str_of_int h))%nat with 0%nat by lia. reflexivity.
Qed.

Lemma rejected_length_long n : (12 < n)%nat -> rejected_length n = true.
Proof.
  intros H. unfold rejected_length. apply Nat.ltb_lt in H. rewrite H.
  now rewrite !orb_true_r.
Qed.

(** From one hundred hours on, the text of a timecode is at least thirteen
    characters long and is rejected. *)
Lemma Timecode_init_stringify_long t :
  hundred_hours <= t ->
  Timecode_init (VStr (stringify t)) = Err InvalidTimestringException /\
  Timecode_init (VStr (stringify (- t))) = Err InvalidTimestringException.
Proof.
  unfold hundred_hours. intros Ht.
  set (body := fmt_d 2 (t / 1000 / 60 / 60) ++ ":" ++ fmt_d 2 ((t / 1000 / 60) mod 60)
                 ++ ":" ++ fmt_d 2 ((t / 1000) mod 60) ++ "," ++ fmt_d 3 (t mod 1000)).
  assert (Hpos : stringify t = body).
  { unfold stringify. destruct (t <? 0) eqn:E; [lia|]. reflexivity. }
  assert (Hneg : stringify (- t) = String "-" body).
  { unfold stringify. destruct (- t <? 0) eqn:E; [|lia].
    rewrite Z.opp_involutive. reflexivity. }
  assert (Hh : 100 <= t / 1000 / 60 / 60) by (Z.div_mod_to_equations; lia).
  destruct (fmt_d_wide _ Hh) as [Ef Hl].
  destruct (str_of_int_nonneg (t / 1000 / 60 / 60) ltac:(lia)) as [Hv Hne].
  assert (Hlen : (12 < String.length body)%nat).
  { unfold body. rewrite !length_append, Ef.
    pose proof (fmt_d_2 ((t / 1000 / 60) mod 60)) as F1.
    pose proof (fmt_d_2 ((t / 1000) mod 60)) as F2.
    pose proof (fmt_d_3 (t mod 1000)) as F3.
    apply field_spec in F1 as (-> & _); [|Z.div_mod_to_equations; lia].
    apply field_spec in F2 as (-> & _); [|Z.div_mod_to_equations; lia].
    apply field_spec in F3 as (-> & _); [|Z.div_mod_to_equations; lia].
    cbn [String.length]. lia. }
  assert (Hc : exists c r, body = String c r /\ ascii_eqb c "-" = false).
  { unfold body. rewrite Ef. apply append_starts_digit.
    pose proof (digits_val_digits _ _ _ Hv) as Hd.
    destruct (str_of_int (t / 1000 / 60 / 60)) as [|c r]; [contradiction|].
    exists c, r. split; [reflexivity|].
    cbn [string_forall] in Hd. apply andb_true_iff in Hd as [Hd _].
    now apply digit_not_sign. }
  destruct Hc as (c & r & Eb & Hc).
  rewrite Hpos, Hneg. split; apply Timecode_init_rejected_lengths;
    try discriminate.
  - rewrite Eb. discriminate.
  - apply rejected_length_long. rewrite Eb in *. unfold unsigned. now rewrite Hc.
  - apply rejected_length_long. exact Hlen.
Qed.

(** X2: the text of a timecode parses back to the timecode exactly when the
    timecode is within one hundred hours of zero, negative ones included;
    from one hundred hours on, in either direction, [Timecode] rejects the
    text [stringify] produced with InvalidTimestringException. *)
Theorem Timecode_roundtrip_exactly_within_hundred_hours (m : Z) :
  (reparses m <-> - hundred_hours < m < hundred_hours) /\
  (~ - hundred_hours < m < hundred_hours ->
   Timecode_init (VStr (stringify m)) = Err InvalidTimestringException).
Proof.
  assert (Hout : ~ - hundred_hours < m < hundred_hours ->
                 Timecode_init (VStr (stringify m)) = Err InvalidTimestringException).
  { intros Hm. destruct (Z_lt_le_dec m hundred_hours) as [Hlt|Hge].
    - destruct (Timecode_init_stringify_long (- m) ltac:(lia)) as [_ H].
      now rewrite Z.opp_involutive in H.
    - now destruct (Timecode_init_stringify_long m Hge) as [H _]. }
  split; [|exact Hout]. split.
  - intros H. unfold reparses in H.
    destruct (Z_lt_le_dec (- hundred_hours) m) as [H1|H1];
      [destruct (Z_lt_le_dec m hundred_hours) as [H2|H2]; [lia|]|];
      rewrite Hout in H by lia; discriminate.
  - apply Timecode_init_stringify.
Qed.

Lemma Timecode_roundtrip_exactly_within_hundred_hours_witness :
  (reparses (-359999999) <-> - hundred_hours < -359999999 < hundred_hours) /\
  Timecode_init (VStr (stringify (-360000000))) = Err InvalidTimestringException.
Proof.
  split.
  - apply (Timecode_roundtrip_exactly_within_hundred_hours (-359999999)).
  - apply (Timecode_roundtrip_exactly_within_hundred_hours (-360000000)).
    unfold hundred_hours. lia.
Defined.

(** ** The exceptions of the timecode parser *)

Lemma raises_only_weaken {A : Type} (P Q : exn -> Prop) (m : result A) :
  (forall e, P e -> Q e) -> raises_only P m -> raises_only Q m.
Proof. intros H Hm e He. auto. Qed.

Lemma raises_value_unpack2 {A : Type} (l : list A) :
  raises_only value_or_timestring (unpack2 l).
Proof.
  destruct l as [|a [|b [|c l]]]; cbn;
    first [apply raises_OK | apply raises_Err; now left].
Qed.

Lemma raises_value_unpack3 {A : Type} (l : list A) :
  raises_only value_or_timestring (unpack3 l).
Proof.
  destruct l as [|a [|b [|c [|d l]]]]; cbn;
    first [apply raises_OK | apply raises_Err; now left].
Qed.

Lemma raises_value_py_int s : raises_only value_or_timestring (py_int s).
Proof. intros e H. apply py_int_raises in H. now left. Qed.

Lemma raises_Timecode_fields time sign :
  raises_only value_or_timestring (Timecode_fields time sign).
Proof.
  unfold Timecode_fields.
  repeat first
    [ apply raises_OK
    | apply raises_value_py_int
    | apply raises_value_unpack2
    | apply raises_value_unpack3
    | apply raises_Err; unfold value_or_timestring; tauto
    | apply raises_bind; [|intros ?]
    | match goal with
      | |- raises_only _ (if ?b then _ else _) => destruct b
      | |- raises_only _ (match ?x with (_, _) => _ end) => destruct x
      end ].
Qed.

(** X3: what [Timecode] raises.  On a string it raises IndexError exactly
    for the empty string, and otherwise only ValueError or
    InvalidTimestringException; on a value that is neither an integer nor a
    string it raises InvalidTimeException; on an integer it never raises. *)
Theorem Timecode_init_exceptions (time : value) (e : exn) :
  Timecode_init time = Err e ->
  match time with
  | VStr "" => e = IndexError
  | VStr _ => e = ValueError \/ e = InvalidTimestringException
  | VInt _ => False
  | _ => e = InvalidTimeException
  end.
Proof.
  destruct time as [|z|f|s|t]; try (cbn [Timecode_init]; congruence).
  destruct s as [|c r]; [cbn; congruence|].
  rewrite Timecode_init_unfold.
  destruct (ascii_eqb c "-"); apply raises_Timecode_fields.
Qed.

Lemma Timecode_init_exceptions_witness :
  InvalidTimestringException = ValueError \/
  InvalidTimestringException = InvalidTimestringException.
Proof.
  apply (Timecode_init_exceptions (VStr "00:00:00,0000") InvalidTimestringException).
  reflexivity.
Defined.

(** ** Shifting *)

Lemma shifted_by_zero each : shifted_by 0 each = each.
Proof.
  destruct each as [i [s] [e] t]. unfold shifted_by. cbn. now rewrite !Z.add_0_r.
Qed.

Lemma shifted_by_shifted_by a b each :
  shifted_by b (shifted_by a each) = shifted_by (a + b) each.
Proof. unfold shifted_by. cbn. now rewrite !Z.add_assoc. Qed.

Lemma map_fixed {A : Type} (f : A -> A) (l : list A) :
  (forall a, f a = a) -> map f l = l.
Proof. intros H. induction l as [|a l IH]; cbn; [reflexivity|now rewrite H, IH]. Qed.

(** X4: shifting composes.  Shifting by the zero timecode leaves the
    document as it is, shifting by [t] and then by [u] is shifting by
    [t + u], and shifting by [t] and then by [-t] restores every start and
    end. *)
Theorem shift_time_by_composes (self : SubRip) :
  shift_time_by (VTimecode (mkTimecode 0)) self = (self, None) /\
  (forall t u,
     and_then (shift_time_by (VTimecode t) self) (shift_time_by (VTimecode u))
     = shift_time_by (VTimecode (mkTimecode (ms t + ms u))) self) /\
  (forall t, exists minus_t,
     Timecode_neg t = OK minus_t /\
     and_then (shift_time_by (VTimecode t) self) (shift_time_by (VTimecode minus_t))
     = (self, None)).
Proof.
  split; [|split].
  - rewrite shift_time_by_Timecode. cbn [ms].
    now rewrite (map_fixed _ _ shifted_by_zero).
  - intros t u. rewrite !shift_time_by_Timecode. cbn [and_then ms].
    rewrite shift_time_by_Timecode, map_map. cbn [ms].
    erewrite map_ext; [reflexivity|]. intros each. apply shifted_by_shifted_by.
  - intros t. exists (mkTimecode (- ms t)). split; [reflexivity|].
    rewrite shift_time_by_Timecode. cbn [and_then].
    rewrite shift_time_by_Timecode, map_map. cbn [ms].
    rewrite map_fixed; [reflexivity|]. intros each.
    rewrite shifted_by_shifted_by, Z.add_opp_diag_r. apply shifted_by_zero.
Qed.

(** X5: [shift_time_by] with an argument that is not a Timecode raises
    TypeError at the first subtitle and leaves the document as it was; on an
    empty document the loop body never runs and the call returns
    normally. *)
Theorem shift_time_by_type_error (time : value) (self : SubRip) :
  is_timecode time = false ->
  shift_time_by time self =
  (self, match self with [] => None | _ => Some TypeError end).
Proof.
  intros H. destruct self as [|each rest]; [reflexivity|].
  unfold shift_time_by. cbn [for_each]. unfold shift_time_body.
  destruct time; try discriminate; reflexivity.
Qed.

Lemma shift_time_by_type_error_witness :
  shift_time_by (VStr "00:00:01,000")
    [mkEntry 1 (mkTimecode 0) (mkTimecode 1000) "Hello"]
  = ([mkEntry 1 (mkTimecode 0) (mkTimecode 1000) "Hello"], Some TypeError).
Proof.
  apply (shift_time_by_type_error (VStr "00:00:01,000")
           [mkEntry 1 (mkTimecode 0) (mkTimecode 1000) "Hello"]).
  reflexivity.
Defined.

(** ** Index numbers *)

Lemma renumber_ignores_index self : forall self' k,
  map (set_index 0) self = map (set_index 0) self' ->
  renumber k self = renumber k self'.
Proof.
  induction self as [|a self IH]; intros [|b self'] k H; try discriminate;
    [reflexivity|].
  cbn [map] in H. inversion H as [[Hs He Ht Hrest]]. cbn [renumber].
  rewrite (IH _ _ Hrest). f_equal.
  destruct a, b. unfold set_index in *. cbn in *. congruence.
Qed.

Lemma renumber_renumber self : forall k j,
  renumber k (renumber j self) = renumber k self.
Proof.
  induction self as [|a self IH]; intros k j; [reflexivity|].
  cbn [renumber]. now rewrite IH.
Qed.

(** X6: [reindex] never raises, numbers the subtitles 1, 2, ..., n in
    sequence order, is idempotent, and its result does not depend on the
    index numbers the document had. *)
Theorem reindex_sequential (self : SubRip) :
  snd (reindex self) = None /\
  map index (fst (reindex self)) = map Z.of_nat (seq 1 (List.length self)) /\
  and_then (reindex self) reindex = reindex self /\
  (forall self' : SubRip,
     map (set_index 0) self = map (set_index 0) self' ->
     reindex self = reindex self').
Proof.
  rewrite !reindex_renumber. cbn [fst snd and_then].
  split; [reflexivity|]. split; [apply (renumber_indices _ 1%nat)|]. split.
  - now rewrite reindex_renumber, renumber_renumber.
  - intros self' H. rewrite reindex_renumber. f_equal.
    now apply renumber_ignores_index.
Qed.

Lemma reindex_sequential_witness :
  reindex [mkEntry 9 (mkTimecode 0) (mkTimecode 1000) "A";
           mkEntry 9 (mkTimecode 2000) (mkTimecode 3000) "B"]
  = reindex [mkEntry (-4) (mkTimecode 0) (mkTimecode 1000) "A";
             mkEntry 7 (mkTimecode 2000) (mkTimecode 3000) "B"].
Proof.
  apply (reindex_sequential
           [mkEntry 9 (mkTimecode 0) (mkTimecode 1000) "A";
            mkEntry 9 (mkTimecode 2000) (mkTimecode 3000) "B"]).
  reflexivity.
Defined.

Lemma shift_index_by_map n self :
  shift_index_by n self = (map (fun each => set_index (index each + n) each) self, None).
Proof.
  unfold shift_index_by. induction self as [|each rest IH]; [reflexivity|].
  cbn [for_each map]. now rewrite IH.
Qed.

(** X7: [shift_index_by] composes.  Shifting by 0 changes nothing, shifting
    by [n] and then by [m] is shifting by [n + m] (so [-n] undoes [n]), and
    after [reindex] a shift by [n] numbers the subtitles [n+1], ...,
    [n+len]. *)
Theorem shift_index_by_composes (self : SubRip) :
  shift_index_by 0 self = (self, None) /\
  (forall n m,
     and_then (shift_index_by n self) (shift_index_by m)
     = shift_index_by (n + m) self) /\
  (forall n, and_then (shift_index_by n self) (shift_index_by (- n)) = (self, None)) /\
  (forall n,
     map index (fst (and_then (reindex self) (shift_index_by n)))
     = map (fun i => Z.of_nat i + n) (seq 1 (List.length self))).
Proof.
  assert (H0 : shift_index_by 0 self = (self, None)).
  { rewrite shift_index_by_map. rewrite map_fixed; [reflexivity|].
    intros [i s e t]. unfold set_index. cbn. now rewrite Z.add_0_r. }
  assert (Hc : forall n m,
     and_then (shift_index_by n self) (shift_index_by m)
     = shift_index_by (n + m) self).
  { intros n m. rewrite !shift_index_by_map. cbn [and_then].
    rewrite shift_index_by_map, map_map.
    erewrite map_ext; [reflexivity|].
    intros [i s e t]. unfold set_index. cbn. now rewrite Z.add_assoc. }
  split; [exact H0|]. split; [exact Hc|]. split.
  - intros n. now rewrite Hc, Z.add_opp_diag_r.
  - intros n. rewrite reindex_renumber. cbn [and_then].
    rewrite shift_index_by_map. cbn [fst]. rewrite map_map. cbn [index set_index].
    rewrite <- (map_map index (fun i => i + n)), (renumber_indices _ 1%nat).
    now rewrite map_map.
Qed.

(** ** Scaling by a power of two *)

Lemma Zpos_iter_xO p k : Zpos (Pos.iter xO p k) = Zpos p * 2 ^ Zpos k.
Proof.
  induction k as [|k IH] using Pos.peano_ind.
  - cbn. lia.
  - rewrite Pos.iter_succ, Pos2Z.inj_xO, IH, Pos2Z.inj_succ, Z.pow_succ_r by lia.
    lia.
Qed.

(** The float of a non-zero integer below [2^53]: a mantissa of 53 bits
    that is the integer times [2^k], with the exponent [-k]. *)
Lemma float_of_int_shape p :
  Zpos p < 2 ^ 53 ->
  exists mz k,
    0 <= k <= 52 /\ Zpos mz = Zpos p * 2 ^ k /\ Zpos (digits2_pos mz) = 53 /\
    float_of_int (Zpos p) = OK (S754_finite false mz (- k)) /\
    float_of_int (Zneg p) = OK (S754_finite true mz (- k)).
Proof.
  intros Hn. unfold float_of_int, binary_normalize, binary_round.
  pose proof (digits2_pos_lower p) as Hd.
  assert (Hd53 : Zpos (digits2_pos p) <= 53).
  { destruct (Z_le_gt_dec (Zpos (digits2_pos p)) 53) as [|Hgt]; [assumption|].
    assert (2 ^ 53 <= 2 ^ (Zpos (digits2_pos p) - 1)) by (apply Z.pow_le_mono_r; lia).
    lia. }
  assert (Hf : fexp float_prec float_emax (Zpos (digits2_pos p) + 0)
               = Zpos (digits2_pos p) - 53)
    by (unfold fexp, emin, float_prec, float_emax; lia).
  rewrite Hf. unfold shl_align.
  destruct (Zpos (digits2_pos p) - 53 - 0) as [|k|k] eqn:Ek; try lia.
  - exists p, 0. rewrite !binary_round_aux_exact by lia.
    repeat split; try lia; reflexivity.
  - exists (Pos.iter xO p k), (Zpos k).
    assert (Hdk : Zpos (digits2_pos (Pos.iter xO p k)) = 53)
      by (rewrite digits2_pos_iter; lia).
    rewrite !binary_round_aux_exact by lia.
    replace (Zpos (digits2_pos p) - 53) with (- Zpos k) by lia.
    repeat split; try lia. apply Zpos_iter_xO.
Qed.

Lemma float_mul_pow2 s mz ez j :
  Zpos (digits2_pos mz) = 53 -> -1074 <= ez + j <= 971 ->
  float_mul (S754_finite s mz ez) (pow2_float j) = S754_finite s mz (ez + j).
Proof.
  intros Hd He. unfold float_mul, pow2_float, SFmul.
  rewrite xorb_false_r, (Pos.mul_comm mz).
  set (big := Pos.mul 4503599627370496 mz).
  assert (Hbig : Zpos (digits2_pos big) = 105).
  { unfold big. cbn [Pos.mul digits2_pos]. rewrite !Pos2Z.inj_succ. lia. }
  unfold binary_round_aux.
  assert (Hs : shr_fexp float_prec float_emax (Zpos big) (ez + (j - 52)) loc_Exact
               = ({| shr_m := Zpos mz; shr_r := false; shr_s := false |}, ez + j)).
  { unfold shr_fexp. cbn [Zdigits2]. rewrite Hbig.
    replace (fexp float_prec float_emax (105 + (ez + (j - 52))) - (ez + (j - 52)))
      with 52 by (unfold fexp, emin, float_prec, float_emax; lia).
    unfold shr, big. cbn [Pos.mul shr_record_of_loc iter_pos shr_1 orb].
    f_equal. lia. }
  rewrite Hs. cbn [shr_m loc_of_shr_record round_nearest_even].
  assert (Hs' : shr_fexp float_prec float_emax (Zpos mz) (ez + j) loc_Exact
                = ({| shr_m := Zpos mz; shr_r := false; shr_s := false |}, ez + j)).
  { unfold shr_fexp. cbn [Zdigits2]. rewrite Hd.
    replace (fexp float_prec float_emax (53 + (ez + j)) - (ez + j)) with 0
      by (unfold fexp, emin, float_prec, float_emax; lia).
    reflexivity. }
  rewrite Hs'. cbn [shr_m].
  replace (ez + j <=? float_emax - float_prec) with true; [reflexivity|].
  symmetry. apply Z.leb_le. unfold float_emax, float_prec. lia.
Qed.

Lemma shiftl_pow2 a k j :
  0 <= a -> 0 <= k ->
  Z.shiftl (a * 2 ^ k) (- k + j) = if 0 <=? j then a * 2 ^ j else a / 2 ^ (- j).
Proof.
  intros Ha Hk. destruct (0 <=? j) eqn:Ej.
  - apply Z.leb_le in Ej. destruct (Z_le_gt_dec k j) as [Hkj|Hkj].
    + rewrite Z.shiftl_mul_pow2 by lia.
      rewrite <- Z.mul_assoc, <- Z.pow_add_r by lia. do 2 f_equal. lia.
    + rewrite Z.shiftl_div_pow2 by lia.
      replace (2 ^ k) with (2 ^ j * 2 ^ (- (- k + j)))
        by (rewrite <- Z.pow_add_r by lia; f_equal; lia).
      rewrite Z.mul_assoc, Z.div_mul; [reflexivity|].
      apply Z.pow_nonzero; lia.
  - apply Z.leb_gt in Ej. rewrite Z.shiftl_div_pow2 by lia.
    replace (2 ^ (- (- k + j))) with (2 ^ (- j) * 2 ^ k)
      by (rewrite <- Z.pow_add_r by lia; f_equal; lia).
    rewrite Z.div_mul_cancel_r; [reflexivity| |];
      apply Z.pow_nonzero; lia.
Qed.

(** [int(n * 2.0**j)] is [n] times [2^j], truncated toward zero. *)
Lemma scale_ms_pow2 n j :
  Z.abs n < 2 ^ 53 -> -1022 <= j <= 971 ->
  scale_ms n (pow2_float j) = OK (times_pow2 j n).
Proof.
  intros Hn Hj. unfold times_pow2.
  destruct n as [|p|p]; [now destruct (0 <=? j)| |]; unfold scale_ms.
  - destruct (float_of_int_shape p Hn) as (mz & k & Hk & Hm & Hd & -> & _).
    cbn [bind]. rewrite float_mul_pow2 by lia.
    cbn [int_of_float cond_Zopp]. rewrite Hm, shiftl_pow2 by lia.
    destruct (0 <=? j) eqn:Ej; [reflexivity|]. apply Z.leb_gt in Ej.
    rewrite Z.quot_div_nonneg; [reflexivity|lia|]. apply Z.pow_pos_nonneg; lia.
  - destruct (float_of_int_shape p Hn) as (mz & k & Hk & Hm & Hd & _ & ->).
    cbn [bind]. rewrite float_mul_pow2 by lia.
    cbn [int_of_float cond_Zopp]. rewrite Hm, shiftl_pow2 by lia.
    destruct (0 <=? j) eqn:Ej; [now rewrite <- Z.mul_opp_l|]. apply Z.leb_gt in Ej.
    change (Z.neg p) with (- Z.pos p). rewrite Z.quot_opp_l
      by (apply Z.pow_nonzero; lia).
    rewrite Z.quot_div_nonneg; [reflexivity|lia|]. apply Z.pow_pos_nonneg; lia.
Qed.

Lemma resize_rescaled anchor factor (g : Z -> Z) self :
  Forall (fun each =>
            scale_ms (ms (start each) - ms anchor) factor
              = OK (g (ms (start each) - ms anchor)) /\
            scale_ms (ms (end_ each) - ms anchor) factor
              = OK (g (ms (end_ each) - ms anchor))) self ->
  resize anchor factor self = (map (rescaled (ms anchor) g) self, None).
Proof.
  intros H. unfold resize. cbn [Timecode_neg Timecode_init].
  rewrite shift_time_by_Timecode. cbn [and_then ms].
  assert (Hm : multiply_time_by factor (map (shifted_by (- ms anchor)) self)
               = (map (fun each =>
                         mkEntry (index each)
                           (mkTimecode (g (ms (start each) - ms anchor)))
                           (mkTimecode (g (ms (end_ each) - ms anchor)))
                           (text each)) self, None)).
  { unfold multiply_time_by.
    induction H as [|each rest [Hs He] _ IH]; [reflexivity|].
    cbn [map for_each]. unfold multiply_time_body at 1.
    change (ms (start (shifted_by (- ms anchor) each)))
      with (ms (start each) + - ms anchor).
    rewrite Z.add_opp_r, Hs. cbn [bind Timecode_init set_start end_].
    change (ms (end_ (shifted_by (- ms anchor) each)))
      with (ms (end_ each) + - ms anchor).
    rewrite Z.add_opp_r, He. cbn [bind Timecode_init]. rewrite IH.
    reflexivity. }
  rewrite Hm. cbn [and_then]. rewrite shift_time_by_Timecode, map_map.
  reflexivity.
Qed.

Lemma times_pow2_0 n : times_pow2 0 n = n.
Proof. unfold times_pow2. cbn. lia. Qed.

(** X8: stretching by a power of two is exact.  When every timecode is
    within [2^53] ms of the anchor, [resize] by the float [2^j] returns
    normally and moves each timecode [t] to
    [anchor + (t - anchor) * 2^j], the product truncated toward zero when
    [j] is negative (so a negative distance is rounded up, not down); in
    particular the factor 1.0 leaves the document as it is. *)
Theorem resize_by_power_of_two (anchor : Timecode) (j : Z) (self : SubRip) :
  Forall (near (ms anchor)) self -> -1022 <= j <= 971 ->
  resize anchor (pow2_float j) self = (map (scaled_about (ms anchor) j) self, None) /\
  (j = 0 -> resize anchor (pow2_float j) self = (self, None)).
Proof.
  intros Hnear Hj.
  assert (H : resize anchor (pow2_float j) self
              = (map (scaled_about (ms anchor) j) self, None)).
  { apply resize_rescaled. eapply Forall_impl; [|exact Hnear].
    intros each [Hs He]. split; now apply scale_ms_pow2. }
  split; [exact H|]. intros ->. rewrite H.
  rewrite map_fixed; [reflexivity|].
  intros [i [s] [e] t]. unfold scaled_about, rescaled.
  cbn [index start end_ text ms]. rewrite !times_pow2_0.
  f_equal; f_equal; lia.
Qed.

Lemma resize_by_power_of_two_witness :
  resize (mkTimecode 1000) (pow2_float (-1))
    [mkEntry 1 (mkTimecode 997) (mkTimecode 2001) "Hello"]
  = (map (scaled_about 1000 (-1))
       [mkEntry 1 (mkTimecode 997) (mkTimecode 2001) "Hello"], None) /\
  (-1 = 0 ->
   resize (mkTimecode 1000) (pow2_float (-1))
     [mkEntry 1 (mkTimecode 997) (mkTimecode 2001) "Hello"]
   = ([mkEntry 1 (mkTimecode 997) (mkTimecode 2001) "Hello"], None)).
Proof.
  apply (resize_by_power_of_two (mkTimecode 1000) (-1)
           [mkEntry 1 (mkTimecode 997) (mkTimecode 2001) "Hello"]).
  - repeat constructor.
  - lia.
Defined.

Lemma scale_ms_by_zero n s :
  Z.abs n < 2 ^ 53 -> scale_ms n (S754_zero s) = OK 0.
Proof.
  intros Hn. unfold scale_ms.
  destruct (float_of_int_small n Hn) as (f & -> & Hf).
  cbn [bind]. destruct f; try discriminate; reflexivity.
Qed.

(** X9: stretching by zero collapses the document onto the anchor.  When
    every timecode is within [2^53] ms of the anchor, [resize] by the
    factor 0.0 (of either sign) returns normally and every start and end
    equals the anchor afterwards. *)
Theorem resize_by_zero (anchor : Timecode) (s : bool) (self : SubRip) :
  Forall (near (ms anchor)) self ->
  resize anchor (S754_zero s) self
  = (map (fun each => mkEntry (index each) anchor anchor (text each)) self, None).
Proof.
  intros Hnear.
  rewrite (resize_rescaled anchor (S754_zero s) (fun _ => 0)).
  - f_equal. apply map_ext. intros each. unfold rescaled. now destruct anchor.
  - eapply Forall_impl; [|exact Hnear].
    intros each [Hs He]. split; now apply scale_ms_by_zero.
Qed.

Lemma resize_by_zero_witness :
  resize (mkTimecode 1000) (S754_zero false)
    [mkEntry 1 (mkTimecode 997) (mkTimecode 2001) "Hello"]
  = ([mkEntry 1 (mkTimecode 1000) (mkTimecode 1000) "Hello"], None).
Proof.
  apply (resize_by_zero (mkTimecode 1000) false
           [mkEntry 1 (mkTimecode 997) (mkTimecode 2001) "Hello"]).
  repeat constructor.
Defined.

(** X10: sync with the goal twice as far from the anchor as the target.
    With the target 10 s and the goal 20 s after the anchor, the factor of
    line 403 is exactly 2.0 and every timecode within [2^53] ms of the
    anchor ends at twice its distance from the anchor. *)
Theorem sync_doubles (anchor target goal : Timecode) (subs : SubRip) :
  ms target - ms anchor = 10000 -> ms goal - ms anchor = 20000 ->
  Forall (near (ms anchor)) subs ->
  sync_factor anchor target goal
    = OK (mkTimecode 10000, mkTimecode 20000, pow2_float 1) /\
  sync anchor target goal subs
    = (map (rescaled (ms anchor) (fun d => d * 2)) subs, None).
Proof.
  intros Ht Hg Hnear.
  assert (Hf : sync_factor anchor target goal
               = OK (mkTimecode 10000, mkTimecode 20000, pow2_float 1)).
  { unfold sync_factor. cbn [Timecode_sub checktype Timecode_init bind ms].
    rewrite Ht, Hg. reflexivity. }
  split; [exact Hf|]. unfold sync. rewrite Hf.
  apply resize_rescaled. eapply Forall_impl; [|exact Hnear].
  intros each [Hs He]. split; rewrite scale_ms_pow2 by (assumption || lia);
    reflexivity.
Qed.

Lemma sync_doubles_witness :
  sync_factor (mkTimecode 0) (mkTimecode 10000) (mkTimecode 20000)
    = OK (mkTimecode 10000, mkTimecode 20000, pow2_float 1) /\
  sync (mkTimecode 0) (mkTimecode 10000) (mkTimecode 20000)
    [mkEntry 1 (mkTimecode 1500) (mkTimecode 4000) "Hello"]
  = (map (rescaled 0 (fun d => d * 2))
       [mkEntry 1 (mkTimecode 1500) (mkTimecode 4000) "Hello"], None).
Proof.
  apply (sync_doubles (mkTimecode 0) (mkTimecode 10000) (mkTimecode 20000)
           [mkEntry 1 (mkTimecode 1500) (mkTimecode 4000) "Hello"]);
    try reflexivity.
  repeat constructor.
Defined.

(** ** What the document parser accepts *)

Lemma split_go_nonempty sep s : forall k, split_go sep k s <> [].
Proof.
  induction s as [|c s IH]; intros k; [discriminate|].
  cbn [split_go]. destruct k; [|apply IH].
  destruct (prefix sep (String c s)); [discriminate|].
  destruct (split_go sep 0 s) eqn:E; [now apply IH in E|discriminate].
Qed.

Lemma mapM_length {A B : Type} (f : A -> result B) l : forall bs,
  mapM f l = OK bs -> List.length bs = List.length l.
Proof.
  induction l as [|a l IH]; intros bs; cbn [mapM].
  - now intros [= <-].
  - destruct (f a); cbn [bind]; [|discriminate].
    destruct (mapM f l); cbn [bind]; [|discriminate].
    intros [= <-]. cbn. now rewrite (IH _ eq_refl).
Qed.

Lemma lstrip_spaces s : string_forall is_space s = true -> lstrip s = "".
Proof.
  induction s as [|c s IH]; [reflexivity|].
  cbn [string_forall lstrip]. rewrite andb_true_iff. intros [-> Hs]. auto.
Qed.

(** X11: a parsed document is never empty.  A successful parse yields one
    subtitle per block and at least one subtitle, and input that is empty or
    all whitespace is rejected with ValueError (its single block is the
    empty string, whose index [int] rejects). *)
Theorem SubRip_init_never_empty (rawdata : string) :
  (forall subs, SubRip_init rawdata = OK subs ->
     subs <> [] /\ List.length subs = List.length (blocks rawdata)) /\
  (string_forall is_space rawdata = true -> SubRip_init rawdata = Err ValueError).
Proof.
  split.
  - intros subs H. apply mapM_length in H. split; [|assumption].
    pose proof (split_go_nonempty nlnl (replace crnl nl (strip rawdata)) 0) as Hne.
    fold (split nlnl (replace crnl nl (strip rawdata))) in Hne.
    fold (blocks rawdata) in Hne.
    destruct subs; [|discriminate]. destruct (blocks rawdata); [congruence|discriminate].
  - intros H. unfold SubRip_init, blocks, strip. now rewrite (lstrip_spaces _ H).
Qed.

Lemma SubRip_init_never_empty_witness :
  SubRip_init (" " ++ nl ++ nl) = Err ValueError.
Proof. apply (SubRip_init_never_empty (" " ++ nl ++ nl)). reflexivity. Defined.

(** *** Whitespace around the document *)

Lemma lstrip_app_spaces w s :
  string_forall is_space w = true -> lstrip (w ++ s) = lstrip s.
Proof.
  induction w as [|c w IH]; [reflexivity|].
  cbn [string_forall append lstrip]. rewrite andb_true_iff. intros [-> Hw]. auto.
Qed.

Lemma lstrip_app_r s w :
  string_forall is_space w = true ->
  lstrip (s ++ w) = match lstrip s with "" => "" | r => r ++ w end.
Proof.
  intros Hw. induction s as [|c s IH].
  - cbn [append lstrip]. now apply lstrip_spaces.
  - cbn [append lstrip]. destruct (is_space c); [exact IH|reflexivity].
Qed.

Lemma strip_surrounded w1 s w2 :
  string_forall is_space w1 = true -> string_forall is_space w2 = true ->
  strip (w1 ++ s ++ w2) = strip s.
Proof.
  intros H1 H2. unfold strip. rewrite (lstrip_app_spaces _ _ H1), (lstrip_app_r _ _ H2).
  destruct (lstrip s) eqn:E; [reflexivity|]. rewrite <- E.
  now apply rstrip_app_spaces_r.
Qed.

(** X12: whitespace around the document is ignored.  Any whitespace before
    the first block and after the last one (blank lines included) changes
    neither the blocks nor the result of parsing. *)
Theorem SubRip_init_ignores_surrounding_whitespace (w1 rawdata w2 : string) :
  string_forall is_space w1 = true -> string_forall is_space w2 = true ->
  blocks (w1 ++ rawdata ++ w2) = blocks rawdata /\
  SubRip_init (w1 ++ rawdata ++ w2) = SubRip_init rawdata.
Proof.
  intros H1 H2.
  assert (H : blocks (w1 ++ rawdata ++ w2) = blocks rawdata)
    by (unfold blocks; now rewrite strip_surrounded).
  split; [exact H|]. unfold SubRip_init. now rewrite H.
Qed.

Lemma SubRip_init_ignores_surrounding_whitespace_witness :
  blocks ((nl ++ " ") ++ "1" ++ (nl ++ nl ++ nl)) = blocks "1" /\
  SubRip_init ((nl ++ " ") ++ "1" ++ (nl ++ nl ++ nl)) = SubRip_init "1".
Proof.
  apply (SubRip_init_ignores_surrounding_whitespace (nl ++ " ") "1" (nl ++ nl ++ nl));
    reflexivity.
Defined.

(** *** Carriage returns *)

Lemma to_crlf_nil s : to_crlf s = "" -> s = "".
Proof.
  destruct s as [|c s]; [reflexivity|]. cbn [to_crlf].
  destruct (ascii_eqb c LF); discriminate.
Qed.

Lemma lstrip_to_crlf s : lstrip (to_crlf s) = to_crlf (lstrip s).
Proof.
  induction s as [|c s IH]; [reflexivity|].
  cbn [to_crlf lstrip]. destruct (ascii_eqb c LF) eqn:E.
  - apply Ascii.eqb_eq in E. subst c. cbn [lstrip].
    change (is_space CR) with true. change (is_space LF) with true.
    cbv iota. exact IH.
  - cbn [lstrip]. destruct (is_space c); [exact IH|].
    cbn [to_crlf]. now rewrite E.
Qed.

Lemma rstrip_to_crlf s : rstrip (to_crlf s) = to_crlf (rstrip s).
Proof.
  induction s as [|c s IH]; [reflexivity|].
  cbn [to_crlf rstrip]. destruct (ascii_eqb c LF) eqn:E.
  - apply Ascii.eqb_eq in E. subst c. cbn [rstrip]. rewrite IH.
    destruct (rstrip s) as [|a r] eqn:Er.
    + reflexivity.
    + change (is_space LF) with true. cbn [to_crlf].
      destruct (ascii_eqb a LF); cbn [to_crlf]; unfold ascii_eqb;
        rewrite Ascii.eqb_refl; reflexivity.
  - cbn [rstrip]. rewrite IH. destruct (rstrip s) as [|a r] eqn:Er.
    + cbn [to_crlf]. destruct (is_space c); [reflexivity|].
      cbn [to_crlf]. now rewrite E.
    + cbn [to_crlf]. rewrite E. now destruct (ascii_eqb a LF).
Qed.

Lemma replace_to_crlf s :
  string_forall (isnt CR) s = true -> replace crnl nl (to_crlf s) = s.
Proof.
  unfold replace. induction s as [|c s IH]; [reflexivity|].
  cbn [string_forall to_crlf]. rewrite andb_true_iff. intros [Hc Hs].
  destruct (ascii_eqb c LF) eqn:E.
  - apply Ascii.eqb_eq in E. subst c.
    change (String CR (String LF (to_crlf s))) with (crnl ++ to_crlf s).
    cbn [append crnl replace_go].
    change (String CR (String LF (to_crlf s))) with (crnl ++ to_crlf s).
    rewrite prefix_app. cbn [String.length crnl Nat.pred append nl replace_go].
    now rewrite (IH Hs).
  - cbn [replace_go]. unfold crnl at 1. cbn [prefix].
    apply isnt_eqb in Hc. unfold ascii_eqb in Hc.
    destruct (ascii_dec CR c) as [<-|_]; [now rewrite Ascii.eqb_refl in Hc|].
    now rewrite (IH Hs).
Qed.

Lemma string_forall_lstrip p s :
  string_forall p s = true -> string_forall p (lstrip s) = true.
Proof.
  induction s as [|c s IH]; [reflexivity|].
  intros H. cbn [lstrip]. destruct (is_space c); [|exact H].
  cbn [string_forall] in H. apply andb_true_iff in H. now apply IH.
Qed.

Lemma string_forall_rstrip p s :
  string_forall p s = true -> string_forall p (rstrip s) = true.
Proof.
  induction s as [|c s IH]; [reflexivity|].
  cbn [string_forall rstrip]. rewrite andb_true_iff. intros [Hc Hs].
  specialize (IH Hs). destruct (rstrip s).
  - destruct (is_space c); [reflexivity|]. cbn. now rewrite Hc.
  - cbn [string_forall] in *. now rewrite Hc, IH.
Qed.

(** X13: Windows line endings.  For text without carriage returns, writing
    every line break as carriage return and line break changes neither the
    blocks nor the result of parsing. *)
Theorem SubRip_init_normalizes_crlf (rawdata : string) :
  string_forall (isnt CR) rawdata = true ->
  blocks (to_crlf rawdata) = blocks rawdata /\
  SubRip_init (to_crlf rawdata) = SubRip_init rawdata.
Proof.
  intros H.
  assert (Hs : string_forall (isnt CR) (strip rawdata) = true)
    by (unfold strip; now apply string_forall_rstrip, string_forall_lstrip).
  assert (Hb : blocks (to_crlf rawdata) = blocks rawdata).
  { unfold blocks, strip. rewrite lstrip_to_crlf, rstrip_to_crlf.
    fold (strip rawdata). rewrite (replace_to_crlf _ Hs).
    unfold crnl. now rewrite replace_absent. }
  split; [exact Hb|]. unfold SubRip_init. now rewrite Hb.
Qed.

Lemma SubRip_init_normalizes_crlf_witness :
  blocks (to_crlf ("1" ++ nl ++ "00:00:01,000 --> 00:00:02,000" ++ nl ++ "Hi"
                   ++ nlnl ++ "2" ++ nl ++ "3 --> 4" ++ nl))
  = blocks ("1" ++ nl ++ "00:00:01,000 --> 00:00:02,000" ++ nl ++ "Hi"
            ++ nlnl ++ "2" ++ nl ++ "3 --> 4" ++ nl) /\
  SubRip_init
    (to_crlf ("1" ++ nl ++ "00:00:01,000 --> 00:00:02,000" ++ nl ++ "Hi"
              ++ nlnl ++ "2" ++ nl ++ "3 --> 4" ++ nl))
  = SubRip_init ("1" ++ nl ++ "00:00:01,000 --> 00:00:02,000" ++ nl ++ "Hi"
                 ++ nlnl ++ "2" ++ nl ++ "3 --> 4" ++ nl).
Proof.
  apply (SubRip_init_normalizes_crlf
           ("1" ++ nl ++ "00:00:01,000 --> 00:00:02,000" ++ nl ++ "Hi"
            ++ nlnl ++ "2" ++ nl ++ "3 --> 4" ++ nl)).
  reflexivity.
Defined.

(** *** Whitespace on the timestamp line *)

Lemma pad_spec a :
  is_pad a = true ->
  is_space a = true /\ isnt LF a = true /\ isnt "-" a = true.
Proof.
  intros H.
  assert (Hall : implb (is_pad a) (is_space a && isnt LF a && isnt "-" a) = true)
    by (clear H; revert a; apply ascii_forall; vm_compute; reflexivity).
  rewrite H in Hall. cbn [implb] in Hall.
  apply andb_true_iff in Hall as [Hall H3]. apply andb_true_iff in Hall as [H1 H2].
  auto.
Qed.

Lemma pads_spec w :
  string_forall is_pad w = true ->
  string_forall is_space w = true /\ string_forall (isnt LF) w = true /\
  string_forall (isnt "-") w = true.
Proof.
  intros H. repeat split;
    (eapply string_forall_impl; [|exact H]; intros a Ha; now apply pad_spec).
Qed.

Lemma stringify_no_double m w :
  - hundred_hours < m < hundred_hours ->
  string_forall (isnt "-") w = true ->
  no_double "-" (stringify m ++ w) = true.
Proof.
  intros Hm Hw. destruct (stringify_shape m Hm) as (body & Hd & _ & Hne & [-> | ->]).
  - apply no_double_absent. now rewrite string_forall_app, Hd.
  - cbn [append]. rewrite no_double_cons_same, starts_with_app by assumption.
    rewrite starts_with_forall by assumption.
    apply no_double_absent. now rewrite string_forall_app, Hd.
Qed.

Lemma strip_padded_timecode w1 m w2 :
  - hundred_hours < m < hundred_hours ->
  string_forall is_space w1 = true -> string_forall is_space w2 = true ->
  strip (w1 ++ stringify m ++ w2) = stringify m.
Proof.
  intros Hm H1 H2. rewrite strip_surrounded by assumption.
  destruct (stringify_chars m Hm) as (Hc & _).
  apply strip_id. eapply string_forall_impl; [apply time_char_not_space|exact Hc].
Qed.

(** X14: whitespace on the timestamp line.  Around each of the two
    timecodes of the second line, any run of spaces, tabs and other
    whitespace that does not break the line (none at all included) is
    ignored: the block parses to the subtitle with the index, the two
    timecodes (within one hundred hours of zero) and the text that follows,
    whatever that text is. *)
Theorem parse_block_timestamp_padding
  (i : Z) (a b : Timecode) (t w1 w2 w3 w4 : string) :
  - hundred_hours < ms a < hundred_hours ->
  - hundred_hours < ms b < hundred_hours ->
  string_forall is_pad w1 = true -> string_forall is_pad w2 = true ->
  string_forall is_pad w3 = true -> string_forall is_pad w4 = true ->
  parse_block
    (str_of_int i ++ nl
       ++ ((w1 ++ Timecode_str a ++ w2) ++ "-->" ++ (w3 ++ Timecode_str b ++ w4))
       ++ nl ++ t)
  = OK (mkEntry i a b t).
Proof.
  intros Ha Hb P1 P2 P3 P4. unfold Timecode_str.
  destruct (pads_spec _ P1) as (S1 & L1 & D1), (pads_spec _ P2) as (S2 & L2 & D2),
    (pads_spec _ P3) as (S3 & L3 & D3), (pads_spec _ P4) as (S4 & L4 & D4).
  destruct (stringify_chars _ Ha) as (Ca & _), (stringify_chars _ Hb) as (Cb & _).
  destruct (str_of_int_chars i) as [Ci _].
  set (line := (w1 ++ stringify (ms a) ++ w2) ++ "-->" ++ (w3 ++ stringify (ms b) ++ w4)).
  assert (Hline : string_forall (isnt LF) line = true).
  { unfold line. rewrite !string_forall_app, L1, L2, L3, L4.
    rewrite (time_char_forall LF _ eq_refl Ca), (time_char_forall LF _ eq_refl Cb).
    reflexivity. }
  assert (Hsplit : split "-->" line
                   = [w1 ++ stringify (ms a) ++ w2; w3 ++ stringify (ms b) ++ w4]).
  { unfold line. rewrite (split_double_app "-" ">").
    - rewrite (split_double_none "-" ">"); [reflexivity|].
      rewrite no_double_app_absent by assumption. now apply stringify_no_double.
    - rewrite no_double_app_absent by assumption. now apply stringify_no_double. }
  unfold parse_block, nl. cbn [append].
  rewrite split1_app by (now apply time_char_forall).
  rewrite split1_app by assumption.
  cbn [list_get nth_error bind skipn]. rewrite py_int_str_of_int. cbn [bind].
  rewrite join_split1, Hsplit. cbn [mapM].
  rewrite !strip_padded_timecode by assumption.
  pose proof (Timecode_init_stringify _ Ha) as Ea.
  pose proof (Timecode_init_stringify _ Hb) as Eb.
  unfold reparses in Ea, Eb. rewrite Ea, Eb. cbn [bind unpack2].
  now destruct a, b.
Qed.

Lemma parse_block_timestamp_padding_witness :
  parse_block
    (str_of_int 3 ++ nl
       ++ (("" ++ Timecode_str (mkTimecode (-1500)) ++ "")
             ++ "-->" ++ ("   " ++ Timecode_str (mkTimecode 2000) ++ " "))
       ++ nl ++ ("Hi" ++ nl ++ nl))
  = OK (mkEntry 3 (mkTimecode (-1500)) (mkTimecode 2000) ("Hi" ++ nl ++ nl)).
Proof.
  apply (parse_block_timestamp_padding 3 (mkTimecode (-1500)) (mkTimecode 2000)
           ("Hi" ++ nl ++ nl) "" "" "   " " ");
    first [reflexivity | unfold hundred_hours; cbn; lia].
Defined.

(** ** The merge command *)

Lemma SubRip_init_nonempty rawdata subs : SubRip_init rawdata = OK subs -> subs <> [].
Proof.
  intros H. apply mapM_length in H.
  pose proof (split_go_nonempty nlnl (replace crnl nl (strip rawdata)) 0) as Hne.
  fold (split nlnl (replace crnl nl (strip rawdata))) in Hne.
  fold (blocks rawdata) in Hne.
  destruct subs; [|discriminate]. destruct (blocks rawdata); [congruence|discriminate].
Qed.

Lemma mapM_Forall {A B : Type} (f : A -> result B) (P : B -> Prop) l : forall bs,
  (forall a b, f a = OK b -> P b) -> mapM f l = OK bs -> Forall P bs.
Proof.
  induction l as [|a l IH]; intros bs Hf; cbn [mapM].
  - intros [= <-]. constructor.
  - destruct (f a) eqn:Ea; cbn [bind]; [|discriminate].
    destruct (mapM f l); cbn [bind]; [|discriminate].
    intros [= <-]. constructor; eauto.
Qed.

Lemma merge_nonempty base subs :
  base <> [] -> Forall (fun d : SubRip => d <> []) subs ->
  merge (base :: subs) = OK (merged base subs).
Proof.
  intros Hbase Hsubs. unfold merge. cbn [list_get nth_error bind skipn].
  destruct (list_last_nonempty base Hbase) as (each & -> & E).
  cbn [bind]. rewrite merge_loop_chained by assumption.
  cbn [bind]. now rewrite reindex_renumber, E.
Qed.

(** X15: the merge command on files that parse.  With fewer than two files
    it raises Usage before reading any; with two or more files that all
    parse it always succeeds (a parsed document is never empty, so no
    [\[-1\]] can fail) and prints the serialization of the chained,
    renumbered document; and whatever the files, the only exceptions are
    that Usage and those of the parser. *)
Theorem SRT_merge_outcomes (files : list string) :
  ((List.length files < 2)%nat ->
   SRT_merge files =
   Err (Usage "What good is there to merge, when there is naught but one item?")) /\
  ((2 <= List.length files)%nat ->
   Forall (fun file => exists subs, SubRip_init file = OK subs) files ->
   exists base subs,
     mapM SubRip_init files = OK (base :: subs) /\
     SRT_merge files = OK (SubRip_str (merged base subs))) /\
  (forall e, SRT_merge files = Err e ->
     e = Usage "What good is there to merge, when there is naught but one item?"
     \/ parse_error_class e).
Proof.
  assert (Hgood : forall docs, mapM SubRip_init files = OK docs ->
            (2 <= List.length files)%nat ->
            exists base subs, docs = base :: subs /\
              SRT_merge files = OK (SubRip_str (merged base subs))).
  { intros docs Hd Hlen. pose proof (mapM_length _ _ _ Hd) as Hl.
    pose proof (mapM_Forall _ (fun d : SubRip => d <> []) _ _ SubRip_init_nonempty Hd)
      as Hne.
    destruct docs as [|base subs]; [cbn in Hl; lia|].
    exists base, subs. split; [reflexivity|].
    unfold SRT_merge. apply Nat.ltb_ge in Hlen. rewrite Hlen, Hd. cbn [bind].
    inversion Hne; subst. now rewrite merge_nonempty. }
  split; [|split].
  - intros H. unfold SRT_merge. apply Nat.ltb_lt in H. now rewrite H.
  - intros Hlen Hall.
    destruct (mapM_succeeds SubRip_init files Hall) as (docs & Hd & _).
    destruct (Hgood docs Hd Hlen) as (base & subs & -> & H). eauto.
  - intros e He. destruct (Nat.ltb (List.length files) 2) eqn:Hlen.
    + unfold SRT_merge in He. rewrite Hlen in He. injection He as <-. now left.
    + right. apply Nat.ltb_ge in Hlen.
      destruct (mapM SubRip_init files) as [docs|e'] eqn:Hd.
      * destruct (Hgood docs eq_refl Hlen) as (base & subs & _ & H). congruence.
      * assert (e' = e).
        { unfold SRT_merge in He. apply Nat.ltb_ge in Hlen.
          rewrite Hlen, Hd in He. cbn [bind] in He. congruence. }
        subst. eapply raises_mapM; [|exact Hd]. intros raw.
        apply raises_mapM. apply raises_parse_block.
Qed.

Lemma SRT_merge_outcomes_witness :
  exists base subs,
    mapM SubRip_init ["1" ++ nl ++ "1 --> 2"; "1" ++ nl ++ "3 --> 4" ++ nl ++ "Hi"]
      = OK (base :: subs) /\
    SRT_merge ["1" ++ nl ++ "1 --> 2"; "1" ++ nl ++ "3 --> 4" ++ nl ++ "Hi"]
      = OK (SubRip_str (merged base subs)).
Proof.
  apply (SRT_merge_outcomes
           ["1" ++ nl ++ "1 --> 2"; "1" ++ nl ++ "3 --> 4" ++ nl ++ "Hi"]).
  - cbn. lia.
  - repeat constructor; eexists; vm_compute; reflexivity.
Defined.

(** ** The loop over the files *)

Lemma for_each_file_ok op file rest :
  file_ok op file ->
  for_each_file op (file :: rest) =
  (rewritten op file :: fst (for_each_file op rest), snd (for_each_file op rest)).
Proof.
  intros (subs & subs' & Hp & Ho). cbn [for_each_file]. unfold rewritten.
  rewrite Hp, Ho. now destruct (for_each_file op rest).
Qed.

(** X16: the commands rewrite the files one after the other and do not
    roll back.  When every file parses and the operation returns normally
    on it, every file is rewritten and the command ends normally; when a
    file fails after some that were fine, the command ends with that file's
    exception, the files before it stay rewritten, and it and the files
    after it are left as they were. *)
Theorem for_each_file_stops_at_first_failure (op : SubRip -> effect)
  (done : list string) :
  Forall (file_ok op) done ->
  for_each_file op done = (map (rewritten op) done, None) /\
  (forall file rest e,
     file_fails op file e ->
     for_each_file op (done ++ file :: rest)%list
     = (map (rewritten op) done ++ file :: rest, Some e)%list).
Proof.
  induction 1 as [|f done Hf _ [IH1 IH2]].
  - split; [reflexivity|]. intros file rest e [He|(subs & subs' & Hp & Ho)];
      cbn [app map for_each_file]; [now rewrite He|now rewrite Hp, Ho].
  - split.
    + now rewrite (for_each_file_ok _ _ _ Hf), IH1.
    + intros file rest e He. cbn [app map].
      now rewrite (for_each_file_ok _ _ _ Hf), (IH2 _ _ _ He).
Qed.

Lemma for_each_file_stops_at_first_failure_witness :
  for_each_file reindex
    ([("7" ++ nl ++ "1 --> 2")%string] ++ "x" :: [("9" ++ nl ++ "3 --> 4")%string])%list
  = (map (rewritten reindex) [("7" ++ nl ++ "1 --> 2")%string]
       ++ "x" :: [("9" ++ nl ++ "3 --> 4")%string],
     Some ValueError)%list.
Proof.
  apply (for_each_file_stops_at_first_failure reindex ["7" ++ nl ++ "1 --> 2"]).
  - repeat constructor. eexists. eexists. split; vm_compute; reflexivity.
  - left. vm_compute. reflexivity.
Defined.

(** ** The options of the commands *)

Lemma last_cons {A : Type} (a d : A) l : last (a :: l) d = last l a.
Proof.
  revert a d. induction l as [|b l IH]; intros a d; [reflexivity|].
  change (last (a :: b :: l) d) with (last (b :: l) d).
  now rewrite (IH b d), (IH b a).
Qed.

Lemma last_value_cons {A : Type} (a : A) l d :
  last_value (a :: l) d = last_value l (Some a).
Proof. unfold last_value. cbn [map]. apply last_cons. Qed.

Lemma option_values_cons name option value rest :
  option_values name ((option, value) :: rest) =
  if String.eqb option name then value :: option_values name rest
  else option_values name rest.
Proof.
  unfold option_values. cbn [filter fst].
  now destruct (String.eqb option name).
Qed.

Lemma shiftby_options_values opts : forall by_,
  shiftby_options by_ opts =
  match mapM (fun v => Timecode_init (VStr v)) (option_values "--by" opts) with
  | OK ts => OK (last_value ts by_)
  | Err _ => Err (Usage "Invalid duration to shift by.")
  end.
Proof.
  induction opts as [|[option value] rest IH]; intros by_; [reflexivity|].
  cbn [shiftby_options]. rewrite option_values_cons.
  destruct (String.eqb option "--by"); [|apply IH].
  cbn [mapM]. destruct (Timecode_init (VStr value)) as [t|e]; [|reflexivity].
  cbn [bind]. rewrite IH.
  destruct (mapM _ (option_values "--by" rest)); cbn [bind]; [|reflexivity].
  now rewrite last_value_cons.
Qed.

(** X17: the options of [shiftby].  Without a [--by] option the command
    raises Usage ("must be specified") and touches no file; when the value
    of any [--by] option is not a timestring it raises Usage ("Invalid
    duration") and touches no file; otherwise the files are shifted by the
    value of the last [--by] option. *)
Theorem SRT_shiftby_options (opts : list (string * string)) (files : list string) :
  (option_values "--by" opts = [] ->
   SRT_shiftby opts files
   = (files, Some (Usage "Duration to shift by must be specified."))) /\
  (Exists (fun v => exists e, Timecode_init (VStr v) = Err e)
     (option_values "--by" opts) ->
   SRT_shiftby opts files = (files, Some (Usage "Invalid duration to shift by."))) /\
  (forall ts t,
     mapM (fun v => Timecode_init (VStr v)) (option_values "--by" opts) = OK ts ->
     last_value ts None = Some t ->
     SRT_shiftby opts files = for_each_file (shift_time_by (VTimecode t)) files).
Proof.
  unfold SRT_shiftby. rewrite shiftby_options_values. split; [|split].
  - intros ->. reflexivity.
  - intros H. apply mapM_fails in H as [e ->]. reflexivity.
  - intros ts t -> ->. reflexivity.
Qed.

Lemma SRT_shiftby_options_witness :
  SRT_shiftby [("--by", "00:00:01,000"); ("-b", ""); ("--by", "-02,500")] ["x"]
  = for_each_file (shift_time_by (VTimecode (mkTimecode (-2500)))) ["x"].
Proof.
  apply (proj2 (proj2 (SRT_shiftby_options
           [("--by", "00:00:01,000"); ("-b", ""); ("--by", "-02,500")] ["x"]))
           [mkTimecode 1000; mkTimecode (-2500)]); reflexivity.
Defined.

Lemma shift_options_values opts : forall target to ts us,
  mapM (fun v => Timecode_init (VStr v)) (option_values "--target" opts) = OK ts ->
  mapM (fun v => Timecode_init (VStr v)) (option_values "--to" opts) = OK us ->
  shift_options target to opts = OK (last_value ts target, last_value us to).
Proof.
  induction opts as [|[option value] rest IH]; intros target to ts us.
  - cbn. now intros [= <-] [= <-].
  - rewrite !option_values_cons. cbn [shift_options].
    destruct (String.eqb option "--target") eqn:Et.
    + apply String.eqb_eq in Et. subst option.
      change (String.eqb "--target" "--to") with false. cbv iota.
      cbn [mapM]. destruct (Timecode_init (VStr value)) as [t|e]; [|discriminate].
      cbn [bind].
      destruct (mapM _ (option_values "--target" rest)) as [ts'|] eqn:E;
        cbn [bind]; [|discriminate].
      intros [= <-] Hu. rewrite (IH _ _ _ _ eq_refl Hu).
      now rewrite last_value_cons.
    + destruct (String.eqb option "--to") eqn:Eo.
      * cbn [mapM bind]. intros Ht.
        destruct (Timecode_init (VStr value)) as [u|e]; [|discriminate].
        cbn [bind].
        destruct (mapM _ (option_values "--to" rest)) as [us'|] eqn:E;
          cbn [bind]; [|discriminate].
        intros [= <-]. rewrite (IH _ _ _ _ Ht eq_refl).
        now rewrite last_value_cons.
      * cbn [bind]. apply IH.
Qed.

(** X18: the [shift] command.  When all the values given for [--target]
    and [--to] are timestrings: if either option is missing the command ends
    with UnboundLocalError (its names are never initialized, so the Usage
    messages of lines 270-273 cannot be reached) and touches no file;
    otherwise the files are shifted by the last [--to] minus the last
    [--target], which for a difference below one hundred hours is what
    [shiftby] does with [--by] set to the text of that difference. *)
Theorem SRT_shift_behaviour (opts : list (string * string)) (files : list string)
  (ts us : list Timecode) :
  mapM (fun v => Timecode_init (VStr v)) (option_values "--target" opts) = OK ts ->
  mapM (fun v => Timecode_init (VStr v)) (option_values "--to" opts) = OK us ->
  (ts = [] \/ us = [] -> SRT_shift opts files = (files, Some UnboundLocalError)) /\
  (forall t u,
     last_value ts None = Some t -> last_value us None = Some u ->
     SRT_shift opts files
     = raised (for_each_file
                 (shift_time_by (VTimecode (mkTimecode (ms u - ms t)))) files) /\
     (- hundred_hours < ms u - ms t < hundred_hours ->
      SRT_shift opts files
      = raised (SRT_shiftby [("--by", stringify (ms u - ms t))] files))).
Proof.
  intros Ht Hu. unfold SRT_shift. rewrite (shift_options_values _ _ _ _ _ Ht Hu).
  split.
  - intros [-> | ->]; [reflexivity|]. cbn [last_value map last].
    now destruct (last_value ts None).
  - intros t u -> ->. cbn [Timecode_sub checktype Timecode_init].
    split; [reflexivity|]. intros Hd. unfold SRT_shiftby.
    cbn [shiftby_options]. change (String.eqb "--by" "--by") with true. cbv iota.
    pose proof (Timecode_init_stringify _ Hd) as E. unfold reparses in E.
    now rewrite E.
Qed.

Lemma SRT_shift_behaviour_witness :
  (([] : list Timecode) = [] \/ [mkTimecode 5] = [] ->
   SRT_shift [("--to", "5")] ["x"] = (["x"], Some UnboundLocalError)) /\
  SRT_shift [("--to", "05,000"); ("--target", "1")] ["x"]
  = raised (SRT_shiftby [("--by", stringify (5000 - 1))] ["x"]).
Proof.
  split.
  - intros _.
    apply (proj1 (SRT_shift_behaviour [("--to", "5")] ["x"] [] [mkTimecode 5]
                    eq_refl eq_refl)).
    now left.
  - apply (proj2 (SRT_shift_behaviour [("--to", "05,000"); ("--target", "1")] ["x"]
                    [mkTimecode 1] [mkTimecode 5000] eq_refl eq_refl)
             (mkTimecode 1) (mkTimecode 5000) eq_refl eq_refl).
    unfold hundred_hours. cbn. lia.
Defined.

(** ** The commands on serialized documents *)

Lemma SubRip_init_SubRip_str d :
  roundtrips d = true -> SubRip_init (SubRip_str d) = OK d.
Proof.
  intros H. destruct (roundtrips_each d H) as [Hne Hall].
  destruct (split_serialized d Hall Hne) as [Hcr Hsplit].
  unfold SubRip_init, blocks, SubRip_str, strip.
  destruct d as [|each rest]; [contradiction|].
  rewrite lstrip_serialized, (rstrip_serialized _ H).
  unfold crnl. rewrite replace_absent by assumption.
  rewrite Hsplit. now apply mapM_parse_blocks.
Qed.

Lemma for_each_file_serialized (op : SubRip -> effect) docs :
  Forall (fun d => roundtrips d = true /\ snd (op d) = None) docs ->
  for_each_file op (map SubRip_str docs)
  = (map (fun d => SubRip_str (fst (op d))) docs, None).
Proof.
  induction 1 as [|d docs [Hr Ho] _ IH]; [reflexivity|].
  cbn [map for_each_file]. rewrite (SubRip_init_SubRip_str _ Hr), IH.
  destruct (op d) as [d' o]. cbn [snd] in Ho. subst o. reflexivity.
Qed.

Lemma roundtrips_renumber d : forall k, roundtrips (renumber k d) = roundtrips d.
Proof.
  induction d as [|each rest IH]; intros k; [reflexivity|].
  cbn [renumber roundtrips]. rewrite IH.
  destruct rest; reflexivity.
Qed.

(** X19: the [reindex] command on serialized documents.  On files that
    hold the serializations of documents in the domain of the round trip,
    the command rewrites each file as the serialization of its document
    renumbered from 1 and ends normally, and running it again changes
    nothing. *)
Theorem SRT_reindex_idempotent (docs : list SubRip) :
  Forall (fun d => roundtrips d = true) docs ->
  SRT_reindex (map SubRip_str docs)
  = (map (fun d => SubRip_str (renumber 1 d)) docs, None) /\
  SRT_reindex (fst (SRT_reindex (map SubRip_str docs)))
  = SRT_reindex (map SubRip_str docs).
Proof.
  intros H.
  assert (H1 : forall ds, Forall (fun d => roundtrips d = true) ds ->
            SRT_reindex (map SubRip_str ds)
            = (map (fun d => SubRip_str (renumber 1 d)) ds, None)).
  { intros ds Hds. unfold SRT_reindex. rewrite for_each_file_serialized.
    - erewrite map_ext; [reflexivity|]. intros d. now rewrite reindex_renumber.
    - eapply Forall_impl; [|exact Hds]. intros d Hd.
      now rewrite reindex_renumber. }
  split; [now apply H1|]. rewrite (H1 _ H). cbn [fst].
  rewrite <- (map_map (renumber 1) SubRip_str), H1.
  - rewrite !map_map.
    rewrite (map_ext _ (fun d => SubRip_str (renumber 1 d))); [reflexivity|].
    intros d. now rewrite renumber_renumber.
  - apply Forall_map. eapply Forall_impl; [|exact H]. intros d Hd.
    now rewrite roundtrips_renumber.
Qed.

Lemma SRT_reindex_idempotent_witness :
  SRT_reindex (map SubRip_str [[mkEntry 7 (mkTimecode 0) (mkTimecode 1000) "Hi"]])
  = (map (fun d => SubRip_str (renumber 1 d))
       [[mkEntry 7 (mkTimecode 0) (mkTimecode 1000) "Hi"]], None) /\
  SRT_reindex
    (fst (SRT_reindex
            (map SubRip_str [[mkEntry 7 (mkTimecode 0) (mkTimecode 1000) "Hi"]])))
  = SRT_reindex (map SubRip_str [[mkEntry 7 (mkTimecode 0) (mkTimecode 1000) "Hi"]]).
Proof.
  apply (SRT_reindex_idempotent [[mkEntry 7 (mkTimecode 0) (mkTimecode 1000) "Hi"]]).
  repeat constructor.
Defined.

Lemma SRT_shiftby_stringify b files :
  - hundred_hours < b < hundred_hours ->
  SRT_shiftby [("--by", stringify b)] files
  = for_each_file (shift_time_by (VTimecode (mkTimecode b))) files.
Proof.
  intros Hb. unfold SRT_shiftby. cbn [shiftby_options].
  change (String.eqb "--by" "--by") with true. cbv iota.
  pose proof (Timecode_init_stringify _ Hb) as E. unfold reparses in E.
  now rewrite E.
Qed.

(** X20: shifting files there and back.  On files that hold the
    serializations of documents in the domain of the round trip, and that
    stay in it when shifted by [b], [shiftby --by=b] followed by
    [shiftby --by=-b] ends normally and restores every file byte for
    byte. *)
Theorem SRT_shiftby_there_and_back (b : Z) (docs : list SubRip) :
  - hundred_hours < b < hundred_hours ->
  Forall (fun d => roundtrips d = true) docs ->
  Forall (fun d => roundtrips (map (shifted_by b) d) = true) docs ->
  SRT_shiftby [("--by", stringify b)] (map SubRip_str docs)
  = (map (fun d => SubRip_str (map (shifted_by b) d)) docs, None) /\
  SRT_shiftby [("--by", stringify (- b))]
    (fst (SRT_shiftby [("--by", stringify b)] (map SubRip_str docs)))
  = (map SubRip_str docs, None).
Proof.
  intros Hb Hd Hs.
  assert (H1 : forall c ds, - hundred_hours < c < hundred_hours ->
            Forall (fun d => roundtrips d = true) ds ->
            SRT_shiftby [("--by", stringify c)] (map SubRip_str ds)
            = (map (fun d => SubRip_str (map (shifted_by c) d)) ds, None)).
  { intros c ds Hc Hds. rewrite (SRT_shiftby_stringify _ _ Hc).
    rewrite for_each_file_serialized.
    - erewrite map_ext; [reflexivity|]. intros d.
      now rewrite shift_time_by_Timecode.
    - eapply Forall_impl; [|exact Hds]. intros d Hr.
      now rewrite shift_time_by_Timecode. }
  split; [now apply H1|]. rewrite (H1 _ _ Hb Hd). cbn [fst].
  rewrite <- (map_map (map (shifted_by b)) SubRip_str), H1.
  - rewrite !map_map.
    rewrite (map_ext _ SubRip_str); [reflexivity|].
    intros d. rewrite map_map, map_fixed; [reflexivity|]. intros each.
    rewrite shifted_by_shifted_by, Z.add_opp_diag_r. apply shifted_by_zero.
  - lia.
  - now apply Forall_map.
Qed.

Lemma SRT_shiftby_there_and_back_witness :
  SRT_shiftby [("--by", stringify (-2500))]
    (map SubRip_str [[mkEntry 7 (mkTimecode 0) (mkTimecode 1000) "Hi"]])
  = (map (fun d => SubRip_str (map (shifted_by (-2500)) d))
       [[mkEntry 7 (mkTimecode 0) (mkTimecode 1000) "Hi"]], None) /\
  SRT_shiftby [("--by", stringify (- -2500))]
    (fst (SRT_shiftby [("--by", stringify (-2500))]
            (map SubRip_str [[mkEntry 7 (mkTimecode 0) (mkTimecode 1000) "Hi"]])))
  = (map SubRip_str [[mkEntry 7 (mkTimecode 0) (mkTimecode 1000) "Hi"]], None).
Proof.
  apply (SRT_shiftby_there_and_back (-2500)
           [[mkEntry 7 (mkTimecode 0) (mkTimecode 1000) "Hi"]]).
  - unfold hundred_hours. lia.
  - repeat constructor.
  - repeat constructor.
Defined.

(** ** The replace command *)

Lemma prefix_split a : forall s, prefix a s = true -> exists rest, s = a ++ rest.
Proof.
  induction a as [|x a IH]; intros s H; [now exists s|].
  destruct s as [|y s]; [discriminate|]. cbn [prefix] in H.
  destruct (ascii_dec x y) as [<-|]; [|discriminate].
  destruct (IH _ H) as [rest ->]. now exists rest.
Qed.

Lemma replace_go_skip old new x : forall rest,
  replace_go old new (String.length x) (x ++ rest) = replace_go old new 0 rest.
Proof. induction x as [|a x IH]; intros rest; [reflexivity|apply IH]. Qed.

Lemma replace_same_bounded c' o n : forall s,
  (String.length s <= n)%nat -> replace (String c' o) (String c' o) s = s.
Proof.
  unfold replace. induction n as [|n IH]; intros s Hn.
  - destruct s; [reflexivity|cbn in Hn; lia].
  - destruct s as [|c s]; [reflexivity|]. cbn [replace_go].
    destruct (prefix (String c' o) (String c s)) eqn:Ep.
    + destruct (prefix_split _ _ Ep) as [rest E].
      cbn [append] in E. injection E as <- ->.
      cbn [String.length Nat.pred append]. rewrite replace_go_skip, IH; [reflexivity|].
      cbn [String.length] in Hn. rewrite length_append in Hn. lia.
    + rewrite IH; [reflexivity|]. cbn [String.length] in Hn. lia.
Qed.

Lemma interleave_nil s : interleave "" s = s.
Proof. induction s as [|c s IH]; cbn; [reflexivity|now rewrite IH]. Qed.

Lemma str_replace_same x s : str_replace x x s = s.
Proof.
  unfold str_replace. destruct x as [|c r]; [apply interleave_nil|].
  now apply (replace_same_bounded _ _ (String.length s)).
Qed.

Lemma replace_text_map find replace_with self :
  replace_text find replace_with self
  = (map (fun sub => set_text (str_replace find replace_with (text sub)) sub) self,
     None).
Proof.
  unfold replace_text. induction self as [|sub rest IH]; [reflexivity|].
  cbn [for_each map]. now rewrite IH.
Qed.

(** X21: the replacement loop of [replace].  It never raises, keeps the
    index, start and end of every subtitle and their number, and leaves
    every text as it is when the string to find equals its replacement or
    when the first character of the string to find occurs in no text. *)
Theorem replace_text_behaviour (find replace_with : string) (self : SubRip) :
  snd (replace_text find replace_with self) = None /\
  map index (fst (replace_text find replace_with self)) = map index self /\
  map start (fst (replace_text find replace_with self)) = map start self /\
  map end_ (fst (replace_text find replace_with self)) = map end_ self /\
  (find = replace_with -> replace_text find replace_with self = (self, None)) /\
  (forall c r,
     find = String c r ->
     Forall (fun sub => string_forall (isnt c) (text sub) = true) self ->
     replace_text find replace_with self = (self, None)).
Proof.
  rewrite replace_text_map. cbn [fst snd]. rewrite !map_map.
  split; [reflexivity|]. split; [reflexivity|]. split; [reflexivity|].
  split; [reflexivity|]. split.
  - intros <-. rewrite map_fixed; [reflexivity|]. intros [i s e t].
    unfold set_text. cbn. now rewrite str_replace_same.
  - intros c r -> H.
    assert (Hmap : map (fun sub =>
                          set_text (str_replace (String c r) replace_with (text sub)) sub)
                     self = self).
    { induction H as [|[i s e t] rest Hc _ IH]; [reflexivity|].
      cbn [map]. rewrite IH. unfold set_text, str_replace.
      cbn [index start end_ text] in *. now rewrite replace_absent. }
    now rewrite Hmap.
Qed.

Lemma replace_text_behaviour_witness :
  replace_text "ab" "ab" [mkEntry 1 (mkTimecode 0) (mkTimecode 1) "xabab"]
  = ([mkEntry 1 (mkTimecode 0) (mkTimecode 1) "xabab"], None) /\
  replace_text "ab" "c" [mkEntry 1 (mkTimecode 0) (mkTimecode 1) "xyz"]
  = ([mkEntry 1 (mkTimecode 0) (mkTimecode 1) "xyz"], None).
Proof.
  split.
  - apply (replace_text_behaviour "ab" "ab"
             [mkEntry 1 (mkTimecode 0) (mkTimecode 1) "xabab"]).
    reflexivity.
  - apply (proj2 (proj2 (proj2 (proj2 (proj2
             (replace_text_behaviour "ab" "c"
                [mkEntry 1 (mkTimecode 0) (mkTimecode 1) "xyz"])))))
             "a"%char "b" eq_refl).
    repeat constructor.
Defined.

Lemma replace_options_values opts : forall find replace_with,
  replace_options find replace_with opts
  = (last_value (option_values "--find" opts) find,
     last_value (option_values "--replace-with" opts) replace_with).
Proof.
  induction opts as [|[option value] rest IH]; intros find replace_with;
    [reflexivity|].
  cbn [replace_options]. rewrite IH, !option_values_cons.
  destruct (String.eqb option "--find"), (String.eqb option "--replace-with");
    now rewrite ?last_value_cons.
Qed.

(** X22: the [replace] command.  The last [--find] and the last
    [--replace-with] count; when either option is missing the command
    raises Usage and touches no file; and with the same string for both,
    files that hold serializations of documents in the domain of the round
    trip are rewritten unchanged. *)
Theorem SRT_replace_behaviour (opts : list (string * string)) :
  (forall files,
     SRT_replace opts files =
     match last_value (option_values "--find" opts) None,
           last_value (option_values "--replace-with" opts) None with
     | Some find, Some replace_with =>
         for_each_file (replace_text find replace_with) files
     | _, _ =>
         (files,
          Some (Usage "Both the string to search for and the string to replace with must be specified."))
     end) /\
  (forall x docs,
     last_value (option_values "--find" opts) None = Some x ->
     last_value (option_values "--replace-with" opts) None = Some x ->
     Forall (fun d => roundtrips d = true) docs ->
     SRT_replace opts (map SubRip_str docs) = (map SubRip_str docs, None)).
Proof.
  assert (H : forall files,
     SRT_replace opts files =
     match last_value (option_values "--find" opts) None,
           last_value (option_values "--replace-with" opts) None with
     | Some find, Some replace_with =>
         for_each_file (replace_text find replace_with) files
     | _, _ =>
         (files,
          Some (Usage "Both the string to search for and the string to replace with must be specified."))
     end).
  { intros files. unfold SRT_replace. rewrite replace_options_values.
    destruct (last_value (option_values "--find" opts) None);
      [destruct (last_value (option_values "--replace-with" opts) None)|];
      reflexivity. }
  split; [exact H|]. intros x docs Hf Hr Hd. rewrite H, Hf, Hr.
  assert (Hsame : forall d, replace_text x x d = (d, None)).
  { intros d. rewrite replace_text_map, map_fixed; [reflexivity|].
    intros [i s e t]. unfold set_text. cbn. now rewrite str_replace_same. }
  rewrite for_each_file_serialized.
  - rewrite (map_ext _ SubRip_str); [reflexivity|]. intros d. now rewrite Hsame.
  - eapply Forall_impl; [|exact Hd]. intros d Hr'. now rewrite Hsame.
Qed.

Lemma SRT_replace_behaviour_witness :
  SRT_replace [("--find", "a"); ("--replace-with", "Hi"); ("--find", "Hi")]
    (map SubRip_str [[mkEntry 7 (mkTimecode 0) (mkTimecode 1000) "Hi"]])
  = (map SubRip_str [[mkEntry 7 (mkTimecode 0) (mkTimecode 1000) "Hi"]], None).
Proof.
  apply (proj2 (SRT_replace_behaviour
                  [("--find", "a"); ("--replace-with", "Hi"); ("--find", "Hi")])
           "Hi" [[mkEntry 7 (mkTimecode 0) (mkTimecode 1000) "Hi"]]);
    try reflexivity.
  repeat constructor.
Defined.

(** ** The stretch command *)

(** X23: [stretch] by a power of two.  With a single [--factor] whose text
    [float] reads as [2^j] and no [--anchor], the anchor is 00:00:00,000,
    and files that hold serializations of documents in the domain of the
    round trip, with timecodes below [2^53] ms, are rewritten with every
    timecode multiplied by [2^j] (truncated toward zero). *)
Theorem SRT_stretch_power_of_two (py_float : string -> result float)
  (v : string) (j : Z) (docs : list SubRip) :
  py_float v = OK (pow2_float j) -> -1022 <= j <= 971 ->
  Forall (fun d => roundtrips d = true /\ Forall (near 0) d) docs ->
  SRT_stretch py_float [("--factor", v)] (map SubRip_str docs)
  = (map (fun d => SubRip_str (map (scaled_about 0 j) d)) docs, None).
Proof.
  intros Hv Hj Hd. unfold SRT_stretch. cbn [stretch_options].
  change (String.eqb "--factor" "--factor") with true.
  change (String.eqb "--factor" "--anchor") with false.
  cbv iota. rewrite Hv. cbn [bind anchor_or_default].
  change (Timecode_init (VStr "00:00:00,000")) with (OK (mkTimecode 0)). cbv iota.
  assert (Hr : forall d, Forall (near 0) d ->
            resize (mkTimecode 0) (pow2_float j) d
            = (map (scaled_about 0 j) d, None)).
  { intros d Hn. apply (resize_rescaled (mkTimecode 0)).
    eapply Forall_impl; [|exact Hn]. intros each [Hs He].
    split; now apply scale_ms_pow2. }
  rewrite for_each_file_serialized.
  - rewrite (map_ext_in _ (fun d => SubRip_str (map (scaled_about 0 j) d)));
      [reflexivity|].
    intros d Hin. rewrite Forall_forall in Hd. destruct (Hd d Hin) as [_ Hn].
    now rewrite (Hr d Hn).
  - eapply Forall_impl; [|exact Hd]. intros d [Hrt Hn]. split; [assumption|].
    now rewrite (Hr d Hn).
Qed.

Lemma SRT_stretch_power_of_two_witness :
  SRT_stretch (fun _ => OK (pow2_float 1)) [("--factor", "2.0")]
    (map SubRip_str [[mkEntry 7 (mkTimecode 500) (mkTimecode 1000) "Hi"]])
  = (map (fun d => SubRip_str (map (scaled_about 0 1) d))
       [[mkEntry 7 (mkTimecode 500) (mkTimecode 1000) "Hi"]], None).
Proof.
  apply (SRT_stretch_power_of_two (fun _ => OK (pow2_float 1)) "2.0" 1
           [[mkEntry 7 (mkTimecode 500) (mkTimecode 1000) "Hi"]]).
  - reflexivity.
  - lia.
  - repeat constructor.
Defined.

(** ** The subcommand *)

(** X24: the subcommand of [main].  Every key of the alias table is
    accepted bare or with one or two leading dashes and rejected with Usage
    with three; without a subcommand [help] is taken; whatever is accepted
    is a key of the table; and an empty subcommand, or a single dash, ends
    in IndexError at line 484 instead of Usage. *)
Theorem subcommand_of_dashes :
  (forall prog name rest,
     In name alias_names ->
     subcommand_of (prog :: name :: rest) = OK name /\
     subcommand_of (prog :: String "-" name :: rest) = OK name /\
     subcommand_of (prog :: String "-" (String "-" name) :: rest) = OK name /\
     subcommand_of (prog :: String "-" (String "-" (String "-" name)) :: rest)
     = Err unrecognized) /\
  (forall prog, subcommand_of [prog] = OK "help") /\
  (forall argv name, subcommand_of argv = OK name -> In name alias_names) /\
  (forall prog rest,
     subcommand_of (prog :: "" :: rest) = Err IndexError /\
     subcommand_of (prog :: "-" :: rest) = Err IndexError).
Proof.
  split; [|split; [|split]].
  - intros prog name rest H. cbn in H.
    repeat (destruct H as [<-|H]; [repeat split|]); contradiction.
  - reflexivity.
  - intros argv name. unfold subcommand_of.
    destruct (list_get _ 1) as [s|]; cbn [bind]; [|discriminate].
    destruct (strip_dash s) as [s1|]; cbn [bind]; [|discriminate].
    destruct (strip_dash s1) as [s2|]; cbn [bind]; [|discriminate].
    destruct (existsb (String.eqb s2) alias_names) eqn:E; [|discriminate].
    intros [= <-]. apply existsb_exists in E as (x & Hin & Hx).
    apply String.eqb_eq in Hx. now subst.
  - intros prog rest. split; reflexivity.
Qed.

Lemma subcommand_of_dashes_witness :
  subcommand_of ["srt.py"; "--squeeze"; "--factor=2"] = OK "squeeze".
Proof.
  apply (proj1 subcommand_of_dashes "srt.py" "squeeze" ["--factor=2"]).
  cbn. auto 10.
Defined.

(** ** Serialization *)

(** X25: serialization loses nothing on the domain of the round trip.
    Two documents of the domain with the same serialization are equal, and
    serializing what was parsed from a serialization gives the same text
    again. *)
Theorem SubRip_str_injective (d d' : SubRip) :
  roundtrips d = true -> roundtrips d' = true ->
  (SubRip_str d = SubRip_str d' -> d = d') /\
  (exists subs, SubRip_init (SubRip_str d) = OK subs /\
                SubRip_str subs = SubRip_str d).
Proof.
  intros H H'. split.
  - intros E. pose proof (SubRip_init_SubRip_str d H) as P.
    rewrite E, (SubRip_init_SubRip_str d' H') in P. congruence.
  - exists d. split; [now apply SubRip_init_SubRip_str|reflexivity].
Qed.

Lemma SubRip_str_injective_witness :
  (SubRip_str [mkEntry 7 (mkTimecode 0) (mkTimecode 1000) "Hi"]
   = SubRip_str [mkEntry 7 (mkTimecode 0) (mkTimecode 1000) "Hi"] ->
   [mkEntry 7 (mkTimecode 0) (mkTimecode 1000) "Hi"]
   = [mkEntry 7 (mkTimecode 0) (mkTimecode 1000) "Hi"]) /\
  (exists subs,
     SubRip_init (SubRip_str [mkEntry 7 (mkTimecode 0) (mkTimecode 1000) "Hi"])
       = OK subs /\
     SubRip_str subs = SubRip_str [mkEntry 7 (mkTimecode 0) (mkTimecode 1000) "Hi"]).
Proof.
  apply (SubRip_str_injective [mkEntry 7 (mkTimecode 0) (mkTimecode 1000) "Hi"]
           [mkEntry 7 (mkTimecode 0) (mkTimecode 1000) "Hi"]); reflexivity.
Defined.

(** ** The sync command over several files *)

(** X26: [sync] over several files.  After a file that goes through, the
    remaining files are synced with [target - anchor] and [goal - anchor] in
    place of [target] and [goal] (lines 401-402 rebind them inside the
    loop); so only with the anchor 00:00:00,000 is every file synced with
    the target and goal that were given. *)
Theorem SRT_sync_carries_over (anchor target goal : Timecode) :
  (forall file rest subs target' goal' factor subs',
     SubRip_init file = OK subs ->
     sync_factor anchor target goal = OK (target', goal', factor) ->
     resize anchor factor subs = (subs', None) ->
     ms target' = ms target - ms anchor /\ ms goal' = ms goal - ms anchor /\
     SRT_sync anchor target goal (file :: rest)
     = (SubRip_str subs' :: fst (SRT_sync anchor target' goal' rest),
        snd (SRT_sync anchor target' goal' rest))) /\
  (ms anchor = 0 ->
   forall files,
     SRT_sync anchor target goal files
     = for_each_file (sync anchor target goal) files).
Proof.
  split.
  - intros file rest subs target' goal' factor subs' Hp Hf Hr.
    cbn [SRT_sync]. rewrite Hp, Hf, Hr.
    destruct (SRT_sync anchor target' goal' rest). cbn [fst snd].
    unfold sync_factor in Hf.
    cbn [Timecode_sub checktype Timecode_init bind] in Hf.
    destruct (float_of_int _); cbn [bind] in Hf; [|discriminate].
    destruct (float_of_int _); cbn [bind] in Hf; [|discriminate].
    destruct (float_div _ _); cbn [bind] in Hf; [|discriminate].
    injection Hf as <- <- _. auto.
  - intros H0 files. induction files as [|file rest IH]; [reflexivity|].
    cbn [SRT_sync for_each_file]. destruct (SubRip_init file) as [subs|e];
      [|reflexivity].
    unfold sync at 1.
    destruct (sync_factor anchor target goal) as [[[target' goal'] factor]|e] eqn:Hf;
      [|reflexivity].
    assert (target' = target /\ goal' = goal) as [-> ->].
    { unfold sync_factor in Hf.
      cbn [Timecode_sub checktype Timecode_init bind] in Hf.
      destruct (float_of_int _); cbn [bind] in Hf; [|discriminate].
      destruct (float_of_int _); cbn [bind] in Hf; [|discriminate].
      destruct (float_div _ _); cbn [bind] in Hf; [|discriminate].
      injection Hf as <- <- _. rewrite H0, !Z.sub_0_r.
      now destruct target, goal. }
    destruct (resize anchor factor subs) as [subs' [e|]]; [reflexivity|].
    now rewrite IH.
Qed.

Lemma SRT_sync_carries_over_witness :
  SRT_sync (mkTimecode 0) (mkTimecode 10000) (mkTimecode 20000)
    [("1" ++ nl ++ "1 --> 2")%string; ("1" ++ nl ++ "3 --> 4")%string]
  = for_each_file (sync (mkTimecode 0) (mkTimecode 10000) (mkTimecode 20000))
      [("1" ++ nl ++ "1 --> 2")%string; ("1" ++ nl ++ "3 --> 4")%string].
Proof.
  apply (proj2 (SRT_sync_carries_over (mkTimecode 0) (mkTimecode 10000)
                  (mkTimecode 20000))).
  reflexivity.
Defined.
